(** * moderntides: the tide plot manager

    A shallow embedding of [custom_components/moderntides/plot_manager.py]
    (class [TidePlotManager]) and the properties of its data-to-geometry
    pipeline.

    Conventions of the embedding.
    - A [datetime] is an [instant]: the number of microseconds (the
      resolution of [datetime]) since an arbitrary epoch, as a [Z].  Time
      zones are not modelled.
    - A Python [float] is a finite double, denoted by the rational [Q] it
      equals; infinities and NaN are not modelled.  The functions that
      compute on heights are embedded twice.  Under the names of the source
      their arithmetic is exact: these definitions carry the properties of
      shape, order and control flow.  With the suffix [_f64] every operation
      is rounded to the nearest double, ties to even, as the source computes
      it: these definitions carry the statements about computed values.
    - A Python exception is a value [Raise e] of the [result] monad. *)

From Stdlib Require Import ZArith QArith Qabs Qround Qpower Lia Lqa.
From stdpp Require Import base option list sorting strings gmap.

Local Open Scope Z_scope.

(** ** Python exceptions *)

Inductive exn : Set :=
  | IndexError | KeyError | TypeError | ValueError | AttributeError
  | ZeroDivisionError | OverflowError | OSError.

Inductive result (A : Type) : Type :=
  | Ok (a : A)
  | Raise (e : exn).
Arguments Ok {A} a.
Arguments Raise {A} e.

#[global] Instance result_ret : MRet result := fun A a => Ok a.
#[global] Instance result_bind : MBind result := fun A B f m =>
  match m with
  | Ok a => f a
  | Raise e => Raise e
  end.

Definition raises {A} (m : result A) : Prop := ∃ e, m = Raise e.

(** [l[i]] for a non-negative index. *)
Definition py_index {A} (l : list A) (i : nat) : result A :=
  match l !! i with
  | Some a => Ok a
  | None => Raise IndexError
  end.

(** ** Data model *)

Definition instant := Z.

(** [{'time': ..., 'height': ...}] *)
Record prediction := Prediction { time : instant; height : Q }.

Inductive tide_type := high | low.

(** [{'time': ..., 'height': ..., 'type': ...}] *)
Record extreme := Extreme { etime : instant; eheight : Q; etype : tide_type }.

(** Python's [a >= b] and [a <= b] on floats. *)
Definition ge_float (a b : Q) : bool := Qle_bool b a.
Definition le_float (a b : Q) : bool := Qle_bool a b.

(** ** [_find_extremes] *)

(** The three branches that pick [prev_height, curr_height, next_height]
    for index [i]. *)
Definition neighbour_heights (predictions : list prediction) (i : nat)
  : result (Q * Q * Q) :=
  if decide (i = 0)%nat then
    p ← py_index predictions i;
    c ← py_index predictions i;
    n ← py_index predictions (i + 1);
    mret (height p, height c, height n)
  else if decide (i = length predictions - 1)%nat then
    p ← py_index predictions (i - 1);
    c ← py_index predictions i;
    n ← py_index predictions i;
    mret (height p, height c, height n)
  else
    p ← py_index predictions (i - 1);
    c ← py_index predictions i;
    n ← py_index predictions (i + 1);
    mret (height p, height c, height n).

(** One iteration of the loop: the [if ... elif ...] that appends to
    [extremes]. *)
Definition extremes_step (predictions : list prediction) (i : nat)
    (extremes : list extreme) : result (list extreme) :=
  '(prev_height, curr_height, next_height) ← neighbour_heights predictions i;
  if ge_float curr_height prev_height && ge_float curr_height next_height then
    p ← py_index predictions i;
    mret (extremes ++ [Extreme (time p) curr_height high])
  else if le_float curr_height prev_height && le_float curr_height next_height then
    p ← py_index predictions i;
    mret (extremes ++ [Extreme (time p) curr_height low])
  else mret extremes.

(** [for i in range(...)] over the indices still to visit. *)
Fixpoint extremes_loop (predictions : list prediction) (range : list nat)
    (extremes : list extreme) : result (list extreme) :=
  match range with
  | [] => Ok extremes
  | i :: range' =>
      extremes' ← extremes_step predictions i extremes;
      extremes_loop predictions range' extremes'
  end.

Definition _find_extremes (predictions : list prediction) : result (list extreme) :=
  if decide (length predictions < 3)%nat then Ok []
  else extremes_loop predictions (seq 0 (length predictions)) [].

(** ** [datetime] arithmetic *)

(** [(t2 - t1).total_seconds()], for the difference [d] in microseconds, in
    exact arithmetic. *)
Definition td_total_seconds (d : Z) : Q := d # 1000000.

(** Rounding to the nearest integer, ties to even. *)
Definition round_half_even (q : Q) : Z :=
  let f := Qfloor q in
  match Qcompare (q - inject_Z f) (1 # 2) with
  | Lt => f
  | Gt => f + 1
  | Eq => if Z.even f then f else f + 1
  end.

(** [datetime.timedelta(seconds=s)] in exact arithmetic: a whole number of
    microseconds. *)
Definition timedelta_seconds (s : Q) : Z := round_half_even (s * 1000000).

(** ** Binary64 arithmetic

    A finite double is the rational it denotes.  An operation of the source
    on doubles returns the double nearest to the exact result, ties going to
    the even significand; [round64] is that rounding.  Infinities and NaN
    have no counterpart here: the definitions with the suffix [_f64] describe
    the source on finite doubles whose results stay below the overflow
    threshold. *)

(** [floor(log2(a))] for a positive [a]. *)
Definition binade (a : Q) : Z :=
  let e := Z.log2 (Qnum a) - Z.log2 (Zpos (Qden a)) in
  if Qle_bool (2 ^ e) a then e else e - 1.

(** The spacing of the doubles around [a]: 53 significant bits, and no
    exponent below that of the subnormal numbers. *)
Definition ulp (a : Q) : Q := (2 ^ Z.max (binade (Qabs a) - 52) (-1074))%Q.

Definition round64 (q : Q) : Q :=
  Qred (inject_Z (Z.sgn (Qnum q) * round_half_even (Qabs q / ulp q)) * ulp q).

(** The rationals that are doubles. *)
Definition is_double (q : Q) : Prop := (round64 q == q)%Q.

(** [a + b], [a - b], [a * b] and [a / b] on doubles; the source divides
    only behind a test that the divisor is not zero. *)
Definition fadd (a b : Q) : Q := round64 (a + b).
Definition fsub (a b : Q) : Q := round64 (a - b).
Definition fmul (a b : Q) : Q := round64 (a * b).
Definition fdiv (a b : Q) : Q := round64 (a / b).

(** [(t2 - t1).total_seconds()]: the microseconds divided by [10**6], a
    true division of integers, which rounds once. *)
Definition td_total_seconds_f64 (d : Z) : Q := round64 (d # 1000000).

(** The integral part of [s], towards zero, as [modf] gives it. *)
Definition trunc (s : Q) : Z := Z.quot (Qnum s) (Zpos (Qden s)).

(** [datetime.timedelta(seconds=s)] for a double [s]: the whole seconds are
    exact, the fraction is scaled to microseconds in double arithmetic and
    rounded to the nearest integer, ties to even. *)
Definition timedelta_seconds_f64 (s : Q) : Z :=
  let intpart := trunc s in
  let fracpart := (s - inject_Z intpart)%Q in
  intpart * 1000000 + round_half_even (fmul 1000000 fracpart).

(** ** [sorted(predictions, key=lambda x: x['time'])]

    [sorted] is stable; a stable sort has one possible result, computed here
    by insertion: an element goes in front of the first later element whose
    key is not smaller. *)
Fixpoint insert_by_time (p : prediction) (l : list prediction) : list prediction :=
  match l with
  | [] => [p]
  | q :: l' =>
      if time p <=? time q then p :: q :: l' else q :: insert_by_time p l'
  end.

Definition sorted_by_time (predictions : list prediction) : list prediction :=
  foldr insert_by_time [] predictions.

(** ** [_generate_smooth_curve] *)

(** [3 * ratio**2 - 2 * ratio**3] *)
Definition cubic_ratio (ratio : Q) : Q := (3 * ratio ^ 2 - 2 * ratio ^ 3)%Q.

(** The point appended for one [j] of the inner loop. *)
Definition interp_point (p1 : prediction) (time_diff height_diff : Q) (j : Z)
  : prediction :=
  let ratio := (inject_Z j / 6)%Q in
  let interp_time := time p1 + timedelta_seconds (time_diff * ratio) in
  let interp_height := (height p1 + height_diff * cubic_ratio ratio)%Q in
  Prediction interp_time interp_height.

(** [for j in range(1, 6)] *)
Fixpoint smooth_inner (p1 : prediction) (time_diff height_diff : Q)
    (range : list Z) (smooth_points : list prediction) : list prediction :=
  match range with
  | [] => smooth_points
  | j :: range' =>
      smooth_inner p1 time_diff height_diff range'
        (smooth_points ++ [interp_point p1 time_diff height_diff j])
  end.

(** One iteration of [for i in range(len(sorted_predictions) - 1)]. *)
Definition smooth_step (sorted_predictions : list prediction) (i : nat)
    (smooth_points : list prediction) : result (list prediction) :=
  p1 ← py_index sorted_predictions i;
  p2 ← py_index sorted_predictions (i + 1);
  let smooth_points := smooth_points ++ [p1] in
  let time_diff := td_total_seconds (time p2 - time p1) in
  let height_diff := (height p2 - height p1)%Q in
  mret (smooth_inner p1 time_diff height_diff [1; 2; 3; 4; 5] smooth_points).

Fixpoint smooth_loop (sorted_predictions : list prediction) (range : list nat)
    (smooth_points : list prediction) : result (list prediction) :=
  match range with
  | [] => Ok smooth_points
  | i :: range' =>
      smooth_points' ← smooth_step sorted_predictions i smooth_points;
      smooth_loop sorted_predictions range' smooth_points'
  end.

(** [current_time] is accepted and not used. *)
Definition _generate_smooth_curve (predictions : list prediction)
    (current_time : instant) : result (list prediction) :=
  if decide (length predictions < 2)%nat then Ok predictions
  else
    let sorted_predictions := sorted_by_time predictions in
    smooth_points ← smooth_loop sorted_predictions
                      (seq 0 (length sorted_predictions - 1)) [];
    match last sorted_predictions with
    | Some p => mret (smooth_points ++ [p])
    | None => mret smooth_points
    end.

(** ** [_interpolate_current_height] *)

(** The body of the [if] that found a bracket [(t1, h1), (t2, h2)]. *)
Definition interpolate_between (p1 p2 : prediction) (current_time : instant) : Q :=
  let total_seconds := td_total_seconds (time p2 - time p1) in
  let elapsed_seconds := td_total_seconds (current_time - time p1) in
  if Qeq_bool total_seconds 0 then height p1
  else
    let ratio := (elapsed_seconds / total_seconds)%Q in
    (height p1 + (height p2 - height p1) * ratio)%Q.

(** [for i in range(len(predictions) - 1)], returning from inside the loop;
    [None] is Python's [None]. *)
Fixpoint interpolate_loop (predictions : list prediction) (range : list nat)
    (current_time : instant) : result (option Q) :=
  match range with
  | [] => Ok None
  | i :: range' =>
      p1 ← py_index predictions i;
      p2 ← py_index predictions (i + 1);
      if (time p1 <=? current_time) && (current_time <=? time p2) then
        mret (Some (interpolate_between p1 p2 current_time))
      else interpolate_loop predictions range' current_time
  end.

Definition _interpolate_current_height (predictions : list prediction)
    (current_time : instant) : result (option Q) :=
  if decide (length predictions < 2)%nat then Ok None
  else interpolate_loop predictions (seq 0 (length predictions - 1)) current_time.

(** ** The arithmetic of the source on doubles

    The functions above, with every operation on floats rounded as the source
    rounds it.  The control flow is the same. *)

(** [3 * ratio**2 - 2 * ratio**3]: a power is rounded once. *)
Definition cubic_ratio_f64 (ratio : Q) : Q :=
  fsub (fmul 3 (round64 (ratio ^ 2))) (fmul 2 (round64 (ratio ^ 3))).

Definition interp_point_f64 (p1 : prediction) (time_diff height_diff : Q) (j : Z)
  : prediction :=
  let ratio := fdiv (inject_Z j) 6 in
  let interp_time := time p1 + timedelta_seconds_f64 (fmul time_diff ratio) in
  let interp_height := fadd (height p1) (fmul height_diff (cubic_ratio_f64 ratio)) in
  Prediction interp_time interp_height.

Fixpoint smooth_inner_f64 (p1 : prediction) (time_diff height_diff : Q)
    (range : list Z) (smooth_points : list prediction) : list prediction :=
  match range with
  | [] => smooth_points
  | j :: range' =>
      smooth_inner_f64 p1 time_diff height_diff range'
        (smooth_points ++ [interp_point_f64 p1 time_diff height_diff j])
  end.

Definition smooth_step_f64 (sorted_predictions : list prediction) (i : nat)
    (smooth_points : list prediction) : result (list prediction) :=
  p1 ← py_index sorted_predictions i;
  p2 ← py_index sorted_predictions (i + 1);
  let smooth_points := smooth_points ++ [p1] in
  let time_diff := td_total_seconds_f64 (time p2 - time p1) in
  let height_diff := fsub (height p2) (height p1) in
  mret (smooth_inner_f64 p1 time_diff height_diff [1; 2; 3; 4; 5] smooth_points).

Fixpoint smooth_loop_f64 (sorted_predictions : list prediction) (range : list nat)
    (smooth_points : list prediction) : result (list prediction) :=
  match range with
  | [] => Ok smooth_points
  | i :: range' =>
      smooth_points' ← smooth_step_f64 sorted_predictions i smooth_points;
      smooth_loop_f64 sorted_predictions range' smooth_points'
  end.

Definition _generate_smooth_curve_f64 (predictions : list prediction)
    (current_time : instant) : result (list prediction) :=
  if decide (length predictions < 2)%nat then Ok predictions
  else
    let sorted_predictions := sorted_by_time predictions in
    smooth_points ← smooth_loop_f64 sorted_predictions
                      (seq 0 (length sorted_predictions - 1)) [];
    match last sorted_predictions with
    | Some p => mret (smooth_points ++ [p])
    | None => mret smooth_points
    end.

Definition interpolate_between_f64 (p1 p2 : prediction) (current_time : instant) : Q :=
  let total_seconds := td_total_seconds_f64 (time p2 - time p1) in
  let elapsed_seconds := td_total_seconds_f64 (current_time - time p1) in
  if Qeq_bool total_seconds 0 then height p1
  else
    let ratio := fdiv elapsed_seconds total_seconds in
    fadd (height p1) (fmul (fsub (height p2) (height p1)) ratio).

Fixpoint interpolate_loop_f64 (predictions : list prediction) (range : list nat)
    (current_time : instant) : result (option Q) :=
  match range with
  | [] => Ok None
  | i :: range' =>
      p1 ← py_index predictions i;
      p2 ← py_index predictions (i + 1);
      if (time p1 <=? current_time) && (current_time <=? time p2) then
        mret (Some (interpolate_between_f64 p1 p2 current_time))
      else interpolate_loop_f64 predictions range' current_time
  end.

Definition _interpolate_current_height_f64 (predictions : list prediction)
    (current_time : instant) : result (option Q) :=
  if decide (length predictions < 2)%nat then Ok None
  else interpolate_loop_f64 predictions (seq 0 (length predictions - 1)) current_time.

(** [height_range = max_height - min_height], [min_height -= height_range *
    0.1], [max_height += height_range * 0.1]; the literal [0.1] is the double
    nearest to one tenth. *)
Definition padded_height_range_f64 (min_height max_height : Q) : Q * Q :=
  let height_range := fsub max_height min_height in
  (fsub min_height (fmul height_range (round64 (1 # 10))),
   fadd max_height (fmul height_range (round64 (1 # 10)))).

(** ** Dynamically typed payloads

    [tide_data] is a [Dict[str, Any]]: what sits under its keys is not known
    statically, and the source probes it with [in], subscripts, [.keys()],
    [.get()] and [len()], each of which may raise. *)

#[local] Set Warnings "-register-all".
Inductive value :=
  | VNone
  | VBool (b : bool)
  | VInt (n : Z)
  | VFloat (q : Q)
  | VStr (s : string)
  | VDatetime (t : instant)
  | VList (l : list value)
  | VDict (d : list (string * value)).

(** A dictionary with string keys, in insertion order. *)
Definition dict := list (string * value).

Fixpoint dict_get (d : dict) (k : string) : option value :=
  match d with
  | [] => None
  | (k', v) :: d' => if String.eqb k' k then Some v else dict_get d' k
  end.

(** [k in d] for a [dict]. *)
Definition dict_has (d : dict) (k : string) : bool :=
  match dict_get d k with
  | Some _ => true
  | None => false
  end.

(** Truth value of an object ([if x], [not x], [x and y]). *)
Definition truthy (v : value) : bool :=
  match v with
  | VNone => false
  | VBool b => b
  | VInt n => negb (n =? 0)
  | VFloat q => negb (Qeq_bool q 0)
  | VStr s => negb (String.eqb s "")
  | VDatetime _ => true
  | VList l => negb (Nat.eqb (length l) 0)
  | VDict d => negb (Nat.eqb (length d) 0)
  end.

(** [k in s] for strings: [k] occurs in [s]. *)
Fixpoint occurs_in (k s : string) : bool :=
  String.prefix k s ||
  match s with
  | EmptyString => false
  | String _ s' => occurs_in k s'
  end.

Definition is_str (k : string) (v : value) : bool :=
  match v with
  | VStr s => String.eqb s k
  | _ => false
  end.

(** [k in v] for a string [k]. *)
Definition py_contains (k : string) (v : value) : result bool :=
  match v with
  | VDict d => Ok (dict_has d k)
  | VList l => Ok (existsb (is_str k) l)
  | VStr s => Ok (occurs_in k s)
  | _ => Raise TypeError
  end.

(** [v[k]] for a string [k]. *)
Definition py_getitem (v : value) (k : string) : result value :=
  match v with
  | VDict d =>
      match dict_get d k with
      | Some x => Ok x
      | None => Raise KeyError
      end
  | _ => Raise TypeError
  end.

(** [v.keys()]; only the exception matters to the callers. *)
Definition py_keys (v : value) : result (list string) :=
  match v with
  | VDict d => Ok (d.*1)
  | _ => Raise AttributeError
  end.

(** [len(v)] *)
Definition py_len (v : value) : result nat :=
  match v with
  | VStr s => Ok (String.length s)
  | VList l => Ok (length l)
  | VDict d => Ok (length d)
  | _ => Raise TypeError
  end.

Fixpoint chars (s : string) : list value :=
  match s with
  | EmptyString => []
  | String c s' => VStr (String c EmptyString) :: chars s'
  end.

(** The items [for entry in v] visits. *)
Definition py_iter (v : value) : result (list value) :=
  match v with
  | VList l => Ok l
  | VDict d => Ok (VStr <$> d.*1)
  | VStr s => Ok (chars s)
  | _ => Raise TypeError
  end.

(** [v.get(k, default)] *)
Definition py_get (v : value) (k : string) (default : value) : result value :=
  match v with
  | VDict d => Ok (from_option id default (dict_get d k))
  | _ => Raise AttributeError
  end.

(** ** [_extract_predictions] *)

Section Extraction.

(** The library functions the extractor calls on strings.
    [strptime s] is [datetime.datetime.strptime(s, "%Y-%m-%d %H:%M:%S")] and
    [float_of_str s] is [float(s)]; [None] stands for their [ValueError].
    The strings [float] reads as an infinity or as NaN have no value here:
    the statements about heights are about finite ones.
    [str_of v] is the text an f-string prints for an object that is not a
    string. *)
Variable strptime : string → option instant.
Variable float_of_str : string → option Q.
Variable str_of : value → string.

(** [f"{v}"] *)
Definition py_format (v : value) : string :=
  match v with
  | VStr s => s
  | _ => str_of v
  end.

(** The first integer too large for [float()]: the double nearest to it
    would be infinite. *)
Definition float_overflow : Z := 2 ^ 1024 - 2 ^ 970.

(** [float(v)] *)
Definition py_float (v : value) : result Q :=
  match v with
  | VFloat q => Ok q
  | VInt n =>
      if Z.abs n <? float_overflow then Ok (round64 (inject_Z n))
      else Raise OverflowError
  | VBool b => Ok (if b then 1 else 0)%Q
  | VStr s =>
      match float_of_str s with
      | Some q => Ok q
      | None => Raise ValueError
      end
  | _ => Raise TypeError
  end.

(** The [{'time': dt, 'height': height}] the loop appends. *)
Definition prediction_dict (dt : instant) (h : Q) : value :=
  VDict [("time", VDatetime dt); ("height", VFloat h)].

(** The body of the [try] for one entry: [Ok (Some p)] when it appends [p],
    [Ok None] when the [if] is not taken. *)
Definition entry_try (entry : value) : result (option value) :=
  fecha_str ← py_get entry "fecha" VNone;
  hora_str ← py_get entry "hora" VNone;
  if truthy fecha_str && truthy hora_str then
    let datetime_str := py_format fecha_str +:+ " " +:+ py_format hora_str in
    match strptime datetime_str with
    | None => Raise ValueError
    | Some dt =>
        altura ← py_get entry "altura" (VInt 0);
        h ← py_float altura;
        mret (Some (prediction_dict dt h))
    end
  else mret None.

(** [for entry in prediccion: try: ... except (ValueError, TypeError):
    continue] *)
Fixpoint entries_loop (entries : list value) (predictions : list value)
  : result (list value) :=
  match entries with
  | [] => Ok predictions
  | entry :: entries' =>
      match entry_try entry with
      | Ok (Some p) => entries_loop entries' (predictions ++ [p])
      | Ok None => entries_loop entries' predictions
      | Raise ValueError | Raise TypeError => entries_loop entries' predictions
      | Raise e => Raise e
      end
  end.

(** The arguments of the three debug calls that look into ["daily"]; they
    are evaluated whatever the log level. *)
Definition debug_daily (tide_data : dict) : result unit :=
  if dict_has tide_data "daily" then
    daily ← py_getitem (VDict tide_data) "daily";
    _ ← py_keys daily;
    has_mareas ← py_contains "mareas" daily;
    if has_mareas : bool then
      mareas ← py_getitem daily "mareas";
      _ ← py_keys mareas;
      mret ()
    else mret ()
  else mret ().

(** ["daily" in tide_data and "mareas" in tide_data["daily"]] *)
Definition has_daily_mareas (tide_data : dict) : result bool :=
  if dict_has tide_data "daily" then
    daily ← py_getitem (VDict tide_data) "daily";
    py_contains "mareas" daily
  else mret false.

(** The fallback branch: the value of [predictions] when it ends. *)
Definition extract_fallback_branch (tide_data : dict) : result value :=
  let predictions := VList [] in
  _ ← debug_daily tide_data;
  nested ← has_daily_mareas tide_data;
  if nested : bool then
    daily ← py_getitem (VDict tide_data) "daily";
    mareas_data ← py_getitem daily "mareas";
    has_prediccion ← py_contains "prediccion" mareas_data;
    if has_prediccion : bool then
      prediccion ← py_getitem mareas_data "prediccion";
      _ ← py_len prediccion;
      entries ← py_iter prediccion;
      extracted ← entries_loop entries [];
      mret (VList extracted)
    else mret predictions
  else mret predictions.

(** The two [len(predictions)] are arguments of debug calls: they are
    evaluated whatever the log level, and raise on a value without a
    length. *)
Definition _extract_predictions (tide_data : dict) : result value :=
  predictions ←
    (if dict_has tide_data "tide_points"
        && truthy (from_option id VNone (dict_get tide_data "tide_points")) then
       predictions ← py_getitem (VDict tide_data) "tide_points";
       _ ← py_len predictions;
       mret predictions
     else extract_fallback_branch tide_data);
  _ ← py_len predictions;
  mret predictions.

End Extraction.

(** ** The renderer instance *)

(** The attributes [__init__] stores on [self]. *)
Record plot_manager := PlotManager {
  _name : string;
  _filename : string;
  _transparent_background : bool;
  _dark_mode : bool
}.

(** ** [_generate_svg_plot]

    The renderer computes plot coordinates and prints them into markup with
    f-strings.  The coordinates are modelled; an [svg_part] records the values
    one f-string prints, and the printing itself is a parameter. *)

Record color_scheme := ColorScheme {
  background : string; grid : string; tide_line : string; tide_fill : string;
  tide_fill_opacity : string; current_marker : string; current_text : string;
  high_tide : string; low_tide : string; text : string; title : string;
  axis_text : string
}.

Inductive svg_part :=
  | SvgOpen (width height : Z)
  | SvgRect (width height : Z) (fill : string)
  | SvgLine (x1 y1 x2 y2 : Q) (stroke : string)
  | SvgAreaPath (points : list (Q * Q)) (fill opacity : string)
  | SvgCurvePath (points : list (Q * Q)) (stroke : string)
  | SvgCircle (cx cy : Q) (fill : string)
  | SvgCurrentLabel (x y : Q) (fill : string) (h : Q) (t : instant)
  | SvgExtremeLabel (x y : Q) (fill stroke : string) (stroke_width : Z)
      (h : Q) (t : instant)
  | SvgTimeTick (x y : Q) (fill : string) (t : instant)
  | SvgHeightTick (x y : Q) (fill : string) (h : Q)
  | SvgTimeAxisTitle (x y : Q) (fill : string)
  | SvgHeightAxisTitle (y : Q) (fill : string)
  | SvgTitle (x : Q) (fill : string) (name : string)
  | SvgClose.

(** Float division [a / b]. *)
Definition py_div (a b : Q) : result Q :=
  if Qeq_bool b 0 then Raise ZeroDivisionError else Ok (a / b)%Q.

(** [min] and [max] of a list, given its first element. *)
Definition min_time_of (t : instant) (l : list instant) : instant := foldl Z.min t l.
Definition max_time_of (t : instant) (l : list instant) : instant := foldl Z.max t l.
Definition Qmin (a b : Q) : Q := if Qle_bool a b then a else b.
Definition Qmax (a b : Q) : Q := if Qle_bool b a then a else b.
Definition min_height_of (h : Q) (l : list Q) : Q := foldl Qmin h l.
Definition max_height_of (h : Q) (l : list Q) : Q := foldl Qmax h l.

(** The padding of the height range:
[[
  height_range = max_height - min_height
  min_height -= height_range * 0.1
  max_height += height_range * 0.1
]] *)
Definition padded_height_range (min_height max_height : Q) : Q * Q :=
  let height_range := (max_height - min_height)%Q in
  let min_height := (min_height - height_range * (1 # 10))%Q in
  let max_height := (max_height + height_range * (1 # 10))%Q in
  (min_height, max_height).

(** The colour scheme of each mode. *)
Definition colors_of (self : plot_manager) : color_scheme :=
  if _dark_mode self then
    {| background := if negb (_transparent_background self) then "#1e1e1e" else "none";
       grid := "#404040"; tide_line := "#4CAF50"; tide_fill := "#4CAF50";
       tide_fill_opacity := "0.2"; current_marker := "#FFF";
       current_text := "#FFF"; high_tide := "#FF5722"; low_tide := "#2196F3";
       text := "#FFF"; title := "#FFF"; axis_text := "#CCC" |}
  else
    {| background := if negb (_transparent_background self) then "white" else "none";
       grid := "lightgray"; tide_line := "cornflowerblue"; tide_fill := "lightblue";
       tide_fill_opacity := "0.3"; current_marker := "black";
       current_text := "black"; high_tide := "red"; low_tide := "blue";
       text := "black"; title := "black"; axis_text := "black" |}.

(** [_generate_grid]: five vertical lines, then five horizontal ones. *)
Definition _generate_grid (margin plot_width plot_height width height : Z)
    (grid_color : string) : list svg_part :=
  ((λ i : Z,
      let x := (inject_Z margin + inject_Z (i * plot_width) / 4)%Q in
      SvgLine x (inject_Z margin) x (inject_Z (height - margin)) grid_color)
     <$> [0; 1; 2; 3; 4])
  ++
  ((λ i : Z,
      let y := (inject_Z margin + inject_Z (i * plot_height) / 4)%Q in
      SvgLine (inject_Z margin) y (inject_Z (width - margin)) y grid_color)
     <$> [0; 1; 2; 3; 4]).

(** [_generate_axes_labels]: five time ticks, five height ticks, two titles.
    A [timedelta] times a float is rounded to whole microseconds. *)
Definition _generate_axes_labels (margin plot_width plot_height width height : Z)
    (min_time max_time : instant) (min_height max_height : Q)
    (text_color : string) : list svg_part :=
  ((λ i : Z,
      let x := (inject_Z margin + inject_Z (i * plot_width) / 4)%Q in
      let time_ratio := (inject_Z i / 4)%Q in
      let label_time :=
        min_time + round_half_even (inject_Z (max_time - min_time) * time_ratio) in
      SvgTimeTick x (inject_Z (height - margin + 15)) text_color label_time)
     <$> [0; 1; 2; 3; 4])
  ++
  ((λ i : Z,
      let y := (inject_Z (height - margin) - inject_Z (i * plot_height) / 4)%Q in
      let height_ratio := (inject_Z i / 4)%Q in
      let label_height := (min_height + (max_height - min_height) * height_ratio)%Q in
      SvgHeightTick (inject_Z (margin - 10)) (y + 3)%Q text_color label_height)
     <$> [0; 1; 2; 3; 4])
  ++ [SvgTimeAxisTitle (inject_Z width / 2)%Q (inject_Z (height - 10)) text_color;
      SvgHeightAxisTitle (inject_Z height / 2)%Q text_color].

(** [_generate_axes_labels] on doubles.  [i * plot_width / 4] is a true
    division of integers; an integer meeting a float is converted first.  A
    [timedelta] times a float is exact before it is rounded to whole
    microseconds. *)
Definition _generate_axes_labels_f64 (margin plot_width plot_height width height : Z)
    (min_time max_time : instant) (min_height max_height : Q)
    (text_color : string) : list svg_part :=
  ((λ i : Z,
      let x := fadd (round64 (inject_Z margin)) (fdiv (inject_Z (i * plot_width)) 4) in
      let time_ratio := fdiv (inject_Z i) 4 in
      let label_time :=
        min_time + round_half_even (inject_Z (max_time - min_time) * time_ratio) in
      SvgTimeTick x (inject_Z (height - margin + 15)) text_color label_time)
     <$> [0; 1; 2; 3; 4])
  ++
  ((λ i : Z,
      let y := fsub (round64 (inject_Z (height - margin)))
                 (fdiv (inject_Z (i * plot_height)) 4) in
      let height_ratio := fdiv (inject_Z i) 4 in
      let label_height :=
        fadd min_height (fmul (fsub max_height min_height) height_ratio) in
      SvgHeightTick (inject_Z (margin - 10)) (fadd y 3) text_color label_height)
     <$> [0; 1; 2; 3; 4])
  ++ [SvgTimeAxisTitle (fdiv (inject_Z width) 2) (inject_Z (height - 10)) text_color;
      SvgHeightAxisTitle (fdiv (inject_Z height) 2) text_color].

(** The double quote character, and an attribute [name="v"]. *)
Definition dquote : string := String (Ascii.ascii_of_nat 34) EmptyString.
Definition attr (name v : string) : string := name +:+ "=" +:+ dquote +:+ v +:+ dquote.

(** [_generate_error_svg]: the fixed placeholder document. *)
Definition _generate_error_svg (self : plot_manager) : string :=
  let bg_color :=
    if _dark_mode self && negb (_transparent_background self) then "#1e1e1e"
    else if _transparent_background self then "none" else "white" in
  let text_color := if _dark_mode self then "#FF5722" else "red" in
  "
        <svg " +:+ attr "width" "800" +:+ " " +:+ attr "height" "400" +:+ " "
  +:+ attr "xmlns" "http://www.w3.org/2000/svg" +:+ ">
            <rect " +:+ attr "width" "800" +:+ " " +:+ attr "height" "400" +:+ " "
  +:+ attr "fill" bg_color +:+ "/>
            <text " +:+ attr "x" "400" +:+ " " +:+ attr "y" "200" +:+ " "
  +:+ attr "text-anchor" "middle" +:+ " " +:+ attr "font-family" "Arial" +:+ " "
  +:+ attr "font-size" "18" +:+ " " +:+ attr "fill" text_color +:+ ">
                Could not load tide data
            </text>
        </svg>
        ".

Section Rendering.

(** The f-strings that print each part, joined with newlines. *)
Variable print_svg : list svg_part → string.

(** [time_to_x] and [height_to_y], closed over the extents in the source;
    [svg_width] and [svg_height] are its [width] and [height]. *)
Definition time_to_x (min_time max_time : instant) (margin plot_width : Z)
    (time_val : instant) : result Q :=
  time_ratio ← py_div (td_total_seconds (time_val - min_time))
                      (td_total_seconds (max_time - min_time));
  mret (inject_Z margin + time_ratio * inject_Z plot_width)%Q.

Definition height_to_y (min_height max_height : Q) (svg_height margin plot_height : Z)
    (height_val : Q) : result Q :=
  height_ratio ← py_div (height_val - min_height) (max_height - min_height);
  mret (inject_Z (svg_height - margin) - height_ratio * inject_Z plot_height)%Q.

(** [for point in curve_points: path_points.append(f"{x},{y}")] *)
Fixpoint path_loop (to_x : instant → result Q) (to_y : Q → result Q)
    (curve_points : list prediction) (path_points : list (Q * Q))
  : result (list (Q * Q)) :=
  match curve_points with
  | [] => Ok path_points
  | point :: rest =>
      x ← to_x (time point);
      y ← to_y (height point);
      path_loop to_x to_y rest (path_points ++ [(x, y)])
  end.

(** [for extreme in extremes]: a marker and its label. *)
Fixpoint extremes_markers (self : plot_manager) (colors : color_scheme)
    (to_x : instant → result Q) (to_y : Q → result Q)
    (extremes : list extreme) (svg_parts : list svg_part)
  : result (list svg_part) :=
  match extremes with
  | [] => Ok svg_parts
  | e :: rest =>
      ext_x ← to_x (etime e);
      ext_y ← to_y (eheight e);
      let is_high := match etype e with high => true | low => false end in
      let color := if is_high then high_tide colors else low_tide colors in
      let svg_parts := svg_parts ++ [SvgCircle ext_x ext_y color] in
      let label_y := (if is_high then ext_y - 20 else ext_y + 25)%Q in
      let label :=
        if _dark_mode self
        then SvgExtremeLabel ext_x label_y (text colors) color 1 (eheight e) (etime e)
        else SvgExtremeLabel ext_x label_y "white" color 3 (eheight e) (etime e) in
      extremes_markers self colors to_x to_y rest (svg_parts ++ [label])
  end.

Definition _generate_svg_plot (self : plot_manager)
    (curve_points : list prediction) (extremes : list extreme)
    (current_time : instant) (current_height : option Q)
    (original_predictions : list prediction) : result string :=
  let svg_width := 800 in
  let svg_height := 400 in
  let margin := 60 in
  let plot_width := svg_width - 2 * margin in
  let plot_height := svg_height - 2 * margin in
  match curve_points with
  | [] => Ok (_generate_error_svg self)
  | p0 :: ps =>
      let times := time <$> ps in
      let heights := height <$> ps in
      let min_time := min_time_of (time p0) times in
      let max_time := max_time_of (time p0) times in
      let min_height := min_height_of (height p0) heights in
      let max_height := max_height_of (height p0) heights in
      let '(min_height, max_height) := padded_height_range min_height max_height in
      let colors := colors_of self in
      let to_x := time_to_x min_time max_time margin plot_width in
      let to_y := height_to_y min_height max_height svg_height margin plot_height in
      let svg_parts :=
        [SvgOpen svg_width svg_height; SvgRect svg_width svg_height (background colors)] in
      let svg_parts :=
        svg_parts ++ _generate_grid margin plot_width plot_height svg_width svg_height
                       (grid colors) in
      path_points ← path_loop to_x to_y curve_points [];
      (* [path_points] is not empty here *)
      bottom_y ← to_y min_height;
      right_x ← to_x max_time;
      left_x ← to_x min_time;
      let area_points := path_points ++ [(right_x, bottom_y); (left_x, bottom_y)] in
      let svg_parts :=
        svg_parts ++ [SvgAreaPath area_points (tide_fill colors) (tide_fill_opacity colors);
                      SvgCurvePath path_points (tide_line colors)] in
      svg_parts ←
        match current_height with
        | Some h =>
            curr_x ← to_x current_time;
            curr_y ← to_y h;
            mret (svg_parts ++
                  [SvgCircle curr_x curr_y (current_marker colors);
                   SvgCurrentLabel curr_x (curr_y - 15)%Q (current_text colors)
                     h current_time])
        | None => mret svg_parts
        end;
      svg_parts ← extremes_markers self colors to_x to_y extremes svg_parts;
      let svg_parts :=
        svg_parts ++ _generate_axes_labels margin plot_width plot_height svg_width svg_height
                       min_time max_time min_height max_height (axis_text colors) in
      let svg_parts :=
        svg_parts ++ [SvgTitle (inject_Z svg_width / 2)%Q (title colors) (_name self)] in
      let svg_parts := svg_parts ++ [SvgClose] in
      mret (print_svg svg_parts)
  end.

End Rendering.

(** ** [_save_svg_as_png] *)

(** [s.replace(old, new)] for a non-empty [old]: every occurrence, scanning
    from the left; [skip] counts the characters of a match still to drop. *)
Fixpoint replace_from (old new : string) (skip : nat) (s : string) : string :=
  match s with
  | EmptyString => EmptyString
  | String c s' =>
      match skip with
      | S skip' => replace_from old new skip' s'
      | O =>
          if String.prefix old s
          then new +:+ replace_from old new (String.length old - 1) s'
          else String c (replace_from old new 0 s')
      end
  end.

Definition py_replace (s old new : string) : string := replace_from old new 0 s.

(** [base64.b64encode], on the bytes of a string. *)
Definition b64_alphabet : string :=
  "ABCDEFGHIJKLMNOPQRSTUVWXYZabcdefghijklmnopqrstuvwxyz0123456789+/".

Definition b64_digit (n : N) : string :=
  match String.get (N.to_nat n) b64_alphabet with
  | Some c => String c EmptyString
  | None => EmptyString
  end.

Fixpoint b64_groups (bytes : list N) : string :=
  match bytes with
  | [] => EmptyString
  | [a] =>
      let n := (a * 65536)%N in
      b64_digit (n / 262144) +:+ b64_digit ((n / 4096) mod 64) +:+ "=" +:+ "="
  | [a; b] =>
      let n := (a * 65536 + b * 256)%N in
      b64_digit (n / 262144) +:+ b64_digit ((n / 4096) mod 64)
      +:+ b64_digit ((n / 64) mod 64) +:+ "="
  | a :: b :: c :: rest =>
      let n := (a * 65536 + b * 256 + c)%N in
      b64_digit (n / 262144) +:+ b64_digit ((n / 4096) mod 64)
      +:+ b64_digit ((n / 64) mod 64) +:+ b64_digit (n mod 64)
      +:+ b64_groups rest
  end%N.

(** [s.encode('utf-8')]: a string is its sequence of bytes here. *)
Fixpoint encode_utf8 (s : string) : list N :=
  match s with
  | EmptyString => []
  | String c s' => Ascii.N_of_ascii c :: encode_utf8 s'
  end.

Definition b64encode (s : string) : string := b64_groups (encode_utf8 s).

(** The files of the host, and the paths [open(path, 'w')] fails on. *)
Record filesystem := FileSystem {
  files : gmap string string;
  denied : gset string
}.

(** [with open(path, 'w', encoding='utf-8') as f: f.write(content)] *)
Definition write_file (path content : string) (fs : filesystem) : result filesystem :=
  if decide (path ∈ denied fs) then Raise OSError
  else Ok {| files := <[path := content]> (files fs); denied := denied fs |}.

(** The wrapper document built around the encoded markup. *)
Definition html_wrapper (svg_base64 : string) : string :=
  "
            <html>
            <body " +:+ attr "style" "margin:0;padding:0;" +:+ ">
                <img " +:+ attr "src" ("data:image/svg+xml;base64," +:+ svg_base64)
  +:+ " " +:+ attr "style" "width:800px;height:400px;" +:+ "/>
            </body>
            </html>
            ".

(** The whole body is a [try]; any exception gives [False].  A write that
    succeeded before the failing one stays on disk. *)
Definition _save_svg_as_png (self : plot_manager) (svg_content : string)
    (fs : filesystem) : bool * filesystem :=
  match write_file (py_replace (_filename self) ".png" ".svg") svg_content fs with
  | Raise _ => (false, fs)
  | Ok fs1 =>
      let svg_base64 := b64encode svg_content in
      let html_content := html_wrapper svg_base64 in
      match write_file (_filename self) svg_content fs1 with
      | Raise _ => (false, fs1)
      | Ok fs2 => (true, fs2)
      end
  end.

(** ** [generate_tide_plot] *)

(** The typed view of an extracted prediction list: the pipeline subscripts
    every entry with ['time'] and ['height'], subtracts times and does
    arithmetic on heights.  A height that is itself a [datetime] is outside
    the model. *)
Definition as_number (v : value) : result Q :=
  match v with
  | VFloat q => Ok q
  | VInt n => Ok (inject_Z n)
  | VBool b => Ok (if b then 1 else 0)%Q
  | _ => Raise TypeError
  end.

Definition as_prediction (v : value) : result prediction :=
  t ← py_getitem v "time";
  h ← py_getitem v "height";
  match t with
  | VDatetime t =>
      h ← as_number h;
      mret (Prediction t h)
  | _ => Raise TypeError
  end.

Fixpoint as_predictions_list (l : list value) : result (list prediction) :=
  match l with
  | [] => Ok []
  | v :: l' =>
      p ← as_prediction v;
      ps ← as_predictions_list l';
      mret (p :: ps)
  end.

Definition as_predictions (v : value) : result (list prediction) :=
  match v with
  | VList l => as_predictions_list l
  | _ => Raise TypeError
  end.

Section Generate.

Variable strptime : string → option instant.
Variable float_of_str : string → option Q.
Variable str_of : value → string.
Variable print_svg : list svg_part → string.
(** [dt_util.now()] *)
Variable now : instant.

(** The body of the [try]: [Ok r] when it returns [r]. *)
Definition generate_try (self : plot_manager) (tide_data : dict)
    (current_time : instant) (fs : filesystem) : result (bool * filesystem) :=
  extracted ← _extract_predictions strptime float_of_str str_of tide_data;
  if negb (truthy extracted) then mret (false, fs)
  else
    predictions ← as_predictions extracted;
    curve_points ← _generate_smooth_curve predictions current_time;
    extremes ← _find_extremes predictions;
    current_height ← _interpolate_current_height predictions current_time;
    svg_content ← _generate_svg_plot print_svg self curve_points extremes
                    current_time current_height predictions;
    mret (_save_svg_as_png self svg_content fs).

(** Returns the boolean of the source and the file system it leaves. *)
Definition generate_tide_plot (self : plot_manager) (tide_data : dict)
    (current_time : option instant) (fs : filesystem) : bool * filesystem :=
  if negb (truthy (VDict tide_data)) then (false, fs)
  else
    let current_time := from_option id now current_time in
    match generate_try self tide_data current_time fs with
    | Ok r => r
    | Raise _ => (false, fs)
    end.

End Generate.

(** ** Reference definitions for the statements below *)

(** What the curve synthesizer is meant to emit for one interval: the left
    point, then the five eased points. *)
Definition segment (p1 p2 : prediction) : list prediction :=
  p1 :: (interp_point p1 (td_total_seconds (time p2 - time p1))
           (height p2 - height p1)%Q <$> [1; 2; 3; 4; 5]).

(** All intervals of a sorted series, without the closing point. *)
Fixpoint segments (l : list prediction) : list prediction :=
  match l with
  | p1 :: (p2 :: _) as l' => segment p1 p2 ++ segments l'
  | _ => []
  end.

(** The same intervals in the arithmetic of doubles. *)
Definition segment_f64 (p1 p2 : prediction) : list prediction :=
  p1 :: (interp_point_f64 p1 (td_total_seconds_f64 (time p2 - time p1))
           (fsub (height p2) (height p1)) <$> [1; 2; 3; 4; 5]).

Fixpoint segments_f64 (l : list prediction) : list prediction :=
  match l with
  | p1 :: (p2 :: _) as l' => segment_f64 p1 p2 ++ segments_f64 l'
  | _ => []
  end.

(** The ascending order the interpolator expects. *)
Definition ascending (predictions : list prediction) : Prop :=
  StronglySorted Z.le (time <$> predictions).

(** [i] is a bracket of [q]: [time[i] <= q <= time[i+1]]. *)
Definition bracket (predictions : list prediction) (q : instant) (i : nat) : Prop :=
  ∃ p1 p2, predictions !! i = Some p1 ∧ predictions !! S i = Some p2
           ∧ time p1 <= q <= time p2.

Section EntrySpec.

Variable strptime : string → option instant.
Variable float_of_str : string → option Q.
Variable str_of : value → string.

(** The prediction a raw entry stands for, if it is a valid one: date and
    time present and parsed together, height numeric (or absent). *)
Definition parse_entry (d : dict) : option value :=
  fecha ← dict_get d "fecha";
  hora ← dict_get d "hora";
  if truthy fecha && truthy hora then
    dt ← strptime (py_format str_of fecha +:+ " " +:+ py_format str_of hora);
    match py_float float_of_str (from_option id (VInt 0) (dict_get d "altura")) with
    | Ok h => Some (VDict [("time", VDatetime dt); ("height", VFloat h)])
    | Raise _ => None
    end
  else None.

Definition parse_value (entry : value) : option value :=
  match entry with
  | VDict d => parse_entry d
  | _ => None
  end.

(** A raw entry the per-entry [try] can handle: a dictionary whose height,
    when an integer, fits a float. *)
Definition entry_ok (entry : value) : bool :=
  match entry with
  | VDict d =>
      match dict_get d "altura" with
      | Some (VInt n) => Z.abs n <? float_overflow
      | _ => true
      end
  | _ => false
  end.

End EntrySpec.

(** ** Fixtures for the concrete evaluations

    The answers of the library on the strings the examples use: instants are
    microseconds since 1970-01-01 00:00:00. *)
Definition fixture_strptime (s : string) : option instant :=
  if String.eqb s "2024-01-01 08:00:00" then Some 1704096000000000
  else if String.eqb s "2024-01-01 14:00:00" then Some 1704117600000000
  else if String.eqb s "2024-01-01 20:00:00" then Some 1704139200000000
  else None.

Definition fixture_float (s : string) : option Q :=
  if String.eqb s "0.5" then Some (1 # 2)
  else if String.eqb s "3.25" then Some (13 # 4)
  else None.

(** No example formats an object that is not a string. *)
Definition fixture_str (v : value) : string := "<object>".

Definition fixture_print (parts : list svg_part) : string := "<svg>...</svg>".

(** A time [s] seconds after the epoch. *)
Definition seconds (s : Z) : instant := s * 1000000.

Definition empty_disk : filesystem := {| files := ∅; denied := ∅ |}.

(** The series of the examples. *)
Definition flat_run : list prediction :=
  [Prediction (seconds 0) 1; Prediction (seconds 1) 1; Prediction (seconds 2) 1].

Definition rise_fall : list prediction :=
  [Prediction (seconds 0) 1; Prediction (seconds 1) 3; Prediction (seconds 2) 5;
   Prediction (seconds 3) 3; Prediction (seconds 4) 1].

Definition two_points : list prediction :=
  [Prediction (seconds 0) 1; Prediction (seconds 10) 3].

Definition swapped_points : list prediction :=
  [Prediction (seconds 10) 3; Prediction (seconds 0) 1].

Definition three_points : list prediction :=
  [Prediction (seconds 12) 7; Prediction (seconds 0) 1; Prediction (seconds 6) 7].

(** A renderer writing to [tide.png], and payloads for it. *)
Definition harbour : plot_manager := PlotManager "Harbour" "tide.png" false false.

Definition single_point_payload : dict :=
  [("tide_points", VList [prediction_dict (seconds 0) 1])].

Definition daily_none_payload : dict := [("daily", VNone)].

Definition entry_valid : dict :=
  [("fecha", VStr "2024-01-01"); ("hora", VStr "08:00:00"); ("altura", VStr "0.5")].
Definition entry_bad_time : dict :=
  [("fecha", VStr "2024-01-01"); ("hora", VStr "25:61"); ("altura", VStr "3.25")].
Definition entry_bad_height : dict :=
  [("fecha", VStr "2024-01-01"); ("hora", VStr "14:00:00"); ("altura", VStr "high")].
Definition entry_no_height : dict :=
  [("fecha", VStr "2024-01-01"); ("hora", VStr "20:00:00")].

Definition raw_payload (entries : list value) : dict :=
  [("daily", VDict [("mareas", VDict [("prediccion", VList entries)])])].

Definition mixed_payload : dict :=
  raw_payload [VDict entry_valid; VDict entry_bad_time; VDict entry_bad_height;
               VDict entry_no_height].

(** ** Reference definitions for the further properties *)

(** The point an extreme record was made from. *)
Definition extreme_point (e : extreme) : prediction :=
  Prediction (etime e) (eheight e).

(** The tag the [if ... elif ...] of the detector gives to a height between
    its two neighbours, if any. *)
Definition tag_of (prev_height curr_height next_height : Q) : option tide_type :=
  if ge_float curr_height prev_height && ge_float curr_height next_height
  then Some high
  else if le_float curr_height prev_height && le_float curr_height next_height
  then Some low
  else None.

(** Record [e] is what the detector makes of the point at index [i]: the
    point's time and height, tagged [high] when the height is at least both
    neighbour heights, and [low] when it is at most both and below one. *)
Definition tagged_at (ps : list prediction) (i : nat) (e : extreme) : Prop :=
  ∃ p prev next,
    ps !! i = Some p
    ∧ neighbour_heights ps i = Ok (prev, height p, next)
    ∧ etime e = time p ∧ eheight e = height p
    ∧ match etype e with
      | high => (prev <= height p)%Q ∧ (next <= height p)%Q
      | low => (height p <= prev)%Q ∧ (height p <= next)%Q
               ∧ ((height p < prev)%Q ∨ (height p < next)%Q)
      end.

(** The time and the height an axis tick is labelled with. *)
Definition tick_time (part : svg_part) : option instant :=
  match part with
  | SvgTimeTick _ _ _ t => Some t
  | _ => None
  end.

Definition tick_height (part : svg_part) : option Q :=
  match part with
  | SvgHeightTick _ _ _ h => Some h
  | _ => None
  end.

(** Further series and payloads of the examples. *)
Definition rising : list prediction :=
  [Prediction (seconds 0) 1; Prediction (seconds 1) 2; Prediction (seconds 2) 3;
   Prediction (seconds 3) 4].

Definition zigzag : list prediction :=
  [Prediction (seconds 0) 1; Prediction (seconds 20) 5; Prediction (seconds 10) 3].

Definition two_point_payload : dict :=
  [("tide_points", VList [prediction_dict (seconds 0) 1; prediction_dict (seconds 10) 3])].

Definition flat_payload : dict :=
  [("tide_points", VList [prediction_dict (seconds 0) 2; prediction_dict (seconds 10) 2])].

(** * Properties *)

(** ** Indexing and ranges *)

Lemma py_index_lookup {A} (l : list A) i a : l !! i = Some a → py_index l i = Ok a.
Proof. unfold py_index. intros ->. reflexivity. Qed.

Lemma py_index_lt {A} (l : list A) i :
  (i < length l)%nat → ∃ a, l !! i = Some a ∧ py_index l i = Ok a.
Proof.
  intros Hi. destruct (lookup_lt_is_Some_2 l i Hi) as [a Ha].
  exists a. split; [done | by apply py_index_lookup].
Qed.

Lemma seq_split_at i n :
  (i < n)%nat → seq 0 n = seq 0 i ++ i :: seq (S i) (n - S i).
Proof.
  intros Hi. replace n with (i + S (n - S i))%nat at 1 by lia.
  by rewrite seq_app.
Qed.

(** ** Binary64 rounding *)

Lemma round_half_even_integer q d : (q == inject_Z d)%Q → round_half_even q = d.
Proof.
  intros Hq. unfold round_half_even.
  rewrite (Qfloor_comp _ _ Hq), Qfloor_Z.
  assert (Hlt : (q - inject_Z d < 1 # 2)%Q) by (rewrite Hq; ring_simplify; reflexivity).
  pose proof (proj1 (Qlt_alt _ _) Hlt) as Hc. by rewrite Hc.
Qed.

Lemma round_half_even_mono q q' :
  (q <= q')%Q → round_half_even q <= round_half_even q'.
Proof.
  intros Hle. unfold round_half_even.
  pose proof (Qfloor_resp_le _ _ Hle) as Hf.
  destruct (Qcompare_spec (q - inject_Z (Qfloor q)) (1 # 2)) as [E | E | E];
    destruct (Qcompare_spec (q' - inject_Z (Qfloor q')) (1 # 2)) as [E' | E' | E'];
    repeat match goal with |- context [Z.even ?x] => destruct (Z.even x) eqn:? end;
    try lia.
  all: destruct (Z.eq_dec (Qfloor q) (Qfloor q')) as [Heq | Hne]; [| lia].
  all: try (rewrite Heq in *; congruence).
  all: exfalso; rewrite Heq in E; lra.
Qed.

Lemma pow2_pos e : (0 < 2 ^ e)%Q.
Proof. by apply Qpower_0_lt. Qed.

Lemma pow2_succ e : (2 ^ (e + 1) == 2 * 2 ^ e)%Q.
Proof. rewrite Qpower_plus by done. simpl. ring. Qed.

Lemma pow2_inject e : 0 <= e → (inject_Z (2 ^ e) == 2 ^ e)%Q.
Proof. intros He. by rewrite Zpower_Qpower. Qed.

(** [binade] is the exponent of the power of two below a positive
    rational. *)
Lemma binade_spec a : (0 < a)%Q → (2 ^ binade a <= a ∧ a < 2 ^ (binade a + 1))%Q.
Proof.
  intros Ha. destruct a as [n d]. unfold binade. cbn [Qnum Qden].
  assert (Hn : 0 < n) by (unfold Qlt in Ha; simpl in Ha; lia).
  set (ln := Z.log2 n). set (ld := Z.log2 (Z.pos d)).
  destruct (Z.log2_spec n Hn) as [Hn1 Hn2]. fold ln in Hn1, Hn2.
  destruct (Z.log2_spec (Z.pos d) ltac:(lia)) as [Hd1 Hd2]. fold ld in Hd1, Hd2.
  assert (Hln : 0 <= ln) by apply Z.log2_nonneg.
  assert (Hld : 0 <= ld) by apply Z.log2_nonneg.
  assert (Qn1 : (2 ^ ln <= inject_Z n)%Q).
  { rewrite <- pow2_inject by done. by rewrite <- Zle_Qle. }
  assert (Qn2 : (inject_Z n < 2 * 2 ^ ln)%Q).
  { rewrite <- pow2_succ, <- pow2_inject by lia. rewrite <- Zlt_Qlt.
    by replace (ln + 1) with (Z.succ ln) by lia. }
  assert (Qd1 : (2 ^ ld <= inject_Z (Z.pos d))%Q).
  { rewrite <- pow2_inject by done. by rewrite <- Zle_Qle. }
  assert (Qd2 : (inject_Z (Z.pos d) < 2 * 2 ^ ld)%Q).
  { rewrite <- pow2_succ, <- pow2_inject by lia. rewrite <- Zlt_Qlt.
    by replace (ld + 1) with (Z.succ ld) by lia. }
  assert (He : (2 ^ (ln - ld) * 2 ^ ld == 2 ^ ln)%Q).
  { rewrite <- Qpower_plus by done. by replace (ln - ld + ld) with ln by lia. }
  assert (Hq : ((n # d) * inject_Z (Z.pos d) == inject_Z n)%Q).
  { rewrite (Qmake_Qdiv n d). field. discriminate. }
  pose proof (pow2_pos ln) as Pn. pose proof (pow2_pos ld) as Pd.
  pose proof (pow2_pos (ln - ld)) as Pe.
  set (x := (n # d)%Q) in *. set (N := (2 ^ ln)%Q) in *. set (D := (2 ^ ld)%Q) in *.
  set (dd := inject_Z (Z.pos d)) in *. set (nn := inject_Z n) in *.
  destruct (Qle_bool (2 ^ (ln - ld)) x) eqn:Et.
  - apply Qle_bool_iff in Et. split; [done |].
    rewrite pow2_succ. set (E := (2 ^ (ln - ld))%Q) in *.
    apply Qnot_le_lt. intros Hc. nra.
  - assert (Hlt : (x < 2 ^ (ln - ld))%Q).
    { apply Qnot_le_lt. intros Hc. apply Qle_bool_iff in Hc. congruence. }
    replace (ln - ld - 1 + 1) with (ln - ld) by lia. split; [| done].
    assert (Hh : (2 * 2 ^ (ln - ld - 1) == 2 ^ (ln - ld))%Q).
    { rewrite <- pow2_succ. by replace (ln - ld - 1 + 1) with (ln - ld) by lia. }
    pose proof (pow2_pos (ln - ld - 1)) as Ph.
    set (E := (2 ^ (ln - ld))%Q) in *. set (H := (2 ^ (ln - ld - 1))%Q) in *.
    apply Qnot_lt_le. intros Hc. nra.
Qed.

Lemma binade_mono a b : (0 < a)%Q → (a <= b)%Q → binade a <= binade b.
Proof.
  intros Ha Hab.
  destruct (binade_spec a Ha) as [Hl _].
  destruct (binade_spec b ltac:(lra)) as [_ Hu].
  assert (Hlt : (2 ^ binade a < 2 ^ (binade b + 1))%Q) by lra.
  apply Qpower_lt_compat_l_inv in Hlt; [lia | reflexivity].
Qed.

Lemma ulp_pos q : (0 < ulp q)%Q.
Proof. apply pow2_pos. Qed.

Lemma round_half_even_nonneg x : (0 <= x)%Q → 0 <= round_half_even x.
Proof.
  intros Hx. change 0 with (round_half_even 0) at 1.
  by apply round_half_even_mono.
Qed.

(** The rounding of the magnitude. *)
Lemma round64_unfold q :
  (round64 q
   == inject_Z (Z.sgn (Qnum q)) * (inject_Z (round_half_even (Qabs q / ulp q)) * ulp q))%Q.
Proof.
  unfold round64. rewrite Qred_correct, inject_Z_mult. ring.
Qed.

Lemma magnitude_nonneg q :
  (0 <= inject_Z (round_half_even (Qabs q / ulp q)) * ulp q)%Q.
Proof.
  apply Qmult_le_0_compat; [| apply Qlt_le_weak, ulp_pos].
  change 0%Q with (inject_Z 0). rewrite <- Zle_Qle.
  apply round_half_even_nonneg.
  apply Qle_shift_div_l; [apply ulp_pos |]. rewrite Qmult_0_l. apply Qabs_nonneg.
Qed.

Lemma round64_nonneg q : (0 <= q)%Q → (0 <= round64 q)%Q.
Proof.
  intros Hq. rewrite round64_unfold.
  apply Qmult_le_0_compat; [| apply magnitude_nonneg].
  change 0%Q with (inject_Z 0). rewrite <- Zle_Qle.
  unfold Qle in Hq. simpl in Hq. lia.
Qed.

Lemma round64_nonpos q : (q <= 0)%Q → (round64 q <= 0)%Q.
Proof.
  intros Hq. rewrite round64_unfold.
  pose proof (magnitude_nonneg q) as Hm.
  assert (Hs : (inject_Z (Z.sgn (Qnum q)) <= 0)%Q).
  { change 0%Q with (inject_Z 0). rewrite <- Zle_Qle.
    unfold Qle in Hq. simpl in Hq. lia. }
  nra.
Qed.

Lemma round64_opp q : (round64 (- q) == - round64 q)%Q.
Proof.
  rewrite !round64_unfold.
  assert (Ha : Qabs (- q) = Qabs q).
  { destruct q as [n d]. unfold Qabs, Qopp. simpl. by rewrite Z.abs_opp. }
  unfold ulp. rewrite Ha. cbn [Qopp Qnum].
  rewrite Z.sgn_opp, inject_Z_opp. ring.
Qed.

Lemma round64_positive q :
  (0 < q)%Q →
  (round64 q == inject_Z (round_half_even (q / 2 ^ Z.max (binade q - 52) (-1074)))
                * 2 ^ Z.max (binade q - 52) (-1074))%Q.
Proof.
  intros Hq. rewrite round64_unfold. unfold ulp.
  assert (Ha : Qabs q = q).
  { destruct q as [n d]. unfold Qabs. simpl.
    unfold Qlt in Hq. simpl in Hq. by rewrite Z.abs_eq by lia. }
  rewrite Ha.
  assert (Hs : Z.sgn (Qnum q) = 1).
  { unfold Qlt in Hq. simpl in Hq. lia. }
  rewrite Hs. ring.
Qed.

(** Rounding keeps the order. *)
Lemma round64_mono_positive a b :
  (0 < a)%Q → (a <= b)%Q → (round64 a <= round64 b)%Q.
Proof.
  intros Ha Hab. assert (Hb : (0 < b)%Q) by lra.
  rewrite (round64_positive a Ha), (round64_positive b Hb).
  pose proof (binade_mono a b Ha Hab) as Hbin.
  set (ea := Z.max (binade a - 52) (-1074)).
  set (eb := Z.max (binade b - 52) (-1074)).
  pose proof (pow2_pos ea) as Pa. pose proof (pow2_pos eb) as Pb.
  destruct (Z.eq_dec ea eb) as [Heq | Hne].
  - rewrite <- Heq.
    assert (Hr : round_half_even (a / 2 ^ ea) <= round_half_even (b / 2 ^ ea)).
    { apply round_half_even_mono.
      apply Qmult_le_compat_r; [done |]. apply Qinv_le_0_compat. lra. }
    rewrite Zle_Qle in Hr. nra.
  - assert (Hlt : ea < eb) by lia.
    assert (Eb : eb = binade b - 52) by lia.
    assert (Hba : binade a + 1 <= binade b) by lia.
    destruct (binade_spec a Ha) as [_ Hau].
    destruct (binade_spec b Hb) as [Hbl _].
    assert (Hat : (a <= 2 ^ binade b)%Q).
    { apply Qlt_le_weak. eapply Qlt_le_trans; [exact Hau |].
      by apply Qpower_le_compat_l. }
    apply Qle_trans with (2 ^ binade b)%Q.
    + assert (Hk : 0 <= binade b - ea) by lia.
      assert (Hsplit : (2 ^ binade b == inject_Z (2 ^ (binade b - ea)) * 2 ^ ea)%Q).
      { rewrite pow2_inject by done. rewrite <- Qpower_plus by done.
        by replace (binade b - ea + ea) with (binade b) by lia. }
      assert (Hr : round_half_even (a / 2 ^ ea) <= 2 ^ (binade b - ea)).
      { rewrite <- (round_half_even_integer (inject_Z (2 ^ (binade b - ea))) (2 ^ (binade b - ea)))
          by reflexivity.
        apply round_half_even_mono.
        apply Qle_shift_div_r; [done |]. by rewrite <- Hsplit. }
      rewrite Zle_Qle in Hr. rewrite Hsplit. nra.
    + assert (Hsplit : (2 ^ binade b == inject_Z (2 ^ 52) * 2 ^ eb)%Q).
      { rewrite pow2_inject by lia. rewrite <- Qpower_plus by done.
        by replace (52 + eb) with (binade b) by lia. }
      assert (Hr : 2 ^ 52 <= round_half_even (b / 2 ^ eb)).
      { rewrite <- (round_half_even_integer (inject_Z (2 ^ 52)) (2 ^ 52)) at 1
          by reflexivity.
        apply round_half_even_mono.
        apply Qle_shift_div_l; [done |]. by rewrite <- Hsplit. }
      rewrite Zle_Qle in Hr. rewrite Hsplit. nra.
Qed.

Lemma round64_mono q q' : (q <= q')%Q → (round64 q <= round64 q')%Q.
Proof.
  intros Hle.
  destruct (Qlt_le_dec 0 q) as [Hq | Hq].
  { by apply round64_mono_positive. }
  destruct (Qlt_le_dec q' 0) as [Hq' | Hq'].
  - assert (H : (round64 (- q') <= round64 (- q))%Q).
    { apply round64_mono_positive; lra. }
    rewrite !round64_opp in H. lra.
  - apply Qle_trans with 0%Q; [by apply round64_nonpos | by apply round64_nonneg].
Qed.

#[local] Instance round64_proper : Proper (Qeq ==> Qeq) round64.
Proof.
  intros q q' Hq. apply Qle_antisym; apply round64_mono; lra.
Qed.

Lemma round_half_even_close y :
  (- (1 # 2) <= inject_Z (round_half_even y) - y <= 1 # 2)%Q.
Proof.
  unfold round_half_even.
  pose proof (Qfloor_le y) as Hl. pose proof (Qlt_floor y) as Hu.
  rewrite inject_Z_plus in Hu. change (inject_Z 1) with 1%Q in Hu.
  destruct (Qcompare_spec (y - inject_Z (Qfloor y)) (1 # 2)) as [E | E | E].
  - destruct (Z.even (Qfloor y)); rewrite ?inject_Z_plus; change (inject_Z 1) with 1%Q; lra.
  - lra.
  - rewrite inject_Z_plus. change (inject_Z 1) with 1%Q. lra.
Qed.

(** Rounding moves a number by at most half the spacing of the doubles
    around it: a relative error of [2^-53], or [2^-1075] among the
    subnormal numbers. *)
Lemma round64_error_positive x :
  (0 < x)%Q →
  (- (x * 2 ^ (-53) + 2 ^ (-1075)) <= round64 x - x <= x * 2 ^ (-53) + 2 ^ (-1075))%Q.
Proof.
  intros Hx. rewrite (round64_positive x Hx).
  set (E := Z.max (binade x - 52) (-1074)).
  pose proof (pow2_pos E) as PE.
  pose proof (round_half_even_close (x / 2 ^ E)) as Hc.
  assert (Hx' : (x / 2 ^ E * 2 ^ E == x)%Q) by (field; lra).
  set (m := inject_Z (round_half_even (x / 2 ^ E))) in *.
  set (y := (x / 2 ^ E)%Q) in *.
  assert (Hhalf : (2 ^ E * (1 # 2) <= x * 2 ^ (-53) + 2 ^ (-1075))%Q).
  { pose proof (pow2_pos (-53)) as P53. pose proof (pow2_pos (-1075)) as P1075.
    destruct (binade_spec x Hx) as [Hb _].
    destruct (Z.max_spec (binade x - 52) (-1074)) as [[_ Hm] | [_ Hm]]; fold E in Hm.
    - assert (H1 : (2 ^ E * (1 # 2) == 2 ^ (-1075))%Q).
      { rewrite Hm. replace (-1074) with (-1075 + 1) by lia. rewrite pow2_succ. ring. }
      rewrite H1. nra.
    - assert (H1 : (2 ^ E * (1 # 2) == 2 ^ binade x * 2 ^ (-53))%Q).
      { rewrite Hm. replace (binade x - 52) with (binade x + -53 + 1) by lia.
        rewrite pow2_succ, Qpower_plus by done. ring. }
      rewrite H1. nra. }
  set (U := (2 ^ E)%Q) in *. set (B := (x * 2 ^ (-53) + 2 ^ (-1075))%Q) in *.
  split; nra.
Qed.

Lemma round64_zero x : (x == 0)%Q → (round64 x == 0)%Q.
Proof.
  intros Hx. apply Qle_antisym; [apply round64_nonpos | apply round64_nonneg]; lra.
Qed.

Lemma round64_error x :
  (Qabs (round64 x - x) <= Qabs x * 2 ^ (-53) + 2 ^ (-1075))%Q.
Proof.
  pose proof (pow2_pos (-53)) as P53. pose proof (pow2_pos (-1075)) as P1075.
  apply Qabs_Qle_condition.
  destruct (Q_dec 0 x) as [[Hx | Hx] | Hx].
  - rewrite (Qabs_pos x) by lra. by apply round64_error_positive.
  - rewrite (Qabs_neg x) by lra.
    pose proof (round64_error_positive (- x) ltac:(lra)) as H.
    rewrite round64_opp in H. lra.
  - rewrite (Qabs_pos x) by lra. rewrite (round64_zero x) by lra. lra.
Qed.

(** ** The extremum detector *)

(** Inside a series of two or more points every index has its three heights. *)
Lemma neighbour_heights_ok ps i :
  (2 ≤ length ps)%nat → (i < length ps)%nat →
  ∃ prev curr next p, ps !! i = Some p ∧ curr = height p
    ∧ neighbour_heights ps i = Ok (prev, curr, next).
Proof.
  intros Hn Hi. unfold neighbour_heights.
  destruct (py_index_lt ps i Hi) as (p & Hp & Ep).
  destruct (decide (i = 0)%nat) as [-> | Hi0].
  - destruct (py_index_lt ps (0 + 1)) as (n & _ & En); [lia |].
    rewrite Ep, En. simpl. eauto 10.
  - destruct (py_index_lt ps (i - 1)) as (q & _ & Eq); [lia |].
    destruct (decide (i = length ps - 1)%nat) as [Hl | Hl].
    + rewrite Eq, Ep. simpl. eauto 10.
    + destruct (py_index_lt ps (i + 1)) as (n & _ & En); [lia |].
      rewrite Eq, Ep, En. simpl. eauto 10.
Qed.

(** An iteration appends at most one record. *)
Lemma extremes_step_ok ps i :
  (2 ≤ length ps)%nat → (i < length ps)%nat →
  ∃ out, (length out ≤ 1)%nat ∧ ∀ acc, extremes_step ps i acc = Ok (acc ++ out).
Proof.
  intros Hn Hi.
  destruct (neighbour_heights_ok ps i Hn Hi) as (prev & curr & next & p & Hp & -> & E).
  unfold extremes_step. rewrite E. simpl.
  rewrite (py_index_lookup _ _ _ Hp).
  destruct (ge_float (height p) prev && ge_float (height p) next).
  - eexists [_]. split; [simpl; lia | reflexivity].
  - destruct (le_float (height p) prev && le_float (height p) next).
    + eexists [_]. split; [simpl; lia | reflexivity].
    + exists []. split; [simpl; lia |]. intros acc. simpl. by rewrite app_nil_r.
Qed.

Lemma extremes_loop_ok ps range :
  (2 ≤ length ps)%nat → Forall (λ i, (i < length ps)%nat) range →
  ∃ out, (length out ≤ length range)%nat
         ∧ ∀ acc, extremes_loop ps range acc = Ok (acc ++ out).
Proof.
  intros Hn. induction 1 as [| i range Hi _ (out & Hlen & IH)].
  - exists []. split; [done |]. intros acc. simpl. by rewrite app_nil_r.
  - destruct (extremes_step_ok ps i Hn Hi) as (o1 & Hl1 & E1).
    exists (o1 ++ out). split; [rewrite length_app; simpl; lia |].
    intros acc. simpl. rewrite E1. simpl. rewrite IH. by rewrite app_assoc.
Qed.

Lemma extremes_loop_app ps r1 r2 acc :
  extremes_loop ps (r1 ++ r2) acc = extremes_loop ps r1 acc ≫= extremes_loop ps r2.
Proof.
  revert acc. induction r1 as [| i r1 IH]; intros acc; simpl; [done |].
  destruct (extremes_step ps i acc); simpl; [apply IH | done].
Qed.

(** The detector returns a list for every series. *)
Lemma find_extremes_total ps : ∃ out, _find_extremes ps = Ok out ∧ (length out ≤ length ps)%nat.
Proof.
  unfold _find_extremes. destruct (decide (length ps < 3)%nat).
  - exists []. split; [done | simpl; lia].
  - destruct (extremes_loop_ok ps (seq 0 (length ps))) as (out & Hlen & E); [lia | |].
    + apply Forall_forall. intros j Hj%elem_of_seq. lia.
    + exists out. rewrite length_seq in Hlen. split; [apply (E []) | done].
Qed.

(** C1, as amended: in a series of at least three points, a point whose height
    equals both of its boundary-adjusted neighbours is emitted once, tagged
    [high].  Its iteration appends that single record (the [elif] for [low] is
    not reached), and the result of [_find_extremes] is what the earlier
    indices emitted, then that record, then what the later indices emit. *)
Theorem flat_point_tagged_high_once (ps : list prediction) (i : nat) (prev curr next : Q) :
  (3 ≤ length ps)%nat →
  (i < length ps)%nat →
  neighbour_heights ps i = Ok (prev, curr, next) →
  (prev == curr)%Q → (next == curr)%Q →
  ∃ p before after,
    ps !! i = Some p ∧ curr = height p
    ∧ extremes_loop ps (seq 0 i) [] = Ok before
    ∧ (∀ acc, extremes_step ps i acc = Ok (acc ++ [Extreme (time p) curr high]))
    ∧ (∀ acc, extremes_loop ps (seq (S i) (length ps - S i)) acc = Ok (acc ++ after))
    ∧ _find_extremes ps = Ok (before ++ [Extreme (time p) curr high] ++ after).
Proof.
  intros Hn Hi E Hprev Hnext.
  destruct (neighbour_heights_ok ps i) as (prev' & curr' & next' & p & Hp & Hc & E');
    [lia | done |].
  rewrite E in E'. injection E' as <- <- <-.
  destruct (extremes_loop_ok ps (seq 0 i)) as (before & _ & Hb); [lia | |].
  { apply Forall_forall. intros j Hj%elem_of_seq. lia. }
  destruct (extremes_loop_ok ps (seq (S i) (length ps - S i))) as (after & _ & Ha); [lia | |].
  { apply Forall_forall. intros j Hj%elem_of_seq. lia. }
  assert (Hstep : ∀ acc, extremes_step ps i acc = Ok (acc ++ [Extreme (time p) curr high])).
  { intros acc. unfold extremes_step. rewrite E. simpl.
    unfold ge_float.
    assert (Qle_bool prev curr = true) as -> by (apply Qle_bool_iff; rewrite Hprev; apply Qle_refl).
    assert (Qle_bool next curr = true) as -> by (apply Qle_bool_iff; rewrite Hnext; apply Qle_refl).
    simpl. by rewrite (py_index_lookup _ _ _ Hp). }
  exists p, before, after.
  split; [done |]. split; [done |]. split; [apply (Hb []) |].
  split; [done |]. split; [done |].
  unfold _find_extremes. destruct (decide (length ps < 3)%nat); [lia |].
  rewrite (seq_split_at i (length ps) Hi).
  rewrite (extremes_loop_app ps (seq 0 i) (i :: _)). rewrite (Hb []). simpl.
  rewrite Hstep. simpl. rewrite Ha. by rewrite <- app_assoc.
Qed.

(** The middle point of the flat run [1, 1, 1]. *)
Lemma flat_point_witness :
  ∃ before after,
    _find_extremes flat_run = Ok (before ++ [Extreme (seconds 1) 1 high] ++ after).
Proof.
  destruct (flat_point_tagged_high_once flat_run 1 1 1 1) as (p & b & a & Hp & _ & _ & _ & _ & H).
  - simpl; lia.
  - simpl; lia.
  - reflexivity.
  - reflexivity.
  - reflexivity.
  - injection Hp as <-. exists b, a. exact H.
Defined.

(** C1 as stated fails on the flat run [1, 1, 1]: each of the three points
    equals both neighbours, and the detector emits three records, all tagged
    [high] and none tagged [low], where the statement asks for six. *)
Lemma flat_run_tagged_high_only :
  _find_extremes flat_run
  = Ok [Extreme (seconds 0) 1 high; Extreme (seconds 1) 1 high;
        Extreme (seconds 2) 1 high].
Proof. reflexivity. Qed.

(** C2, as amended: on heights [1, 3, 5, 3, 1] the detector tags three
    points: the interior peak as [high], and both boundary points as [low],
    each compared with itself on its open side. *)
Theorem rise_fall_extremes (t0 t1 t2 t3 t4 : instant) :
  _find_extremes [Prediction t0 1; Prediction t1 3; Prediction t2 5; Prediction t3 3; Prediction t4 1]
  = Ok [Extreme t0 1 low; Extreme t2 5 high; Extreme t4 1 low].
Proof. reflexivity. Qed.

(** C2 as stated fails: the result is not the single peak, the first point is
    tagged. *)
Lemma rise_fall_boundaries_tagged :
  _find_extremes rise_fall ≠ Ok [Extreme (seconds 2) 5 high]
  ∧ ∃ out, _find_extremes rise_fall = Ok out ∧ Extreme (seconds 0) 1 low ∈ out.
Proof.
  split; [discriminate |].
  eexists. split; [reflexivity |]. apply list_elem_of_here.
Qed.

(** ** The instant interpolator *)

(** An index that is no bracket is passed over. *)
Lemma interpolate_loop_skip ps q r1 r2 :
  Forall (λ j, (S j < length ps)%nat ∧ ¬ bracket ps q j) r1 →
  interpolate_loop ps (r1 ++ r2) q = interpolate_loop ps r2 q.
Proof.
  induction 1 as [| j r1 [Hj Hnb] _ IH]; [done |].
  simpl. destruct (py_index_lt ps j) as (p1 & H1 & ->); [lia |].
  destruct (py_index_lt ps (j + 1)) as (p2 & H2 & ->); [lia |].
  simpl. replace (j + 1)%nat with (S j) in H2 by lia.
  destruct ((time p1 <=? q) && (q <=? time p2)) eqn:E; [| exact IH].
  exfalso. apply Hnb. exists p1, p2.
  apply andb_true_iff in E as [?%Z.leb_le ?%Z.leb_le]. auto.
Qed.

Lemma interpolate_loop_hit ps q i rest p1 p2 :
  ps !! i = Some p1 → ps !! S i = Some p2 → time p1 <= q <= time p2 →
  interpolate_loop ps (i :: rest) q = Ok (Some (interpolate_between p1 p2 q)).
Proof.
  intros H1 H2 [Ha Hb]. simpl.
  rewrite (py_index_lookup _ _ _ H1).
  replace (i + 1)%nat with (S i) by lia. rewrite (py_index_lookup _ _ _ H2). simpl.
  apply Z.leb_le in Ha, Hb. by rewrite Ha, Hb.
Qed.

Lemma td_total_seconds_zero d : Qeq_bool (td_total_seconds d) 0 = true ↔ d = 0.
Proof.
  unfold td_total_seconds. rewrite Qeq_bool_iff. unfold Qeq. simpl. lia.
Qed.

Lemma td_ratio a b :
  b ≠ 0 → (td_total_seconds a / td_total_seconds b == inject_Z a / inject_Z b)%Q.
Proof.
  intros Hb. unfold td_total_seconds.
  rewrite (Qmake_Qdiv a), (Qmake_Qdiv b). field.
  assert (¬ (inject_Z b == 0)%Q).
  { intros H. apply Hb. unfold Qeq in H. simpl in H. lia. }
  repeat split; try done.
Qed.

Lemma strongly_sorted_lookup (l : list Z) i j a b :
  StronglySorted Z.le l → (i < j)%nat → l !! i = Some a → l !! j = Some b → a <= b.
Proof.
  intros Hs. revert i j. induction Hs as [| x l _ IH Hx]; intros i j Hij Ha Hb.
  - by rewrite lookup_nil in Ha.
  - destruct j as [| j]; [lia |]. simpl in Hb. destruct i as [| i].
    + simpl in Ha. injection Ha as <-.
      rewrite Forall_forall in Hx. apply Hx. by eapply list_elem_of_lookup_2.
    + simpl in Ha. apply (IH i j); [lia | done | done].
Qed.

Lemma ascending_lookup ps i j a b :
  ascending ps → (i ≤ j)%nat → ps !! i = Some a → ps !! j = Some b →
  time a <= time b.
Proof.
  unfold ascending. intros Hs Hij Ha Hb.
  destruct (decide (i = j)) as [-> | Hne].
  { rewrite Ha in Hb. injection Hb as <-. lia. }
  apply (strongly_sorted_lookup (time <$> ps) i j); [done | lia | |].
  - by rewrite list_lookup_fmap, Ha.
  - by rewrite list_lookup_fmap, Hb.
Qed.

(** *** In the arithmetic of doubles *)

Lemma interpolate_loop_f64_skip ps q r1 r2 :
  Forall (λ j, (S j < length ps)%nat ∧ ¬ bracket ps q j) r1 →
  interpolate_loop_f64 ps (r1 ++ r2) q = interpolate_loop_f64 ps r2 q.
Proof.
  induction 1 as [| j r1 [Hj Hnb] _ IH]; [done |].
  simpl. destruct (py_index_lt ps j) as (p1 & H1 & ->); [lia |].
  destruct (py_index_lt ps (j + 1)) as (p2 & H2 & ->); [lia |].
  simpl. replace (j + 1)%nat with (S j) in H2 by lia.
  destruct ((time p1 <=? q) && (q <=? time p2)) eqn:E; [| exact IH].
  exfalso. apply Hnb. exists p1, p2.
  apply andb_true_iff in E as [?%Z.leb_le ?%Z.leb_le]. auto.
Qed.

Lemma interpolate_loop_f64_hit ps q i rest p1 p2 :
  ps !! i = Some p1 → ps !! S i = Some p2 → time p1 <= q <= time p2 →
  interpolate_loop_f64 ps (i :: rest) q = Ok (Some (interpolate_between_f64 p1 p2 q)).
Proof.
  intros H1 H2 [Ha Hb]. simpl.
  rewrite (py_index_lookup _ _ _ H1).
  replace (i + 1)%nat with (S i) by lia. rewrite (py_index_lookup _ _ _ H2). simpl.
  apply Z.leb_le in Ha, Hb. by rewrite Ha, Hb.
Qed.

(** The two models of the interpolator take the same branches: they raise
    together, return [None] together, and return a height at the same
    bracket. *)
Lemma interpolate_loop_models ps q range :
  match interpolate_loop ps range q, interpolate_loop_f64 ps range q with
  | Ok None, Ok None => True
  | Ok (Some h), Ok (Some h') =>
      ∃ p1 p2, h = interpolate_between p1 p2 q ∧ h' = interpolate_between_f64 p1 p2 q
  | Raise e, Raise e' => e = e'
  | _, _ => False
  end.
Proof.
  induction range as [| i range IH]; [done |].
  cbn [interpolate_loop interpolate_loop_f64].
  destruct (py_index ps i) as [p1 | e]; cbn [mbind result_bind]; [| done].
  destruct (py_index ps (i + 1)) as [p2 | e]; cbn [mbind result_bind]; [| done].
  destruct ((time p1 <=? q) && (q <=? time p2)); [| exact IH].
  cbn. by exists p1, p2.
Qed.

Lemma interpolate_models_agree ps q :
  _interpolate_current_height_f64 ps q = Ok None
  ↔ _interpolate_current_height ps q = Ok None.
Proof.
  unfold _interpolate_current_height_f64, _interpolate_current_height.
  destruct (decide (length ps < 2)%nat); [done |].
  pose proof (interpolate_loop_models ps q (seq 0 (length ps - 1))) as H.
  destruct (interpolate_loop ps _ q) as [[h |] | e],
           (interpolate_loop_f64 ps _ q) as [[h' |] | e']; try done.
Qed.

(** A duration is zero seconds only when it is zero microseconds: a
    microsecond is far above the smallest double. *)
Lemma td_total_seconds_f64_zero d :
  Qeq_bool (td_total_seconds_f64 d) 0 = true ↔ d = 0.
Proof.
  rewrite Qeq_bool_iff. unfold td_total_seconds_f64. split.
  - intros Hz. destruct (Z.lt_trichotomy d 0) as [Hd | [Hd | Hd]]; [| done |]; exfalso.
    + assert (Hle : (d # 1000000 <= -1 # 1000000)%Q) by (unfold Qle; simpl; lia).
      apply round64_mono in Hle. rewrite Hz in Hle.
      revert Hle. by vm_compute.
    + assert (Hle : (1 # 1000000 <= d # 1000000)%Q) by (unfold Qle; simpl; lia).
      apply round64_mono in Hle. rewrite Hz in Hle.
      revert Hle. by vm_compute.
  - intros ->. reflexivity.
Qed.

(** C7: on a series in ascending order the interpolator returns [None] for
    fewer than two points and for an instant before the first or after the
    last time; at the first bracket [t1 <= q <= t2] it returns
    [h1 + (h2 - h1) * ((q - t1) / (t2 - t1))], the two durations in seconds
    and every operation rounded to a double as the source computes it, and
    [h1] itself when the bracket has no duration. *)
Theorem interpolate_current_height_spec (ps : list prediction) (q : instant) :
  ascending ps →
  ((length ps < 2)%nat → _interpolate_current_height_f64 ps q = Ok None)
  ∧ (∀ first, head ps = Some first → q < time first →
       _interpolate_current_height_f64 ps q = Ok None)
  ∧ (∀ final, last ps = Some final → time final < q →
       _interpolate_current_height_f64 ps q = Ok None)
  ∧ (∀ i p1 p2,
       ps !! i = Some p1 → ps !! S i = Some p2 → time p1 <= q <= time p2 →
       (∀ j, (j < i)%nat → ¬ bracket ps q j) →
       (time p1 = time p2 →
        _interpolate_current_height_f64 ps q = Ok (Some (height p1)))
       ∧ (time p1 ≠ time p2 →
          _interpolate_current_height_f64 ps q
          = Ok (Some (fadd (height p1)
                        (fmul (fsub (height p2) (height p1))
                           (fdiv (td_total_seconds_f64 (q - time p1))
                                 (td_total_seconds_f64 (time p2 - time p1)))))))).
Proof.
  intros Hs.
  assert (Hnone : (∀ j, (S j < length ps)%nat → ¬ bracket ps q j) →
                  _interpolate_current_height_f64 ps q = Ok None).
  { intros Hnb. unfold _interpolate_current_height_f64.
    destruct (decide (length ps < 2)%nat); [done |].
    rewrite <- (app_nil_r (seq _ _)). rewrite interpolate_loop_f64_skip; [done |].
    apply Forall_forall. intros j Hj%elem_of_seq.
    split; [lia | apply Hnb; lia]. }
  split; [| split; [| split]].
  - intros Hlt. unfold _interpolate_current_height_f64.
    by destruct (decide (length ps < 2)%nat).
  - intros first Hf Hq. apply Hnone. intros j Hj (p1 & p2 & H1 & H2 & Hle & _).
    rewrite head_lookup in Hf.
    pose proof (ascending_lookup ps 0 j first p1 Hs ltac:(lia) Hf H1). lia.
  - intros final Hf Hq. apply Hnone. intros j Hj (p1 & p2 & H1 & H2 & _ & Hle).
    rewrite last_lookup in Hf.
    pose proof (ascending_lookup ps (S j) (Nat.pred (length ps)) p2 final Hs ltac:(lia) H2 Hf).
    lia.
  - intros i p1 p2 H1 H2 Hq Hfirst.
    assert (Hi : (S i < length ps)%nat) by (by eapply lookup_lt_Some).
    assert (E : _interpolate_current_height_f64 ps q
                = Ok (Some (interpolate_between_f64 p1 p2 q))).
    { unfold _interpolate_current_height_f64.
      destruct (decide (length ps < 2)%nat); [lia |].
      rewrite (seq_split_at i (length ps - 1)) by lia.
      rewrite interpolate_loop_f64_skip.
      - by apply interpolate_loop_f64_hit.
      - apply Forall_forall. intros j Hj%elem_of_seq.
        split; [lia | apply Hfirst; lia]. }
    rewrite E. unfold interpolate_between_f64. split.
    + intros Ht. replace (time p2 - time p1) with 0 by lia. reflexivity.
    + intros Ht.
      destruct (Qeq_bool (td_total_seconds_f64 (time p2 - time p1)) 0) eqn:Ez.
      { apply td_total_seconds_f64_zero in Ez. lia. }
      reflexivity.
Qed.

(** Between [(t=0, h=1)] and [(t=10, h=3)], the height at [t=5] is 2.0. *)
Lemma interpolate_midpoint_witness :
  ∃ h, _interpolate_current_height_f64 two_points (seconds 5) = Ok (Some h) ∧ (h == 2)%Q.
Proof.
  assert (Hs : ascending two_points).
  { unfold ascending, two_points, seconds. simpl.
    repeat constructor. lia. }
  destruct (interpolate_current_height_spec two_points (seconds 5) Hs)
    as (_ & _ & _ & H).
  destruct (H 0%nat (Prediction (seconds 0) 1) (Prediction (seconds 10) 3))
    as [_ Hne].
  - reflexivity.
  - reflexivity.
  - unfold seconds; simpl; lia.
  - intros j Hj. lia.
  - eexists. split.
    + apply Hne. unfold seconds; simpl; lia.
    + by vm_compute.
Defined.

(** The rounding shows at the end of a descending bracket: from 2.3 down to
    0.4 the height at the right end is 0.3999999999999999, the double below
    0.4. *)
Lemma interpolate_rounds_at_right_end :
  _interpolate_current_height_f64
    [Prediction (seconds 0) (round64 (23 # 10)); Prediction (seconds 10) (round64 (4 # 10))]
    (seconds 10)
  = Ok (Some (900719925474099 # 2251799813685248))
  ∧ round64 (4 # 10) = 3602879701896397 # 9007199254740992.
Proof. split; by vm_compute. Qed.

(** C5: the interpolator does not sort.  On the two predictions given latest
    first it finds no bracket for the instant between them, while on the same
    predictions in ascending order it returns the midpoint height. *)
Theorem interpolate_order_dependent :
  _interpolate_current_height swapped_points (seconds 5) = Ok None
  ∧ sorted_by_time swapped_points = two_points
  ∧ ∃ h, _interpolate_current_height (sorted_by_time swapped_points) (seconds 5)
         = Ok (Some h) ∧ (h == 2)%Q.
Proof.
  split; [reflexivity |]. split; [reflexivity |].
  eexists. split; [reflexivity |]. reflexivity.
Qed.

(** ** The curve synthesizer *)

(** *** The model of [sorted] *)

Lemma insert_by_time_perm p l : insert_by_time p l ≡ₚ p :: l.
Proof.
  induction l as [| q l IH]; simpl; [done |].
  destruct (time p <=? time q); [done |].
  rewrite IH. apply Permutation_swap.
Qed.

Lemma sorted_by_time_perm l : sorted_by_time l ≡ₚ l.
Proof.
  induction l as [| p l IH]; simpl; [done |].
  rewrite insert_by_time_perm. by rewrite IH.
Qed.

Lemma sorted_by_time_length l : length (sorted_by_time l) = length l.
Proof. by rewrite sorted_by_time_perm. Qed.

Lemma insert_by_time_ascending p l : ascending l → ascending (insert_by_time p l).
Proof.
  unfold ascending. induction l as [| q l IH]; simpl; intros Hs.
  - repeat constructor.
  - apply StronglySorted_inv in Hs as [Hs Hq].
    destruct (time p <=? time q) eqn:E; simpl.
    + apply Z.leb_le in E. constructor; [by constructor |].
      constructor; [done |]. eapply Forall_impl; [exact Hq |]. simpl. lia.
    + apply Z.leb_gt in E. constructor; [by apply IH |].
      assert (Hperm : time <$> insert_by_time p l ≡ₚ time p :: (time <$> l))
        by (by rewrite insert_by_time_perm).
      rewrite Hperm. constructor; [lia | done].
Qed.

Lemma sorted_by_time_ascending l : ascending (sorted_by_time l).
Proof.
  induction l as [| p l IH]; simpl; [constructor |].
  by apply insert_by_time_ascending.
Qed.

(** *** The loops emit [segments] *)

Lemma segments_cons p1 p2 rest :
  segments (p1 :: p2 :: rest) = segment p1 p2 ++ segments (p2 :: rest).
Proof. reflexivity. Qed.

Lemma smooth_inner_app p1 dt dh range acc :
  smooth_inner p1 dt dh range acc = acc ++ (interp_point p1 dt dh <$> range).
Proof.
  revert acc. induction range as [| j range IH]; intros acc; simpl.
  - by rewrite app_nil_r.
  - rewrite IH. by rewrite <- app_assoc.
Qed.

Lemma smooth_step_segment pre p1 p2 rest acc :
  smooth_step (pre ++ p1 :: p2 :: rest) (length pre) acc = Ok (acc ++ segment p1 p2).
Proof.
  unfold smooth_step.
  assert (H1 : (pre ++ p1 :: p2 :: rest) !! length pre = Some p1)
    by (by apply list_lookup_middle).
  assert (H2 : (pre ++ p1 :: p2 :: rest) !! (length pre + 1)%nat = Some p2).
  { rewrite (cons_middle p1), app_assoc.
    apply list_lookup_middle. rewrite length_app. simpl. lia. }
  rewrite (py_index_lookup _ _ p1 H1). cbn [mbind result_bind].
  rewrite (py_index_lookup _ _ p2 H2). cbn [mbind result_bind mret result_ret]. rewrite smooth_inner_app. unfold segment.
  by rewrite <- app_assoc.
Qed.

Lemma smooth_loop_segments l : ∀ pre acc,
  smooth_loop (pre ++ l) (seq (length pre) (length l - 1)) acc = Ok (acc ++ segments l).
Proof.
  induction l as [| p1 l IH]; intros pre acc.
  - simpl. by rewrite app_nil_r.
  - destruct l as [| p2 rest].
    + simpl. by rewrite app_nil_r.
    + replace (length (p1 :: p2 :: rest) - 1)%nat with (S (length (p2 :: rest) - 1))
        by (simpl; lia).
      rewrite <- cons_seq. cbn [smooth_loop].
      rewrite smooth_step_segment. cbn [mbind result_bind].
      specialize (IH (pre ++ [p1]) (acc ++ segment p1 p2)).
      rewrite <- app_assoc, length_app in IH.
      change ([p1] ++ p2 :: rest) with (p1 :: p2 :: rest) in IH.
      change (length [p1]) with 1%nat in IH.
      replace (length pre + 1)%nat with (S (length pre)) in IH by lia.
      rewrite IH, segments_cons. by rewrite <- app_assoc.
Qed.

Lemma smooth_curve_segments ps ct :
  (2 ≤ length ps)%nat →
  ∃ final, last (sorted_by_time ps) = Some final
    ∧ _generate_smooth_curve ps ct = Ok (segments (sorted_by_time ps) ++ [final]).
Proof.
  intros Hn. unfold _generate_smooth_curve.
  destruct (decide (length ps < 2)%nat); [lia |].
  pose proof (smooth_loop_segments (sorted_by_time ps) [] []) as E.
  simpl in E. rewrite E. simpl.
  destruct (last (sorted_by_time ps)) as [final |] eqn:El.
  - by exists final.
  - apply last_None in El. apply (f_equal length) in El.
    rewrite sorted_by_time_length in El. simpl in El. lia.
Qed.

(** *** Positions in [segments] *)

Lemma segment_length p1 p2 : length (segment p1 p2) = 6%nat.
Proof. reflexivity. Qed.

(** *** In the arithmetic of doubles *)

Lemma segments_cons_f64 p1 p2 rest :
  segments_f64 (p1 :: p2 :: rest) = segment_f64 p1 p2 ++ segments_f64 (p2 :: rest).
Proof. reflexivity. Qed.

Lemma smooth_inner_app_f64 p1 dt dh range acc :
  smooth_inner_f64 p1 dt dh range acc = acc ++ (interp_point_f64 p1 dt dh <$> range).
Proof.
  revert acc. induction range as [| j range IH]; intros acc; simpl.
  - by rewrite app_nil_r.
  - rewrite IH. by rewrite <- app_assoc.
Qed.

Lemma smooth_step_segment_f64 pre p1 p2 rest acc :
  smooth_step_f64 (pre ++ p1 :: p2 :: rest) (length pre) acc = Ok (acc ++ segment_f64 p1 p2).
Proof.
  unfold smooth_step_f64.
  assert (H1 : (pre ++ p1 :: p2 :: rest) !! length pre = Some p1)
    by (by apply list_lookup_middle).
  assert (H2 : (pre ++ p1 :: p2 :: rest) !! (length pre + 1)%nat = Some p2).
  { rewrite (cons_middle p1), app_assoc.
    apply list_lookup_middle. rewrite length_app. simpl. lia. }
  rewrite (py_index_lookup _ _ p1 H1). cbn [mbind result_bind].
  rewrite (py_index_lookup _ _ p2 H2). cbn [mbind result_bind mret result_ret]. rewrite smooth_inner_app_f64. unfold segment_f64.
  by rewrite <- app_assoc.
Qed.

Lemma smooth_loop_segments_f64 l : ∀ pre acc,
  smooth_loop_f64 (pre ++ l) (seq (length pre) (length l - 1)) acc = Ok (acc ++ segments_f64 l).
Proof.
  induction l as [| p1 l IH]; intros pre acc.
  - simpl. by rewrite app_nil_r.
  - destruct l as [| p2 rest].
    + simpl. by rewrite app_nil_r.
    + replace (length (p1 :: p2 :: rest) - 1)%nat with (S (length (p2 :: rest) - 1))
        by (simpl; lia).
      rewrite <- cons_seq. cbn [smooth_loop_f64].
      rewrite smooth_step_segment_f64. cbn [mbind result_bind].
      specialize (IH (pre ++ [p1]) (acc ++ segment_f64 p1 p2)).
      rewrite <- app_assoc, length_app in IH.
      change ([p1] ++ p2 :: rest) with (p1 :: p2 :: rest) in IH.
      change (length [p1]) with 1%nat in IH.
      replace (length pre + 1)%nat with (S (length pre)) in IH by lia.
      rewrite IH, segments_cons_f64. by rewrite <- app_assoc.
Qed.

Lemma smooth_curve_segments_f64 ps ct :
  (2 ≤ length ps)%nat →
  ∃ final, last (sorted_by_time ps) = Some final
    ∧ _generate_smooth_curve_f64 ps ct = Ok (segments_f64 (sorted_by_time ps) ++ [final]).
Proof.
  intros Hn. unfold _generate_smooth_curve_f64.
  destruct (decide (length ps < 2)%nat); [lia |].
  pose proof (smooth_loop_segments_f64 (sorted_by_time ps) [] []) as E.
  simpl in E. rewrite E. simpl.
  destruct (last (sorted_by_time ps)) as [final |] eqn:El.
  - by exists final.
  - apply last_None in El. apply (f_equal length) in El.
    rewrite sorted_by_time_length in El. simpl in El. lia.
Qed.

Lemma segment_length_f64 p1 p2 : length (segment_f64 p1 p2) = 6%nat.
Proof. reflexivity. Qed.

Lemma segments_length_f64 l : length (segments_f64 l) = (6 * (length l - 1))%nat.
Proof.
  induction l as [| p1 l IH]; [done |].
  destruct l as [| p2 rest]; [done |].
  rewrite segments_cons_f64, length_app, segment_length_f64, IH. simpl. lia.
Qed.

Lemma segments_lookup_f64 l : ∀ i p1 p2 j,
  l !! i = Some p1 → l !! S i = Some p2 → (j < 6)%nat →
  segments_f64 l !! (6 * i + j)%nat = segment_f64 p1 p2 !! j.
Proof.
  induction l as [| a l IH]; intros i p1 p2 j H1 H2 Hj; [done |].
  destruct l as [| b rest]; [by destruct i |].
  rewrite segments_cons_f64. destruct i as [| i].
  - simpl in H1, H2. injection H1 as <-. injection H2 as <-.
    rewrite lookup_app_l by (rewrite segment_length_f64; lia).
    by replace (6 * 0 + j)%nat with j by lia.
  - rewrite lookup_app_r by (rewrite segment_length_f64; lia).
    rewrite segment_length_f64.
    replace (6 * S i + j - 6)%nat with (6 * i + j)%nat by lia.
    by apply IH.
Qed.

Lemma closed_curve_lookup_f64 l final : ∀ i p,
  last l = Some final → l !! i = Some p →
  (segments_f64 l ++ [final]) !! (6 * i)%nat = Some p.
Proof.
  intros i p Hl Hp.
  destruct (l !! S i) as [p2 |] eqn:E2.
  - rewrite lookup_app_l.
    2:{ rewrite segments_length_f64. apply lookup_lt_Some in E2. lia. }
    replace (6 * i)%nat with (6 * i + 0)%nat by lia.
    by rewrite (segments_lookup_f64 l i p p2 0%nat Hp E2) by lia.
  - apply lookup_ge_None in E2. apply lookup_lt_Some in Hp as Hi.
    assert (i = Nat.pred (length l)) as -> by lia.
    rewrite last_lookup in Hl. rewrite Hl in Hp. injection Hp as <-.
    rewrite lookup_app_r by (rewrite segments_length_f64; lia).
    rewrite segments_length_f64.
    replace (6 * Nat.pred (length l) - 6 * (length l - 1))%nat with 0%nat by lia.
    done.
Qed.

(** C8: fewer than two predictions come back unchanged.  For [N >= 2] the
    curve has [(N - 1) * 6 + 1] points; with the predictions in ascending
    order (a permutation of the input), interval [i] starts at position
    [6 * i] with its left raw point and ends at [6 * i + 6] with its right raw
    point, and position [6 * i + j] for [j = 1..5] holds the point at ratio
    [r = j / 6]: the time advanced by the duration times [r], the height by
    the difference times [3 r^2 - 2 r^3], every operation rounded to a double
    as the source computes it and the time to a whole microsecond.  The
    easing is 0 at ratio 0 and 1 at ratio 1. *)
Theorem smooth_curve_spec (ps : list prediction) (current_time : instant) :
  ((length ps < 2)%nat → _generate_smooth_curve_f64 ps current_time = Ok ps)
  ∧ ((2 ≤ length ps)%nat →
     ∃ out,
       _generate_smooth_curve_f64 ps current_time = Ok out
       ∧ length out = ((length ps - 1) * 6 + 1)%nat
       ∧ sorted_by_time ps ≡ₚ ps
       ∧ ascending (sorted_by_time ps)
       ∧ ∀ i p1 p2,
           sorted_by_time ps !! i = Some p1 →
           sorted_by_time ps !! S i = Some p2 →
           out !! (6 * i)%nat = Some p1
           ∧ out !! (6 * i + 6)%nat = Some p2
           ∧ (∀ j : nat, (1 ≤ j ≤ 5)%nat →
                let r := fdiv (inject_Z (Z.of_nat j)) 6 in
                let eased := fsub (fmul 3 (round64 (r ^ 2))) (fmul 2 (round64 (r ^ 3))) in
                out !! (6 * i + j)%nat
                = Some (Prediction
                          (time p1 + timedelta_seconds_f64
                                       (fmul (td_total_seconds_f64 (time p2 - time p1)) r))
                          (fadd (height p1)
                             (fmul (fsub (height p2) (height p1)) eased)))))
  ∧ cubic_ratio_f64 0 = 0%Q ∧ cubic_ratio_f64 1 = 1%Q.
Proof.
  split; [| split; [| split; by vm_compute]].
  - intros Hlt. unfold _generate_smooth_curve_f64.
    by destruct (decide (length ps < 2)%nat).
  - intros Hn. destruct (smooth_curve_segments_f64 ps current_time Hn) as (final & Hl & E).
    exists (segments_f64 (sorted_by_time ps) ++ [final]).
    split; [exact E |]. split.
    { rewrite length_app, segments_length_f64, sorted_by_time_length. simpl. lia. }
    split; [apply sorted_by_time_perm |].
    split; [apply sorted_by_time_ascending |].
    intros i p1 p2 H1 H2.
    split; [by apply closed_curve_lookup_f64 |]. split.
    { replace (6 * i + 6)%nat with (6 * S i)%nat by lia.
      by apply closed_curve_lookup_f64. }
    intros j Hj r eased.
    rewrite lookup_app_l.
    2:{ rewrite segments_length_f64. apply lookup_lt_Some in H2. lia. }
    rewrite (segments_lookup_f64 _ i p1 p2 j H1 H2) by lia.
    destruct j as [| [| [| [| [| [| j]]]]]]; try lia; reflexivity.
Qed.

(** Three predictions, given out of order, make a curve of 13 points. *)
Lemma smooth_curve_length_witness :
  ∃ out, _generate_smooth_curve_f64 three_points 0 = Ok out ∧ length out = 13%nat.
Proof.
  destruct (smooth_curve_spec three_points 0) as (_ & H & _).
  destruct H as (out & E & Hlen & _).
  - simpl; lia.
  - exists out. split; [exact E | exact Hlen].
Defined.

(** The rounding shows in the times: over an interval of 21 microseconds the
    first inserted point lies 3 microseconds after the left point, where the
    exact product 3.5 would round to 4. *)
Lemma smooth_curve_rounds_offsets :
  match _generate_smooth_curve_f64 [Prediction 0 0; Prediction 21 1] 0 with
  | Ok out => time <$> out
  | Raise _ => []
  end = [0; 3; 7; 10; 14; 18; 21].
Proof. by vm_compute. Qed.

(** ** The extractor *)

Ltac run_python :=
  cbn [py_getitem py_keys py_contains py_len py_iter py_get
       mbind result_bind mret result_ret].

Section ExtractionFacts.

Variable strptime : string → option instant.
Variable float_of_str : string → option Q.
Variable str_of : value → string.

Local Abbreviation loop := (entries_loop strptime float_of_str str_of).
Local Abbreviation parsed := (parse_entry strptime float_of_str str_of).
Local Abbreviation parsed_value := (parse_value strptime float_of_str str_of).
Local Abbreviation extract := (_extract_predictions strptime float_of_str str_of).

(** [float()] raises nothing but what the loop catches, integers too large
    apart. *)
Lemma py_float_caught v e :
  py_float float_of_str v = Raise e →
  (∀ n, v = VInt n → (Z.abs n <? float_overflow) = true) →
  (e = ValueError ∨ e = TypeError).
Proof.
  intros H Hn. destruct v as [| b | n | q | s | t | l | d]; simpl in H; try (injection H as <-; auto; fail);
    try discriminate.
  - rewrite (Hn n eq_refl) in H. discriminate.
  - destruct (float_of_str s); [discriminate | injection H as <-; auto].
Qed.

(** The iteration for one well-formed entry appends its prediction when it
    has one and leaves the list alone otherwise. *)
Lemma entries_loop_step d rest acc :
  entry_ok (VDict d) = true →
  loop (VDict d :: rest) acc
  = loop rest (acc ++ from_option (λ p, [p]) [] (parsed d)).
Proof.
  intros Hok. cbn [entries_loop].
  unfold entry_try, parse_entry. cbn [py_get mbind result_bind].
  destruct (dict_get d "fecha") as [fecha |]; cbn [from_option id option_bind mbind].
  2:{ cbn. by rewrite app_nil_r. }
  destruct (dict_get d "hora") as [hora |]; cbn [from_option id option_bind mbind].
  2:{ rewrite andb_false_r. cbn. by rewrite app_nil_r. }
  destruct (truthy fecha && truthy hora).
  2:{ cbn. by rewrite app_nil_r. }
  destruct (strptime _) as [dt |]; cbn [option_bind mbind].
  2:{ cbn. by rewrite app_nil_r. }
  destruct (py_float float_of_str _) as [h | e] eqn:Ef; cbn [mbind result_bind].
  - reflexivity.
  - destruct (py_float_caught _ _ Ef) as [-> | ->]; cbn; try by rewrite app_nil_r.
    intros n Hv. simpl in Hok.
    destruct (dict_get d "altura") as [[] |]; simpl in Hv; try discriminate.
    all: injection Hv as <-; done.
Qed.

Lemma entries_loop_omap entries : ∀ acc,
  Forall (λ e, entry_ok e = true) entries →
  loop entries acc = Ok (acc ++ omap parsed_value entries).
Proof.
  induction entries as [| e entries IH]; intros acc Hall.
  - simpl. by rewrite app_nil_r.
  - apply Forall_cons in Hall as [Hok Hall].
    destruct e; try discriminate Hok.
    rewrite entries_loop_step by done. rewrite IH by done.
    cbn [omap list_omap parse_value].
    destruct (parsed d); cbn [from_option]; by rewrite <- app_assoc.
Qed.

Lemma extract_fallback tide_data :
  (∀ points, dict_get tide_data "tide_points" = Some points → truthy points = false) →
  dict_has tide_data "tide_points"
  && truthy (from_option id VNone (dict_get tide_data "tide_points")) = false.
Proof.
  intros Hno. unfold dict_has.
  destruct (dict_get tide_data "tide_points") as [v |] eqn:E; [| done].
  cbn. by apply Hno.
Qed.

(** On the raw shape the result is what the entry loop collects. *)
Lemma extract_raw_shape tide_data daily mareas entries :
  (∀ points, dict_get tide_data "tide_points" = Some points → truthy points = false) →
  dict_get tide_data "daily" = Some (VDict daily) →
  dict_get daily "mareas" = Some (VDict mareas) →
  dict_get mareas "prediccion" = Some (VList entries) →
  extract tide_data = (extracted ← loop entries []; mret (VList extracted)).
Proof.
  intros Hno Hd Hm Hp.
  unfold _extract_predictions. rewrite (extract_fallback _ Hno).
  unfold extract_fallback_branch, debug_daily, has_daily_mareas.
  repeat (progress (unfold dict_has; rewrite ?Hd, ?Hm, ?Hp; run_python)).
  by destruct (loop entries []).
Qed.

(** C9, as amended: a non-empty [tide_points] list is returned as it is.
    Without a truthy [tide_points], on the raw shape (dictionaries under
    [daily] and [mareas], a list of dictionary entries under [prediccion],
    integer heights within the range of a float) extraction does not raise
    and returns the valid entries in input order, an integer height rounded
    to a double as [float()] does, and where [daily], [mareas] or
    [prediccion] is missing it returns the empty list.  An entry whose date
    and time do not parse, or whose height is not numeric, is not valid. *)
Theorem extract_predictions_spec (tide_data : dict) :
  (∀ points, dict_get tide_data "tide_points" = Some (VList points) → points ≠ [] →
     extract tide_data = Ok (VList points))
  ∧ ((∀ points, dict_get tide_data "tide_points" = Some points → truthy points = false) →
     (∀ daily mareas entries,
        dict_get tide_data "daily" = Some (VDict daily) →
        dict_get daily "mareas" = Some (VDict mareas) →
        dict_get mareas "prediccion" = Some (VList entries) →
        Forall (λ e, entry_ok e = true) entries →
        extract tide_data = Ok (VList (omap parsed_value entries)))
     ∧ (dict_get tide_data "daily" = None
        ∨ (∃ daily, dict_get tide_data "daily" = Some (VDict daily)
             ∧ (dict_get daily "mareas" = None
                ∨ ∃ mareas, dict_get daily "mareas" = Some (VDict mareas)
                    ∧ dict_get mareas "prediccion" = None)) →
        extract tide_data = Ok (VList [])))
  ∧ (∀ d fecha hora,
       dict_get d "fecha" = Some fecha → dict_get d "hora" = Some hora →
       strptime (py_format str_of fecha +:+ " " +:+ py_format str_of hora) = None →
       parsed d = None)
  ∧ (∀ d altura, dict_get d "altura" = Some altura →
       raises (py_float float_of_str altura) → parsed d = None).
Proof.
  split; [| split; [| split]].
  - intros points Hp Hne. unfold _extract_predictions.
    unfold dict_has. rewrite Hp. cbn [from_option id andb].
    destruct points as [| point points]; [done |].
    cbn [truthy length Nat.eqb negb py_getitem]. by rewrite Hp.
  - intros Hno. split.
    + intros daily mareas entries Hd Hm Hp Hall.
      rewrite (extract_raw_shape _ _ _ _ Hno Hd Hm Hp).
      rewrite entries_loop_omap by done. reflexivity.
    + intros Hshape. unfold _extract_predictions. rewrite (extract_fallback _ Hno).
      unfold extract_fallback_branch, debug_daily, has_daily_mareas.
      destruct Hshape as [Hd | (daily & Hd & [Hm | (mareas & Hm & Hp)])];
        repeat (progress (unfold dict_has; rewrite ?Hd, ?Hm, ?Hp; run_python));
        reflexivity.
  - intros d fecha hora Hf Hh Hs. unfold parse_entry.
    rewrite Hf, Hh. cbn [mbind option_bind]. rewrite Hs.
    by destruct (truthy fecha && truthy hora).
  - intros d altura Ha [e He]. unfold parse_entry.
    rewrite Ha. cbn [from_option id]. rewrite He.
    destruct (dict_get d "fecha"); [| done]. destruct (dict_get d "hora"); [| done].
    cbn [mbind option_bind]. destruct (truthy _ && truthy _); [| done].
    by destruct (strptime _).
Qed.

(** C10: a raw entry with a date string, a time string and no [altura] key is
    appended as the record [{'time': dt, 'height': 0.0}], whereas the same
    entry with a height string that is not a number is skipped. *)
Theorem absent_height_defaults_to_zero (d : dict) (fecha hora : string) (dt : instant) :
  dict_get d "fecha" = Some (VStr fecha) →
  dict_get d "hora" = Some (VStr hora) →
  fecha ≠ "" → hora ≠ "" →
  strptime (fecha +:+ " " +:+ hora) = Some dt →
  dict_get d "altura" = None →
  (∀ rest acc,
     loop (VDict d :: rest) acc
     = loop rest (acc ++ [VDict [("time", VDatetime dt); ("height", VFloat 0)]]))
  ∧ extract (raw_payload [VDict d])
    = Ok (VList [VDict [("time", VDatetime dt); ("height", VFloat 0)]])
  ∧ (∀ s rest acc, float_of_str s = None →
       loop (VDict (("altura", VStr s) :: d) :: rest) acc = loop rest acc).
Proof.
  intros Hf Hh Hfe Hhe Hs Ha.
  assert (Htruth : truthy (VStr fecha) && truthy (VStr hora) = true).
  { cbn [truthy]. apply String.eqb_neq in Hfe, Hhe. by rewrite Hfe, Hhe. }
  assert (Hstep : ∀ rest acc,
             loop (VDict d :: rest) acc
             = loop rest (acc ++ [VDict [("time", VDatetime dt); ("height", VFloat 0)]])).
  { intros rest acc. cbn [entries_loop]. unfold entry_try. run_python.
    rewrite Hf, Hh. cbn [from_option id]. rewrite Htruth.
    cbn [py_format]. rewrite Hs. run_python. rewrite Ha. reflexivity. }
  split; [exact Hstep |]. split.
  - rewrite (extract_raw_shape (raw_payload [VDict d])
               [("mareas", VDict [("prediccion", VList [VDict d])])]
               [("prediccion", VList [VDict d])] [VDict d]);
      [| intros points Hp; discriminate Hp | reflexivity | reflexivity | reflexivity].
    rewrite Hstep. reflexivity.
  - intros s rest acc Hbad. cbn [entries_loop]. unfold entry_try. run_python.
    cbn [dict_get]. cbn [String.eqb Ascii.eqb Bool.eqb].
    rewrite Hf, Hh. cbn [from_option id]. rewrite Htruth.
    cbn [py_format]. rewrite Hs. run_python.
    cbn [from_option id py_float]. rewrite Hbad. reflexivity.
Qed.

End ExtractionFacts.

(** C9 as stated fails: with [None] under [daily] the call of [.keys()]
    raises [AttributeError] out of the extractor. *)
Lemma extract_daily_none_raises :
  _extract_predictions fixture_strptime fixture_float fixture_str daily_none_payload
  = Raise AttributeError.
Proof. reflexivity. Qed.

(** Of four raw entries, one with a bad time and one with a bad height, the
    two others are returned in their order. *)
Lemma extract_mixed_witness :
  _extract_predictions fixture_strptime fixture_float fixture_str mixed_payload
  = Ok (VList [VDict [("time", VDatetime 1704096000000000); ("height", VFloat (1 # 2))];
               VDict [("time", VDatetime 1704139200000000); ("height", VFloat 0)]]).
Proof.
  destruct (extract_predictions_spec fixture_strptime fixture_float fixture_str
              mixed_payload) as (_ & Hraw & _).
  destruct Hraw as [Hraw _].
  - intros points Hp. discriminate Hp.
  - rewrite (Hraw _ _ _ eq_refl eq_refl eq_refl).
    + reflexivity.
    + repeat constructor.
Defined.

(** The entry of 20:00 carries no height and is extracted at 0.0. *)
Lemma absent_height_witness :
  _extract_predictions fixture_strptime fixture_float fixture_str
    (raw_payload [VDict entry_no_height])
  = Ok (VList [VDict [("time", VDatetime 1704139200000000); ("height", VFloat 0)]]).
Proof.
  apply (absent_height_defaults_to_zero fixture_strptime fixture_float fixture_str
           entry_no_height "2024-01-01" "20:00:00").
  - reflexivity.
  - reflexivity.
  - discriminate.
  - discriminate.
  - reflexivity.
  - reflexivity.
Defined.

(** ** The renderer and the sink writer *)

(** The literal [0.1] lies above one tenth by a twentieth of [2^-53]. *)
Lemma tenth_f64 : (round64 (1 # 10) == (1 # 10) + (1 # 20) * 2 ^ (-53))%Q.
Proof. by vm_compute. Qed.

Lemma round64_error_bounds x b :
  (Qabs x <= b)%Q →
  (- (b * 2 ^ (-53) + 2 ^ (-1075)) <= round64 x - x <= b * 2 ^ (-53) + 2 ^ (-1075))%Q.
Proof.
  intros Hb. pose proof (round64_error x) as H.
  apply Qabs_Qle_condition in H.
  pose proof (pow2_pos (-53)) as P53.
  assert (Hm : (Qabs x * 2 ^ (-53) <= b * 2 ^ (-53))%Q) by nra.
  lra.
Qed.

Lemma pow2_53_small : (2 ^ (-53) <= 1 # 1000)%Q.
Proof. by vm_compute. Qed.

(** The amount of padding is a tenth of the raw range, up to rounding. *)
Lemma padding_amount_close r :
  (0 <= r)%Q →
  let a := fmul (round64 r) (round64 (1 # 10)) in
  (0 <= a)%Q
  ∧ (- ((26 # 100) * r * 2 ^ (-53) + (12 # 10) * 2 ^ (-1075))
     <= a - (1 # 10) * r
     <= (26 # 100) * r * 2 ^ (-53) + (12 # 10) * 2 ^ (-1075))%Q.
Proof.
  intros Hr a. subst a. unfold fmul.
  pose proof (pow2_pos (-53)) as Pu. pose proof (pow2_pos (-1075)) as Pe.
  pose proof pow2_53_small as Hu.
  pose proof (round64_nonneg r Hr) as Hd0.
  pose proof (round64_error_bounds r r ltac:(rewrite Qabs_pos; lra)) as Hd.
  pose proof tenth_f64 as Hc.
  set (d := round64 r) in *. set (c := round64 (1 # 10)) in *.
  assert (Hx0 : (0 <= d * c)%Q) by nra.
  pose proof (round64_nonneg (d * c) Hx0) as Ha0.
  pose proof (round64_error_bounds (d * c) (d * c) ltac:(rewrite Qabs_pos; lra)) as Ha.
  set (a := round64 (d * c)) in *.
  set (u := (2 ^ (-53))%Q) in *. set (e := (2 ^ (-1075))%Q) in *.
  split; [done |].
  assert (Hru : (0 <= r * u)%Q) by nra.
  assert (Hruu : (r * u * u <= r * u * (1 # 1000))%Q) by nra.
  assert (Heu : (e * u <= e * (1 # 1000))%Q) by nra.
  assert (Hdu : (d * u <= r * u + r * u * u + e * u)%Q) by nra.
  assert (Hdu0 : (0 <= d * u)%Q) by nra.
  assert (Hduu : (d * u * u <= d * u * (1 # 1000))%Q) by nra.
  assert (Hx : (d * c == d * (1 # 10) + (1 # 20) * (d * u))%Q) by (rewrite Hc; ring).
  assert (Hxu : (d * c * u == (1 # 10) * (d * u) + (1 # 20) * (d * u * u))%Q)
    by (rewrite Hc; ring).
  split; lra.
Qed.

(** C6, as amended: the padding lowers the minimum and raises the maximum by
    the same amount, the product of the raw range and [0.1] in doubles, which
    is a tenth of the raw range up to rounding.  The extents move outward,
    and the padded range is 1.2 times the raw range up to the rounding of the
    three operations behind each extent: an error below [2^-52] of the size
    of the extents (and [2^-1072] among the subnormal numbers). *)
Theorem padded_height_range_spec (min_height max_height : Q) :
  is_double min_height → is_double max_height → (min_height <= max_height)%Q →
  let padded := padded_height_range_f64 min_height max_height in
  let amount := fmul (fsub max_height min_height) (round64 (1 # 10)) in
  fst padded = fsub min_height amount
  ∧ snd padded = fadd max_height amount
  ∧ (0 <= amount)%Q
  ∧ (fst padded <= min_height)%Q ∧ (max_height <= snd padded)%Q
  ∧ (Qabs (snd padded - fst padded - (12 # 10) * (max_height - min_height))
     <= (Qabs min_height + Qabs max_height) * 2 ^ (-52) + 2 ^ (-1072))%Q.
Proof.
  intros Hlo Hhi Hle padded amount. subst padded amount.
  unfold is_double in Hlo, Hhi.
  unfold padded_height_range_f64. cbn [fst snd].
  split; [reflexivity |]. split; [reflexivity |].
  pose proof (pow2_pos (-53)) as Pu. pose proof (pow2_pos (-1075)) as Pe.
  pose proof pow2_53_small as Hu.
  destruct (padding_amount_close (max_height - min_height) ltac:(lra)) as [Ha0 Ha].
  fold (fsub max_height min_height) in Ha0, Ha.
  set (a := fmul (fsub max_height min_height) (round64 (1 # 10))) in *.
  split; [exact Ha0 |].
  assert (Hdown : (fsub min_height a <= min_height)%Q).
  { apply Qle_trans with (round64 min_height); [apply round64_mono | ]; lra. }
  assert (Hup : (max_height <= fadd max_height a)%Q).
  { apply Qle_trans with (round64 max_height); [| apply round64_mono]; lra. }
  split; [exact Hdown |]. split; [exact Hup |].
  assert (Hl : (Qabs (min_height - a) <= Qabs min_height + a)%Q).
  { apply Qabs_Qle_condition.
    pose proof (Qle_Qabs min_height). pose proof (Qle_Qabs (- min_height)) as Hn.
    rewrite Qabs_opp in Hn. split; lra. }
  assert (Hh : (Qabs (max_height + a) <= Qabs max_height + a)%Q).
  { apply Qabs_Qle_condition.
    pose proof (Qle_Qabs max_height). pose proof (Qle_Qabs (- max_height)) as Hn.
    rewrite Qabs_opp in Hn. split; lra. }
  pose proof (round64_error_bounds _ _ Hl) as El.
  pose proof (round64_error_bounds _ _ Hh) as Eh.
  fold (fsub min_height a) in El. fold (fadd max_height a) in Eh.
  assert (Hr : (max_height - min_height <= Qabs min_height + Qabs max_height)%Q).
  { pose proof (Qle_Qabs max_height). pose proof (Qle_Qabs (- min_height)) as Hn.
    rewrite Qabs_opp in Hn. lra. }
  pose proof (Qabs_nonneg min_height) as Hl0. pose proof (Qabs_nonneg max_height) as Hh0.
  assert (E52 : (2 ^ (-52) == 2 * 2 ^ (-53))%Q) by (by vm_compute).
  assert (E1072 : (2 ^ (-1072) == 8 * 2 ^ (-1075))%Q) by (by vm_compute).
  rewrite E52, E1072.
  set (lo' := fsub min_height a) in *. set (hi' := fadd max_height a) in *.
  set (L := Qabs min_height) in *. set (H := Qabs max_height) in *.
  assert (Hr0 : (0 <= max_height - min_height)%Q) by lra.
  set (r := (max_height - min_height)%Q) in *.
  set (u := (2 ^ (-53))%Q) in *. set (e := (2 ^ (-1075))%Q) in *.
  assert (Hru : (0 <= r * u)%Q) by nra.
  assert (Hruu : (r * u * u <= r * u * (1 # 1000))%Q) by nra.
  assert (Heu : (e * u <= e * (1 # 1000))%Q) by nra.
  assert (Hau : (a * u <= (1 # 10) * (r * u) + (26 # 100) * (r * u * u)
                            + (12 # 10) * (e * u))%Q) by nra.
  assert (Hau0 : (0 <= a * u)%Q) by nra.
  assert (HLu : (r * u <= L * u + H * u)%Q) by nra.
  assert (Hr' : (r == max_height - min_height)%Q) by reflexivity.
  apply Qabs_Qle_condition.
  split; lra.
Qed.

(** Heights from 0 to 10: the extents, and the range of 12. *)
Lemma padded_height_range_witness :
  let padded := padded_height_range_f64 0 10 in
  (fst padded <= 0)%Q ∧ (10 <= snd padded)%Q.
Proof.
  destruct (padded_height_range_spec 0 10) as (_ & _ & _ & Hlo & Hhi & _).
  - by vm_compute.
  - by vm_compute.
  - by vm_compute.
  - split; [exact Hlo | exact Hhi].
Defined.

(** C6 as stated fails: heights from 0 to 10 are padded to -1 and 11, a range
    of 12 and not of 1.1 * 10. *)
Lemma padded_range_not_eleven_tenths :
  let padded := padded_height_range_f64 0 10 in
  (fst padded == -1)%Q ∧ (snd padded == 11)%Q
  ∧ ¬ (snd padded - fst padded == (11 # 10) * (10 - 0))%Q.
Proof.
  split; [by vm_compute |]. split; [by vm_compute |].
  intros H. vm_compute in H. discriminate H.
Qed.

(** On heights 1.0 and 2.0 the rounding shows: the padded range is not 1.2
    either, but the double above it apart. *)
Lemma padded_range_rounds :
  let padded := padded_height_range_f64 1 2 in
  fst padded = 8106479329266893 # 9007199254740992
  ∧ snd padded = 4728779608739021 # 2251799813685248
  ∧ ¬ (snd padded - fst padded == (12 # 10) * (2 - 1))%Q.
Proof.
  split; [by vm_compute |]. split; [by vm_compute |].
  intros H. vm_compute in H. discriminate H.
Qed.

(** C4: when both paths can be written, the sink writer writes the markup to
    the configured path and to the path with [.png] replaced by [.svg], and
    nothing else: every file it leaves holds the markup or what it held
    before.  The wrapper document is built and never written. *)
Theorem save_writes_markup_to_two_paths (self : plot_manager) (svg_content : string)
    (fs : filesystem) :
  py_replace (_filename self) ".png" ".svg" ∉ denied fs →
  _filename self ∉ denied fs →
  ∃ fs',
    _save_svg_as_png self svg_content fs = (true, fs')
    ∧ files fs' = <[_filename self := svg_content]>
                    (<[py_replace (_filename self) ".png" ".svg" := svg_content]>
                       (files fs))
    ∧ ∀ path content, files fs' !! path = Some content →
        content = svg_content ∨ files fs !! path = Some content.
Proof.
  intros Halt Hmain. unfold _save_svg_as_png, write_file.
  destruct (decide (_ ∈ denied fs)) as [? | _]; [done |]. cbn [denied files].
  destruct (decide (_ ∈ denied fs)) as [? | _]; [done |].
  eexists. split; [reflexivity |]. cbn [files]. split; [reflexivity |].
  intros path content.
  rewrite !lookup_insert. repeat case_decide; naive_solver.
Qed.

(** Saving [<svg/>] as [tide.png] on an empty disk leaves [tide.png] and
    [tide.svg], both with the markup; no file holds the wrapper. *)
Lemma save_writes_no_wrapper :
  ∃ fs',
    _save_svg_as_png harbour "<svg/>" empty_disk = (true, fs')
    ∧ files fs' !! "tide.png" = Some "<svg/>"
    ∧ files fs' !! "tide.svg" = Some "<svg/>"
    ∧ ∀ path, files fs' !! path ≠ Some (html_wrapper (b64encode "<svg/>")).
Proof.
  destruct (save_writes_markup_to_two_paths harbour "<svg/>" empty_disk)
    as (fs' & E & Hfiles & Honly).
  - cbn. apply not_elem_of_empty.
  - cbn. apply not_elem_of_empty.
  - exists fs'. split; [exact E |]. rewrite Hfiles.
    split; [reflexivity |]. split; [reflexivity |].
    intros path Hp. rewrite <- Hfiles in Hp.
    destruct (Honly _ _ Hp) as [Hc | Hc].
    + vm_compute in Hc. discriminate Hc.
    + cbn in Hc. rewrite lookup_empty in Hc. discriminate Hc.
Defined.

(** C3, as amended: when the geometry computation raises, [generate_tide_plot]
    catches the exception, returns [False] and leaves the file system as it
    was; the curve is then not empty, the error document being what the
    renderer returns, without an exception, for an empty curve. *)
Theorem geometry_failure_reports_failure
    (strptime : string → option instant) (float_of_str : string → option Q)
    (str_of : value → string) (print_svg : list svg_part → string) (now : instant)
    (self : plot_manager) (tide_data : dict) (current_time : option instant)
    (fs : filesystem) (extracted : value) (predictions curve_points : list prediction)
    (extremes : list extreme) (current_height : option Q) :
  let t := from_option id now current_time in
  _extract_predictions strptime float_of_str str_of tide_data = Ok extracted →
  truthy extracted = true →
  as_predictions extracted = Ok predictions →
  _generate_smooth_curve predictions t = Ok curve_points →
  _find_extremes predictions = Ok extremes →
  _interpolate_current_height predictions t = Ok current_height →
  raises (_generate_svg_plot print_svg self curve_points extremes t current_height
            predictions) →
  generate_tide_plot strptime float_of_str str_of print_svg now self tide_data
    current_time fs = (false, fs)
  ∧ curve_points ≠ []
  ∧ _generate_svg_plot print_svg self [] extremes t current_height predictions
    = Ok (_generate_error_svg self).
Proof.
  intros t He Ht Hp Hc Hx Hi [e Hr]. split; [| split].
  - unfold generate_tide_plot.
    destruct (negb (truthy (VDict tide_data))); [done |].
    fold t. unfold generate_try. rewrite He. cbn [mbind result_bind].
    rewrite Ht. cbn [negb]. rewrite Hp. cbn [mbind result_bind].
    rewrite Hc. cbn [mbind result_bind]. rewrite Hx. cbn [mbind result_bind].
    rewrite Hi. cbn [mbind result_bind]. rewrite Hr. reflexivity.
  - intros ->. discriminate Hr.
  - reflexivity.
Qed.

(** C3 as stated fails on a payload with a single tide point: the time span
    is zero, the renderer raises [ZeroDivisionError], and the operation
    reports failure and writes nothing, although no write would fail. *)
Lemma single_point_geometry_fails :
  _generate_svg_plot fixture_print harbour [Prediction (seconds 0) 1] [] (seconds 0) None
    [Prediction (seconds 0) 1] = Raise ZeroDivisionError
  ∧ generate_tide_plot fixture_strptime fixture_float fixture_str fixture_print
      (seconds 0) harbour single_point_payload (Some (seconds 0)) empty_disk
    = (false, empty_disk).
Proof. split; reflexivity. Qed.

(** The single-point payload, with the current time left to the clock. *)
Lemma geometry_failure_witness :
  generate_tide_plot fixture_strptime fixture_float fixture_str fixture_print
    (seconds 0) harbour single_point_payload None empty_disk = (false, empty_disk).
Proof.
  apply (geometry_failure_reports_failure fixture_strptime fixture_float fixture_str
           fixture_print (seconds 0) harbour single_point_payload None empty_disk
           (VList [prediction_dict (seconds 0) 1]) [Prediction (seconds 0) 1]
           [Prediction (seconds 0) 1] [] None).
  - reflexivity.
  - reflexivity.
  - reflexivity.
  - reflexivity.
  - reflexivity.
  - reflexivity.
  - exists ZeroDivisionError. reflexivity.
Defined.

(** * Further properties *)

(** ** The extremum detector, continued *)

(** What one iteration appends, read off the tag of the point. *)
Lemma extremes_step_tag ps i p prev next :
  ps !! i = Some p →
  neighbour_heights ps i = Ok (prev, height p, next) →
  ∀ acc, extremes_step ps i acc
         = Ok (acc ++ match tag_of prev (height p) next with
                      | Some ty => [Extreme (time p) (height p) ty]
                      | None => []
                      end).
Proof.
  intros Hp E acc. unfold extremes_step, tag_of. rewrite E.
  cbn [mbind result_bind]. rewrite (py_index_lookup _ _ _ Hp).
  destruct (ge_float _ _ && ge_float _ _); [reflexivity |].
  destruct (le_float _ _ && le_float _ _); [reflexivity |].
  cbn. by rewrite app_nil_r.
Qed.

Lemma extreme_point_of p ty : extreme_point (Extreme (time p) (height p) ty) = p.
Proof. by destruct p. Qed.

(** The records of a run of indices are made, in order, from points of that
    run. *)
Lemma extremes_loop_sublist ps n : ∀ a,
  (2 ≤ length ps)%nat → (a + n ≤ length ps)%nat →
  ∃ out, (∀ acc, extremes_loop ps (seq a n) acc = Ok (acc ++ out))
         ∧ (extreme_point <$> out) `sublist_of` take n (drop a ps).
Proof.
  induction n as [| n IH]; intros a Hlen Ha.
  - exists []. split; [intros acc; cbn; by rewrite app_nil_r | constructor].
  - destruct (neighbour_heights_ok ps a) as (prev & curr & next & p & Hp & -> & E);
      [lia | lia |].
    destruct (IH (S a)) as (out & Hout & Hsub); [lia | lia |].
    rewrite (drop_S _ _ _ Hp). cbn [take seq extremes_loop].
    destruct (tag_of prev (height p) next) as [ty |] eqn:Et.
    + exists (Extreme (time p) (height p) ty :: out). split.
      * intros acc. rewrite (extremes_step_tag _ _ _ _ _ Hp E), Et.
        cbn [mbind result_bind]. rewrite Hout. by rewrite <- app_assoc.
      * cbn [fmap list_fmap]. rewrite extreme_point_of. by constructor.
    + exists out. split.
      * intros acc. rewrite (extremes_step_tag _ _ _ _ _ Hp E), Et.
        cbn [mbind result_bind]. rewrite app_nil_r. apply Hout.
      * by constructor.
Qed.

(** X1: the detector never raises, and the points of its records are points of
    the input, in the order of the input, each used at most once. *)
Theorem find_extremes_sublist (ps : list prediction) :
  ∃ out, _find_extremes ps = Ok out ∧ (extreme_point <$> out) `sublist_of` ps.
Proof.
  unfold _find_extremes. destruct (decide (length ps < 3)%nat).
  - exists []. split; [done | apply sublist_nil_l].
  - destruct (extremes_loop_sublist ps (length ps) 0%nat) as (out & Hout & Hsub);
      [lia | lia |].
    exists out. split; [apply (Hout []) |].
    by rewrite drop_0, firstn_all in Hsub.
Qed.

(** The tag in terms of the order of the heights. *)
Lemma tag_of_spec prev curr next ty :
  tag_of prev curr next = Some ty ↔
  match ty with
  | high => (prev <= curr)%Q ∧ (next <= curr)%Q
  | low => (curr <= prev)%Q ∧ (curr <= next)%Q ∧ ((curr < prev)%Q ∨ (curr < next)%Q)
  end.
Proof.
  unfold tag_of, ge_float, le_float.
  destruct (Qle_bool prev curr) eqn:E1; destruct (Qle_bool next curr) eqn:E2;
    destruct (Qle_bool curr prev) eqn:E3; destruct (Qle_bool curr next) eqn:E4;
    cbn [andb];
    rewrite ?Qle_bool_iff in *;
    repeat match goal with
           | H : Qle_bool ?a ?b = false |- _ =>
               assert (b < a)%Q
                 by (apply Qnot_le_lt; intros Hle; apply Qle_bool_iff in Hle; congruence);
               clear H
           end;
    destruct ty; split; intros Hyp; try discriminate; try reflexivity;
    try (exfalso; lra); try lra.
Qed.

Lemma tag_of_none prev curr next :
  tag_of prev curr next = None ↔
  ((prev < curr)%Q ∧ (curr < next)%Q) ∨ ((next < curr)%Q ∧ (curr < prev)%Q).
Proof.
  destruct (tag_of prev curr next) as [ty |] eqn:E.
  - apply tag_of_spec in E. split; [discriminate |]. destruct ty; lra.
  - split; [intros _ | done].
    destruct (Qlt_le_dec prev curr), (Qlt_le_dec curr prev),
      (Qlt_le_dec next curr), (Qlt_le_dec curr next);
      first
        [ left; split; assumption
        | right; split; assumption
        | exfalso; lra
        | exfalso;
          assert (tag_of prev curr next = Some high) by (apply tag_of_spec; lra);
          congruence
        | exfalso;
          assert (tag_of prev curr next = Some low) by (apply tag_of_spec; lra);
          congruence ].
Qed.

Lemma extremes_loop_tagged ps n : ∀ a,
  (2 ≤ length ps)%nat → (a + n ≤ length ps)%nat →
  ∃ out, (∀ acc, extremes_loop ps (seq a n) acc = Ok (acc ++ out))
         ∧ ∀ e, e ∈ out ↔ ∃ i, (a ≤ i < a + n)%nat ∧ tagged_at ps i e.
Proof.
  induction n as [| n IH]; intros a Hlen Ha.
  - exists []. split; [intros acc; cbn; by rewrite app_nil_r |].
    intros e. split; [intros H; by apply elem_of_nil in H | intros (i & Hi & _); lia].
  - destruct (neighbour_heights_ok ps a) as (prev & curr & next & p & Hp & -> & E);
      [lia | lia |].
    destruct (IH (S a)) as (out & Hout & Hin); [lia | lia |].
    cbn [seq extremes_loop].
    assert (Hhere : ∀ e, tagged_at ps a e ↔
                         tag_of prev (height p) next = Some (etype e)
                         ∧ e = Extreme (time p) (height p) (etype e)).
    { intros e. split.
      - intros (p' & prev' & next' & Hp' & E' & Ht & Hh & Hty).
        rewrite Hp in Hp'. injection Hp' as <-. rewrite E in E'.
        injection E' as <- <-. split; [by apply tag_of_spec |].
        destruct e; cbn in *; congruence.
      - intros [Ht ->]. exists p, prev, next. cbn.
        split; [done |]. split; [done |]. split; [done |]. split; [done |].
        by apply tag_of_spec. }
    destruct (tag_of prev (height p) next) as [ty |] eqn:Et.
    + exists (Extreme (time p) (height p) ty :: out). split.
      * intros acc. rewrite (extremes_step_tag _ _ _ _ _ Hp E), Et.
        cbn [mbind result_bind]. rewrite Hout. by rewrite <- app_assoc.
      * intros e. rewrite elem_of_cons, Hin. split.
        -- intros [-> | (i & Hi & Htag)].
           ++ exists a. split; [lia |]. apply Hhere. by cbn.
           ++ exists i. split; [lia | done].
        -- intros (i & Hi & Htag). destruct (decide (i = a)) as [-> | Hne].
           ++ left. apply Hhere in Htag as [Hty He]. rewrite He. congruence.
           ++ right. exists i. split; [lia | done].
    + exists out. split.
      * intros acc. rewrite (extremes_step_tag _ _ _ _ _ Hp E), Et.
        cbn [mbind result_bind]. rewrite app_nil_r. apply Hout.
      * intros e. rewrite Hin. split.
        -- intros (i & Hi & Htag). exists i. split; [lia | done].
        -- intros (i & Hi & Htag). destruct (decide (i = a)) as [-> | Hne].
           ++ apply Hhere in Htag as [Hty _]. discriminate Hty.
           ++ exists i. split; [lia | done].
Qed.

(** X2: on three or more points the detector emits exactly the records of the
    tagged points: a record is in the result if and only if it carries the
    time and height of some point and the tag that point's height earns
    against its boundary-adjusted neighbours ([high] when at least both,
    [low] when at most both and below one). *)
Theorem find_extremes_sound_and_complete (ps : list prediction) (out : list extreme) :
  (3 ≤ length ps)%nat →
  _find_extremes ps = Ok out →
  ∀ e, e ∈ out ↔ ∃ i, tagged_at ps i e.
Proof.
  intros Hn. unfold _find_extremes. destruct (decide (length ps < 3)%nat); [lia |].
  destruct (extremes_loop_tagged ps (length ps) 0%nat) as (out' & Hout & Hin);
    [lia | lia |].
  rewrite (Hout []). intros [= <-] e. rewrite Hin. split.
  - intros (i & _ & H). by exists i.
  - intros (i & H). exists i. split; [| done].
    destruct H as (p & _ & _ & Hp & _). apply lookup_lt_Some in Hp. lia.
Qed.

(** In the rising-then-falling series the peak is tagged [high]. *)
Lemma find_extremes_peak_witness :
  ∃ out, _find_extremes rise_fall = Ok out ∧ Extreme (seconds 2) 5 high ∈ out.
Proof.
  eexists. split; [reflexivity |].
  apply (find_extremes_sound_and_complete rise_fall).
  - unfold rise_fall. simpl. lia.
  - reflexivity.
  - exists 2%nat, (Prediction (seconds 2) 5), 3%Q, 3%Q.
    cbn. repeat split; done.
Defined.

(** The three heights at the first, at an interior and at the last index. *)
Lemma neighbour_heights_first ps p0 p1 :
  ps !! 0%nat = Some p0 → ps !! 1%nat = Some p1 →
  neighbour_heights ps 0 = Ok (height p0, height p0, height p1).
Proof.
  intros H0 H1. unfold neighbour_heights. cbn [decide decide_rel].
  destruct (decide (0 = 0)%nat); [| done].
  change (0 + 1)%nat with 1%nat.
  by rewrite (py_index_lookup _ _ _ H0), (py_index_lookup _ _ _ H1).
Qed.

Lemma neighbour_heights_last ps pm pn :
  (2 ≤ length ps)%nat →
  ps !! (length ps - 2)%nat = Some pm → ps !! (length ps - 1)%nat = Some pn →
  neighbour_heights ps (length ps - 1) = Ok (height pm, height pn, height pn).
Proof.
  intros Hn Hm Hl. unfold neighbour_heights.
  destruct (decide (length ps - 1 = 0)%nat); [lia |].
  destruct (decide (length ps - 1 = length ps - 1)%nat); [| done].
  replace (length ps - 1 - 1)%nat with (length ps - 2)%nat by lia.
  by rewrite (py_index_lookup _ _ _ Hm), (py_index_lookup _ _ _ Hl).
Qed.

Lemma neighbour_heights_interior ps i a b c :
  (0 < i)%nat → (S i < length ps)%nat →
  ps !! (i - 1)%nat = Some a → ps !! i = Some b → ps !! S i = Some c →
  neighbour_heights ps i = Ok (height a, height b, height c).
Proof.
  intros Hi Hl Ha Hb Hc. unfold neighbour_heights.
  destruct (decide (i = 0)%nat); [lia |].
  destruct (decide (i = length ps - 1)%nat); [lia |].
  replace (i + 1)%nat with (S i) by lia.
  by rewrite (py_index_lookup _ _ _ Ha), (py_index_lookup _ _ _ Hb),
    (py_index_lookup _ _ _ Hc).
Qed.

(** A boundary point ties with itself, so it always earns a tag. *)
Lemma tag_of_boundary_l h other :
  tag_of h h other = Some (if ge_float h other then high else low).
Proof.
  destruct (ge_float h other) eqn:E.
  - apply tag_of_spec. unfold ge_float in E. apply Qle_bool_iff in E. lra.
  - apply tag_of_spec. unfold ge_float in E.
    assert (h < other)%Q
      by (apply Qnot_le_lt; intros Hle; apply Qle_bool_iff in Hle; congruence).
    lra.
Qed.

Lemma tag_of_boundary_r h other :
  tag_of other h h = Some (if ge_float h other then high else low).
Proof.
  destruct (ge_float h other) eqn:E.
  - apply tag_of_spec. unfold ge_float in E. apply Qle_bool_iff in E. lra.
  - apply tag_of_spec. unfold ge_float in E.
    assert (h < other)%Q
      by (apply Qnot_le_lt; intros Hle; apply Qle_bool_iff in Hle; congruence).
    lra.
Qed.

Lemma seq_ends n : (2 ≤ n)%nat → seq 0 n = 0%nat :: seq 1 (n - 2) ++ [(n - 1)%nat].
Proof.
  intros Hn. replace n with (1 + ((n - 2) + 1))%nat at 1 by lia.
  rewrite (seq_app 1), (seq_app (n - 2)). cbn [seq].
  do 3 f_equal. lia.
Qed.

(** The result is the record of the first point, what the interior indices
    emit, and the record of the last point. *)
Lemma find_extremes_ends ps p0 p1 pm pn :
  (3 ≤ length ps)%nat →
  ps !! 0%nat = Some p0 → ps !! 1%nat = Some p1 →
  ps !! (length ps - 2)%nat = Some pm → ps !! (length ps - 1)%nat = Some pn →
  ∃ middle,
    (∀ acc, extremes_loop ps (seq 1 (length ps - 2)) acc = Ok (acc ++ middle))
    ∧ _find_extremes ps
      = Ok (Extreme (time p0) (height p0)
              (if ge_float (height p0) (height p1) then high else low)
            :: middle
            ++ [Extreme (time pn) (height pn)
                  (if ge_float (height pn) (height pm) then high else low)]).
Proof.
  intros Hn H0 H1 Hm Hl.
  destruct (extremes_loop_ok ps (seq 1 (length ps - 2))) as (middle & _ & Hmid); [lia | |].
  { apply Forall_forall. intros j Hj%elem_of_seq. lia. }
  exists middle. split; [exact Hmid |].
  unfold _find_extremes. destruct (decide (length ps < 3)%nat); [lia |].
  rewrite seq_ends by lia. cbn [extremes_loop].
  rewrite (extremes_step_tag _ _ _ _ _ H0 (neighbour_heights_first _ _ _ H0 H1)).
  rewrite tag_of_boundary_l. cbn [mbind result_bind app].
  rewrite extremes_loop_app, Hmid. cbn [mbind result_bind extremes_loop].
  assert (Hlast := neighbour_heights_last ps pm pn ltac:(lia) Hm Hl).
  rewrite (extremes_step_tag _ _ _ _ _ Hl Hlast).
  rewrite tag_of_boundary_r. cbn [mbind result_bind]. reflexivity.
Qed.

(** X3: on three or more points whose end heights compare with their
    neighbours, the first and the last point are tagged, and their records
    open and close the result.  The first point is [high] when its height is
    at least the second's and [low] when it is below it; the last point is
    [high] when its height is at least that of the point before it and [low]
    when it is below it.  (A NaN compares with nothing, and earns no tag.) *)
Theorem boundary_points_tagged (ps : list prediction) (p0 p1 pm pn : prediction)
    (tag0 tagn : tide_type) :
  (3 ≤ length ps)%nat →
  ps !! 0%nat = Some p0 → ps !! 1%nat = Some p1 →
  ps !! (length ps - 2)%nat = Some pm → ps !! (length ps - 1)%nat = Some pn →
  (tag0 = high ∧ height p1 <= height p0 ∨ tag0 = low ∧ height p0 < height p1)%Q →
  (tagn = high ∧ height pm <= height pn ∨ tagn = low ∧ height pn < height pm)%Q →
  ∃ middle,
    _find_extremes ps
    = Ok (Extreme (time p0) (height p0) tag0
          :: middle ++ [Extreme (time pn) (height pn) tagn]).
Proof.
  intros Hn H0 H1 Hm Hl Ht0 Htn.
  destruct (find_extremes_ends ps p0 p1 pm pn Hn H0 H1 Hm Hl) as (middle & _ & E).
  exists middle. rewrite E.
  assert (E0 : (if ge_float (height p0) (height p1) then high else low) = tag0).
  { unfold ge_float. destruct (Qle_bool (height p1) (height p0)) eqn:Eb.
    - apply Qle_bool_iff in Eb. destruct Ht0 as [[-> _] | [_ Hlt]]; [done | lra].
    - destruct Ht0 as [[_ Hle] | [-> _]]; [| done].
      apply Qle_bool_iff in Hle. congruence. }
  assert (En : (if ge_float (height pn) (height pm) then high else low) = tagn).
  { unfold ge_float. destruct (Qle_bool (height pm) (height pn)) eqn:Eb.
    - apply Qle_bool_iff in Eb. destruct Htn as [[-> _] | [_ Hlt]]; [done | lra].
    - destruct Htn as [[_ Hle] | [-> _]]; [| done].
      apply Qle_bool_iff in Hle. congruence. }
  by rewrite E0, En.
Qed.

(** The spec's series [5, 3, 1]: the first point is [high], the last [low]. *)
Lemma boundary_points_witness :
  ∃ middle,
    _find_extremes [Prediction (seconds 0) 5; Prediction (seconds 1) 3;
                    Prediction (seconds 2) 1]
    = Ok (Extreme (seconds 0) 5 high :: middle ++ [Extreme (seconds 2) 1 low]).
Proof.
  apply (boundary_points_tagged
           [Prediction (seconds 0) 5; Prediction (seconds 1) 3; Prediction (seconds 2) 1]
           (Prediction (seconds 0) 5) (Prediction (seconds 1) 3)
           (Prediction (seconds 1) 3) (Prediction (seconds 2) 1)).
  - cbn. lia.
  - reflexivity.
  - reflexivity.
  - reflexivity.
  - reflexivity.
  - left. split; [reflexivity | by vm_compute].
  - right. split; [reflexivity | by vm_compute].
Defined.

(** Indices whose points earn no tag leave the list as it is. *)
Lemma extremes_loop_untagged ps n : ∀ a,
  (∀ i, (a ≤ i < a + n)%nat →
        ∃ p prev next, ps !! i = Some p
          ∧ neighbour_heights ps i = Ok (prev, height p, next)
          ∧ tag_of prev (height p) next = None) →
  ∀ acc, extremes_loop ps (seq a n) acc = Ok acc.
Proof.
  induction n as [| n IH]; intros a Hall acc; [done |].
  cbn [seq extremes_loop].
  destruct (Hall a) as (p & prev & next & Hp & E & Ht); [lia |].
  rewrite (extremes_step_tag _ _ _ _ _ Hp E), Ht. cbn [mbind result_bind].
  rewrite app_nil_r. apply IH. intros i Hi. apply Hall. lia.
Qed.

(** X4: a series of three or more points whose heights rise strictly yields
    two records, the first point as [low] and the last as [high]; one whose
    heights fall strictly yields the first point as [high] and the last as
    [low].  No interior point of a strictly monotone run is tagged. *)
Theorem monotone_run_tags_ends_only (ps : list prediction) (p0 pn : prediction) :
  (3 ≤ length ps)%nat →
  ps !! 0%nat = Some p0 → ps !! (length ps - 1)%nat = Some pn →
  ((∀ i a b, ps !! i = Some a → ps !! S i = Some b → (height a < height b)%Q) →
   _find_extremes ps
   = Ok [Extreme (time p0) (height p0) low; Extreme (time pn) (height pn) high])
  ∧ ((∀ i a b, ps !! i = Some a → ps !! S i = Some b → (height b < height a)%Q) →
     _find_extremes ps
     = Ok [Extreme (time p0) (height p0) high; Extreme (time pn) (height pn) low]).
Proof.
  intros Hn H0 Hl.
  destruct (lookup_lt_is_Some_2 ps 1) as [p1 H1]; [lia |].
  destruct (lookup_lt_is_Some_2 ps (length ps - 2)) as [pm Hm]; [lia |].
  destruct (find_extremes_ends ps p0 p1 pm pn Hn H0 H1 Hm Hl) as (middle & Hmid & E).
  assert (Hinterior : ∀ i, (1 ≤ i < 1 + (length ps - 2))%nat →
            ∃ a b c, ps !! (i - 1)%nat = Some a ∧ ps !! i = Some b ∧ ps !! S i = Some c
                     ∧ neighbour_heights ps i = Ok (height a, height b, height c)).
  { intros i Hi.
    destruct (lookup_lt_is_Some_2 ps (i - 1)) as [a Ha]; [lia |].
    destruct (lookup_lt_is_Some_2 ps i) as [b Hb]; [lia |].
    destruct (lookup_lt_is_Some_2 ps (S i)) as [c Hc]; [lia |].
    exists a, b, c. repeat split; try done.
    apply neighbour_heights_interior; try done; lia. }
  split; intros Hmono.
  - assert (middle = []) as ->.
    { specialize (Hmid []). rewrite extremes_loop_untagged in Hmid; [by injection Hmid |].
      intros i Hi. destruct (Hinterior i Hi) as (a & b & c & Ha & Hb & Hc & En).
      exists b, (height a), (height c). repeat split; try done.
      apply tag_of_none. left.
      split; [apply (Hmono (i - 1)%nat); [done | by replace (S (i - 1)) with i by lia]
             | by apply (Hmono i)]. }
    rewrite E. cbn [app].
    assert (ge_float (height p0) (height p1) = false) as ->.
    { unfold ge_float. destruct (Qle_bool _ _) eqn:Eb; [| done].
      apply Qle_bool_iff in Eb. pose proof (Hmono 0%nat p0 p1 H0 H1). lra. }
    assert (ge_float (height pn) (height pm) = true) as ->.
    { unfold ge_float. apply Qle_bool_iff.
      pose proof (Hmono (length ps - 2)%nat pm pn Hm) as H.
      replace (S (length ps - 2)) with (length ps - 1)%nat in H by lia.
      specialize (H Hl). lra. }
    reflexivity.
  - assert (middle = []) as ->.
    { specialize (Hmid []). rewrite extremes_loop_untagged in Hmid; [by injection Hmid |].
      intros i Hi. destruct (Hinterior i Hi) as (a & b & c & Ha & Hb & Hc & En).
      exists b, (height a), (height c). repeat split; try done.
      apply tag_of_none. right.
      split; [by apply (Hmono i)
             | apply (Hmono (i - 1)%nat); [done | by replace (S (i - 1)) with i by lia]]. }
    rewrite E. cbn [app].
    assert (ge_float (height p0) (height p1) = true) as ->.
    { unfold ge_float. apply Qle_bool_iff.
      pose proof (Hmono 0%nat p0 p1 H0 H1). lra. }
    assert (ge_float (height pn) (height pm) = false) as ->.
    { unfold ge_float. destruct (Qle_bool _ _) eqn:Eb; [| done].
      apply Qle_bool_iff in Eb.
      pose proof (Hmono (length ps - 2)%nat pm pn Hm) as H.
      replace (S (length ps - 2)) with (length ps - 1)%nat in H by lia.
      specialize (H Hl). lra. }
    reflexivity.
Qed.

(** The rising series [1, 2, 3, 4]. *)
Lemma monotone_run_witness :
  _find_extremes rising = Ok [Extreme (seconds 0) 1 low; Extreme (seconds 3) 4 high].
Proof.
  apply (monotone_run_tags_ends_only rising (Prediction (seconds 0) 1)
           (Prediction (seconds 3) 4)).
  - cbn. lia.
  - reflexivity.
  - reflexivity.
  - intros i a b Ha Hb.
    destruct i as [| [| [| i]]]; cbn in Ha, Hb; simplify_eq; reflexivity.
Defined.

(** ** The instant interpolator, continued *)

(** The scan stops at the first bracket of its range, or finds none. *)
Lemma interpolate_loop_cases ps q n : ∀ a,
  (a + n < length ps)%nat ∨ n = 0%nat →
  (∃ i p1 p2,
      (a ≤ i < a + n)%nat ∧ ps !! i = Some p1 ∧ ps !! S i = Some p2
      ∧ time p1 <= q <= time p2
      ∧ (∀ j, (a ≤ j < i)%nat → ¬ bracket ps q j)
      ∧ interpolate_loop ps (seq a n) q = Ok (Some (interpolate_between p1 p2 q)))
  ∨ ((∀ j, (a ≤ j < a + n)%nat → ¬ bracket ps q j)
     ∧ interpolate_loop ps (seq a n) q = Ok None).
Proof.
  induction n as [| n IH]; intros a Ha.
  - right. split; [intros j Hj; lia | done].
  - destruct Ha as [Ha | Ha]; [| lia].
    destruct (lookup_lt_is_Some_2 ps a) as [p1 H1]; [lia |].
    destruct (lookup_lt_is_Some_2 ps (S a)) as [p2 H2]; [lia |].
    destruct (decide (time p1 <= q <= time p2)) as [Hb | Hb].
    + left. exists a, p1, p2. split; [lia |]. split; [done |]. split; [done |].
      split; [done |]. split; [intros j Hj; lia |].
      cbn [seq]. by apply interpolate_loop_hit.
    + assert (Hnb : ¬ bracket ps q a).
      { intros (p1' & p2' & H1' & H2' & Hb'). simplify_eq. done. }
      assert (Hskip : interpolate_loop ps (seq a (S n)) q
                      = interpolate_loop ps (seq (S a) n) q).
      { cbn [seq]. apply (interpolate_loop_skip ps q [a]).
        constructor; [split; [lia | done] | constructor]. }
      rewrite Hskip.
      destruct (IH (S a)) as [(i & p1' & p2' & Hi & H1' & H2' & Hq & Hfirst & E) | [Hnone E]];
        [lia | |].
      * left. exists i, p1', p2'. split; [lia |]. repeat (split; [done |]).
        split; [| done]. intros j Hj. destruct (decide (j = a)) as [-> | ?]; [done |].
        apply Hfirst. lia.
      * right. split; [| done]. intros j Hj.
        destruct (decide (j = a)) as [-> | ?]; [done |]. apply Hnone. lia.
Qed.

(** The interpolator either answers from the first bracket of the series or
    answers [None], there being no bracket. *)
Lemma interpolate_cases ps q :
  (∃ i p1 p2,
      ps !! i = Some p1 ∧ ps !! S i = Some p2 ∧ time p1 <= q <= time p2
      ∧ (∀ j, (j < i)%nat → ¬ bracket ps q j)
      ∧ _interpolate_current_height ps q = Ok (Some (interpolate_between p1 p2 q)))
  ∨ ((∀ j, ¬ bracket ps q j) ∧ _interpolate_current_height ps q = Ok None).
Proof.
  unfold _interpolate_current_height.
  destruct (decide (length ps < 2)%nat) as [Hlt | Hge].
  - right. split; [| done]. intros j (p1 & p2 & H1 & H2 & _).
    apply lookup_lt_Some in H2. lia.
  - destruct (interpolate_loop_cases ps q (length ps - 1) 0%nat)
      as [(i & p1 & p2 & Hi & H1 & H2 & Hq & Hfirst & E) | [Hnone E]]; [lia | |].
    + left. exists i, p1, p2. repeat (split; [done |]).
      split; [| done]. intros j Hj. apply Hfirst. lia.
    + right. split; [| done]. intros j Hb.
      destruct Hb as (p1 & p2 & H1 & H2 & Hq).
      apply (Hnone j); [apply lookup_lt_Some in H2; lia |].
      by exists p1, p2.
Qed.

(** Between the time of the first point and the time of the last there is a
    bracket, whatever the order of the points in between. *)
Lemma bracket_exists l : ∀ p0 pn q,
  l ≠ [] → last (p0 :: l) = Some pn → time p0 <= q <= time pn →
  ∃ i, bracket (p0 :: l) q i.
Proof.
  induction l as [| p1 l IH]; intros p0 pn q Hne Hl Hq; [done |].
  destruct (decide (q <= time p1)) as [Hle | Hgt].
  - exists 0%nat, p0, p1. split; [done |]. split; [done |]. lia.
  - destruct l as [| p2 l'].
    + cbn in Hl. simplify_eq. lia.
    + destruct (IH p1 pn q) as (i & a & b & Ha & Hb & Hab); [done | done | lia |].
      exists (S i), a, b. split; [done |]. split; [done |]. lia.
Qed.

(** A height the loop returns is computed at a bracket among the indices it
    was given. *)
Lemma interpolate_loop_f64_some ps q h range :
  interpolate_loop_f64 ps range q = Ok (Some h) →
  ∃ i p1 p2, ps !! i = Some p1 ∧ ps !! S i = Some p2 ∧ time p1 <= q <= time p2
             ∧ h = interpolate_between_f64 p1 p2 q.
Proof.
  induction range as [| i range IH]; [done |].
  cbn [interpolate_loop_f64]. unfold py_index.
  destruct (ps !! i) as [p1 |] eqn:E1; [| done]. cbn [mbind result_bind].
  destruct (ps !! (i + 1)%nat) as [p2 |] eqn:E2; [| done]. cbn [mbind result_bind].
  destruct ((time p1 <=? q) && (q <=? time p2)) eqn:Eb; [| exact IH].
  intros [= <-]. apply andb_true_iff in Eb as [?%Z.leb_le ?%Z.leb_le].
  exists i, p1, p2. replace (S i) with (i + 1)%nat by lia. auto.
Qed.

Lemma td_total_seconds_f64_mono a b :
  a <= b → (td_total_seconds_f64 a <= td_total_seconds_f64 b)%Q.
Proof.
  intros Hab. apply round64_mono. unfold Qle. simpl. lia.
Qed.

(** The ratio of a bracket lies between 0 and 1. *)
Lemma ratio_f64_bounds elapsed total :
  0 <= elapsed <= total → total ≠ 0 →
  (0 <= fdiv (td_total_seconds_f64 elapsed) (td_total_seconds_f64 total) <= 1)%Q.
Proof.
  intros [He Het] Ht.
  pose proof (td_total_seconds_f64_mono 0 elapsed He) as H0.
  pose proof (td_total_seconds_f64_mono elapsed total Het) as H1.
  assert (E0 : td_total_seconds_f64 0 = 0%Q) by (by vm_compute).
  rewrite E0 in H0.
  assert (Hpos : (0 < td_total_seconds_f64 total)%Q).
  { apply Qle_lt_or_eq in H1 as Hc.
    destruct (Qlt_le_dec 0 (td_total_seconds_f64 total)) as [| Hle]; [done |].
    assert (Hz : (td_total_seconds_f64 total == 0)%Q) by lra.
    apply Qeq_bool_iff, td_total_seconds_f64_zero in Hz. lia. }
  unfold fdiv. split.
  - apply round64_nonneg. apply Qle_shift_div_l; [done | lra].
  - assert (E1 : round64 1 = 1%Q) by (by vm_compute).
    apply Qle_trans with (round64 1); [| by rewrite E1]. apply round64_mono.
    apply Qle_shift_div_r; [done | lra].
Qed.

(** The interpolated height lies between the left height and the height the
    same bracket gives at its right end. *)
Lemma interpolate_between_f64_bounds p1 p2 q :
  is_double (height p1) → time p1 <= q <= time p2 →
  let h := interpolate_between_f64 p1 p2 q in
  let right_end := fadd (height p1) (fmul (fsub (height p2) (height p1)) 1) in
  ((height p1 <= height p2)%Q → (height p1 <= h <= right_end)%Q)
  ∧ ((height p2 <= height p1)%Q → (right_end <= h <= height p1)%Q).
Proof.
  intros Hd Hq h right_end. subst h right_end. unfold is_double in Hd.
  unfold interpolate_between_f64.
  set (d := fsub (height p2) (height p1)).
  assert (Hd1 : (fmul d 1 == round64 d)%Q).
  { unfold fmul. apply round64_proper. ring. }
  destruct (Qeq_bool (td_total_seconds_f64 (time p2 - time p1)) 0) eqn:Ez.
  - split; intros Hh.
    + split; [lra |]. unfold fadd.
      apply Qle_trans with (round64 (height p1)); [lra |]. apply round64_mono.
      assert (0 <= round64 d)%Q; [| lra].
      apply round64_nonneg, round64_nonneg. lra.
    + split; [| lra]. unfold fadd.
      apply Qle_trans with (round64 (height p1)); [| lra]. apply round64_mono.
      assert (round64 d <= 0)%Q; [| lra].
      apply round64_nonpos, round64_nonpos. lra.
  - assert (Ht : time p2 - time p1 ≠ 0).
    { intros Hc. apply td_total_seconds_f64_zero in Hc. congruence. }
    destruct (ratio_f64_bounds (q - time p1) (time p2 - time p1)) as [Hr0 Hr1];
      [lia | done |].
    set (ratio := fdiv _ _) in *.
    split; intros Hh.
    + assert (Hd0 : (0 <= d)%Q) by (apply round64_nonneg; lra).
      assert (Hp0 : (0 <= fmul d ratio)%Q) by (apply round64_nonneg; nra).
      assert (Hp1 : (fmul d ratio <= fmul d 1)%Q) by (apply round64_mono; nra).
      split.
      * apply Qle_trans with (round64 (height p1)); [lra |].
        apply round64_mono. lra.
      * apply round64_mono. lra.
    + assert (Hd0 : (d <= 0)%Q) by (apply round64_nonpos; lra).
      assert (Hp0 : (fmul d ratio <= 0)%Q) by (apply round64_nonpos; nra).
      assert (Hp1 : (fmul d 1 <= fmul d ratio)%Q) by (apply round64_mono; nra).
      split.
      * apply round64_mono. lra.
      * apply Qle_trans with (round64 (height p1)); [| lra].
        apply round64_mono. lra.
Qed.

(** X5: a height the interpolator returns comes from two consecutive
    predictions whose times enclose the instant, and lies between the left
    height and the height at the right end of that bracket: the interpolator
    never extrapolates, and inside a bracket it stays within the values at its
    two ends.  (In doubles the value at the right end is [h1 + (h2 - h1) *
    1.0], which can miss [h2] by a rounding.) *)
Theorem interpolate_within_bracket (ps : list prediction) (q : instant) (h : Q) :
  Forall (λ p, is_double (height p)) ps →
  _interpolate_current_height_f64 ps q = Ok (Some h) →
  ∃ i p1 p2,
    ps !! i = Some p1 ∧ ps !! S i = Some p2 ∧ time p1 <= q <= time p2
    ∧ let right_end := fadd (height p1) (fmul (fsub (height p2) (height p1)) 1) in
      ((height p1 <= height p2)%Q → (height p1 <= h <= right_end)%Q)
      ∧ ((height p2 <= height p1)%Q → (right_end <= h <= height p1)%Q).
Proof.
  intros Hall E. unfold _interpolate_current_height_f64 in E.
  destruct (decide (length ps < 2)%nat); [done |].
  apply interpolate_loop_f64_some in E as (i & p1 & p2 & H1 & H2 & Hq & ->).
  exists i, p1, p2. repeat (split; [done |]).
  apply interpolate_between_f64_bounds; [| done].
  rewrite Forall_forall in Hall. apply Hall. by eapply list_elem_of_lookup_2.
Qed.

(** From 2.3 down to 0.4, a third of the way: the height lies between the
    value at the right end and 2.3. *)
Lemma interpolate_within_bracket_witness :
  ∃ h,
    _interpolate_current_height_f64
      [Prediction (seconds 0) (round64 (23 # 10)); Prediction (seconds 9) (round64 (4 # 10))]
      (seconds 3) = Ok (Some h)
    ∧ (h <= round64 (23 # 10))%Q.
Proof.
  assert (E : ∃ h,
             _interpolate_current_height_f64
               [Prediction (seconds 0) (round64 (23 # 10));
                Prediction (seconds 9) (round64 (4 # 10))]
               (seconds 3) = Ok (Some h)).
  { eexists. by vm_compute. }
  destruct E as [h E]. exists h. split; [exact E |].
  destruct (interpolate_within_bracket
              [Prediction (seconds 0) (round64 (23 # 10));
               Prediction (seconds 9) (round64 (4 # 10))] (seconds 3) h
              ltac:(repeat constructor; by vm_compute) E)
    as (i & p1 & p2 & H1 & H2 & _ & _ & Hfall).
  destruct i as [| [| i]]; [| done | done].
  injection H1 as <-. injection H2 as <-.
  apply Hfall. by vm_compute.
Defined.

(** X6: with two or more predictions, an instant from the time of the first
    prediction to the time of the last always gets a height, whatever the
    order of the predictions; when the times ascend, no other instant does. *)
Theorem interpolate_available_in_range (ps : list prediction) (q : instant)
    (first final : prediction) :
  (2 ≤ length ps)%nat → head ps = Some first → last ps = Some final →
  (time first <= q <= time final →
   ∃ h, _interpolate_current_height ps q = Ok (Some h))
  ∧ (ascending ps →
     ∀ h, _interpolate_current_height ps q = Ok (Some h) →
          time first <= q <= time final).
Proof.
  intros Hn Hf Hl. split.
  - intros Hq. destruct ps as [| p0 l]; [done |]. cbn in Hf. simplify_eq.
    destruct (bracket_exists l first final q) as (i & Hb); [| done | done |].
    { intros ->. cbn in Hn. lia. }
    destruct (interpolate_cases (first :: l) q)
      as [(i' & p1 & p2 & _ & _ & _ & _ & E) | [Hnone _]]; [by eexists |].
    by destruct (Hnone i).
  - intros Hs h E.
    destruct (interpolate_cases ps q)
      as [(i & p1 & p2 & H1 & H2 & Hq & _ & _) | [_ E']]; [| congruence].
    rewrite head_lookup in Hf. rewrite last_lookup in Hl.
    pose proof (ascending_lookup ps 0 i first p1 Hs ltac:(lia) Hf H1).
    apply lookup_lt_Some in H2 as Hi.
    pose proof (ascending_lookup ps (S i) (Nat.pred (length ps)) p2 final Hs
                  ltac:(lia) H2 Hl).
    lia.
Qed.

(** Three predictions out of order: the instant 5 s lies between the times of
    the first and the last. *)
Lemma interpolate_available_witness :
  ∃ h, _interpolate_current_height zigzag (seconds 5) = Ok (Some h).
Proof.
  apply (interpolate_available_in_range zigzag (seconds 5)
           (Prediction (seconds 0) 1) (Prediction (seconds 10) 3)).
  - unfold zigzag. simpl. lia.
  - reflexivity.
  - reflexivity.
  - unfold seconds. simpl. lia.
Defined.

Lemma strictly_sorted_lookup (l : list Z) i j a b :
  StronglySorted Z.lt l → (i < j)%nat → l !! i = Some a → l !! j = Some b → a < b.
Proof.
  intros Hs. revert i j. induction Hs as [| x l _ IH Hx]; intros i j Hij Ha Hb.
  - by rewrite lookup_nil in Ha.
  - destruct j as [| j]; [lia |]. simpl in Hb. destruct i as [| i].
    + simpl in Ha. injection Ha as <-.
      rewrite Forall_forall in Hx. apply Hx. by eapply list_elem_of_lookup_2.
    + simpl in Ha. apply (IH i j); [lia | done | done].
Qed.

(** The answer at the first bracket of the whole series. *)
Lemma interpolate_f64_first_bracket ps q i p1 p2 :
  ps !! i = Some p1 → ps !! S i = Some p2 → time p1 <= q <= time p2 →
  (∀ j, (j < i)%nat → ¬ bracket ps q j) →
  _interpolate_current_height_f64 ps q = Ok (Some (interpolate_between_f64 p1 p2 q)).
Proof.
  intros H1 H2 Hq Hfirst.
  assert (Hi : (S i < length ps)%nat) by (by eapply lookup_lt_Some).
  unfold _interpolate_current_height_f64.
  destruct (decide (length ps < 2)%nat); [lia |].
  rewrite (seq_split_at i (length ps - 1)) by lia.
  rewrite interpolate_loop_f64_skip.
  - by apply interpolate_loop_f64_hit.
  - apply Forall_forall. intros j Hj%elem_of_seq.
    split; [lia | apply Hfirst; lia].
Qed.

(** The height at the right end of a bracket is the right height up to the
    rounding of its three operations. *)
Lemma right_end_close h1 h2 M :
  (Qabs h1 <= M)%Q → (Qabs h2 <= M)%Q →
  (Qabs (fadd h1 (fmul (fsub h2 h1) 1) - h2) <= M * 2 ^ (-49) + 2 ^ (-1073))%Q.
Proof.
  intros H1 H2.
  pose proof (pow2_pos (-53)) as Pu. pose proof (pow2_pos (-1075)) as Pe.
  pose proof pow2_53_small as Hu.
  assert (E49 : (2 ^ (-49) == 16 * 2 ^ (-53))%Q) by (by vm_compute).
  assert (E1073 : (2 ^ (-1073) == 4 * 2 ^ (-1075))%Q) by (by vm_compute).
  rewrite E49, E1073.
  apply Qabs_Qle_condition in H1 as B1. apply Qabs_Qle_condition in H2 as B2.
  assert (HM : (0 <= M)%Q) by (pose proof (Qabs_nonneg h1); lra).
  set (u := (2 ^ (-53))%Q) in *. set (e := (2 ^ (-1075))%Q) in *.
  assert (HMu : (0 <= M * u <= M * (1 # 1000))%Q) by nra.
  assert (Heu : (0 <= e * u <= e * (1 # 1000))%Q) by nra.
  unfold fadd, fmul, fsub.
  assert (Hr : (Qabs (h2 - h1) <= 2 * M)%Q) by (apply Qabs_Qle_condition; lra).
  pose proof (round64_error_bounds _ _ Hr) as E1. fold u e in E1.
  set (d := round64 (h2 - h1)) in *.
  assert (Hd : (Qabs (d * 1) <= 3 * M + e)%Q) by (apply Qabs_Qle_condition; lra).
  pose proof (round64_error_bounds _ _ Hd) as E2. fold u e in E2.
  set (f := round64 (d * 1)) in *.
  assert (Hs : (Qabs (h1 + f) <= 5 * M + 3 * e)%Q) by (apply Qabs_Qle_condition; lra).
  pose proof (round64_error_bounds _ _ Hs) as E3. fold u e in E3.
  set (s := round64 (h1 + f)) in *.
  apply Qabs_Qle_condition. lra.
Qed.

(** X7: when the times ascend strictly, the interpolator passes through the
    data up to rounding: asked for the time of a prediction, it returns the
    height of that prediction within [2^-49] of the size of the heights (and
    [2^-1073] among the subnormal numbers), and the height of the first
    prediction exactly. *)
Theorem interpolate_at_sample (ps : list prediction) (i : nat) (p : prediction) (M : Q) :
  StronglySorted Z.lt (time <$> ps) →
  (2 ≤ length ps)%nat →
  Forall (λ p, is_double (height p) ∧ (Qabs (height p) <= M)%Q) ps →
  ps !! i = Some p →
  ∃ h, _interpolate_current_height_f64 ps (time p) = Ok (Some h)
       ∧ (Qabs (h - height p) <= M * 2 ^ (-49) + 2 ^ (-1073))%Q
       ∧ (i = 0%nat → (h == height p)%Q).
Proof.
  intros Hs Hn Hall Hp.
  assert (Hlt : ∀ a b x y, (a < b)%nat → ps !! a = Some x → ps !! b = Some y →
                           time x < time y).
  { intros a b x y Hab Hx Hy.
    apply (strictly_sorted_lookup (time <$> ps) a b); [done | done | |].
    - by rewrite list_lookup_fmap, Hx.
    - by rewrite list_lookup_fmap, Hy. }
  assert (Hin : ∀ k x, ps !! k = Some x →
                       is_double (height x) ∧ (Qabs (height x) <= M)%Q).
  { intros k x Hx. rewrite Forall_forall in Hall. apply Hall.
    by eapply list_elem_of_lookup_2. }
  assert (HM : (0 <= M * 2 ^ (-49) + 2 ^ (-1073))%Q).
  { destruct (Hin i p Hp) as [_ Hb]. pose proof (Qabs_nonneg (height p)).
    pose proof (pow2_pos (-49)). pose proof (pow2_pos (-1073)). nra. }
  destruct i as [| i].
  - destruct (lookup_lt_is_Some_2 ps 1) as [p2 H2]; [lia |].
    pose proof (Hlt 0%nat 1%nat p p2 ltac:(lia) Hp H2) as Ht.
    rewrite (interpolate_f64_first_bracket ps (time p) 0 p p2 Hp H2);
      [| lia | intros j Hj; lia].
    eexists. split; [reflexivity |].
    assert (E : (interpolate_between_f64 p p2 (time p) == height p)%Q).
    { unfold interpolate_between_f64.
      destruct (Qeq_bool _ 0) eqn:Ez; [reflexivity |].
      rewrite Z.sub_diag.
      assert (E0 : td_total_seconds_f64 0 = 0%Q) by (by vm_compute).
      rewrite E0. unfold fdiv, fmul, fadd.
      assert (Ea : (round64 (0 / td_total_seconds_f64 (time p2 - time p)) == 0)%Q).
      { apply round64_zero. unfold Qdiv. ring. }
      assert (Eb : (round64 (fsub (height p2) (height p)
                             * round64 (0 / td_total_seconds_f64 (time p2 - time p)))
                    == 0)%Q).
      { apply round64_zero. rewrite Ea. ring. }
      destruct (Hin 0%nat p Hp) as [Hdbl _]. unfold is_double in Hdbl.
      transitivity (round64 (height p)); [| exact Hdbl].
      apply round64_proper. rewrite Eb. ring. }
    split; [| by intros _].
    apply Qabs_Qle_condition. split; lra.
  - destruct (lookup_lt_is_Some_2 ps i) as [p1 H1]; [apply lookup_lt_Some in Hp; lia |].
    pose proof (Hlt i (S i) p1 p ltac:(lia) H1 Hp) as Ht.
    rewrite (interpolate_f64_first_bracket ps (time p) i p1 p H1 Hp); [| lia |].
    + eexists. split; [reflexivity |]. split; [| intros Hc; lia].
      unfold interpolate_between_f64.
      destruct (Qeq_bool _ 0) eqn:Ez.
      { apply td_total_seconds_f64_zero in Ez. lia. }
      assert (Er : (fdiv (td_total_seconds_f64 (time p - time p1))
                      (td_total_seconds_f64 (time p - time p1)) == 1)%Q).
      { unfold fdiv. assert (E1 : round64 1 = 1%Q) by (by vm_compute).
        transitivity (round64 1); [| by rewrite E1]. apply round64_proper. field.
        intros Hz. apply Qeq_bool_iff in Hz. congruence. }
      assert (Eh : (fadd (height p1)
                      (fmul (fsub (height p) (height p1))
                         (fdiv (td_total_seconds_f64 (time p - time p1))
                            (td_total_seconds_f64 (time p - time p1))))
                    == fadd (height p1) (fmul (fsub (height p) (height p1)) 1))%Q).
      { unfold fadd, fmul. apply round64_proper.
        apply Qplus_comp; [reflexivity |]. apply round64_proper. by rewrite Er. }
      rewrite Eh. apply right_end_close.
      * by destruct (Hin i p1 H1).
      * by destruct (Hin (S i) p Hp).
    + intros j Hj (a & b & Ha & Hb & Hq).
      pose proof (Hlt (S j) (S i) b p ltac:(lia) Hb Hp). lia.
Qed.

(** From 2.3 down to 0.4, asked for at the time of the second point. *)
Lemma interpolate_at_sample_witness :
  ∃ h,
    _interpolate_current_height_f64
      [Prediction (seconds 0) (round64 (23 # 10)); Prediction (seconds 10) (round64 (4 # 10))]
      (seconds 10) = Ok (Some h)
    ∧ (Qabs (h - round64 (4 # 10)) <= 3 * 2 ^ (-49) + 2 ^ (-1073))%Q.
Proof.
  destruct (interpolate_at_sample
              [Prediction (seconds 0) (round64 (23 # 10));
               Prediction (seconds 10) (round64 (4 # 10))]
              1 (Prediction (seconds 10) (round64 (4 # 10))) 3)
    as (h & E & Hb & _).
  - unfold seconds. simpl. repeat constructor.
  - simpl. lia.
  - repeat constructor; by vm_compute.
  - reflexivity.
  - exists h. split; [exact E | exact Hb].
Defined.

(** ** The curve synthesizer, continued *)

(** *** The easing *)

Lemma cubic_ratio_unfold r : (cubic_ratio r == 3 * (r * r) - 2 * (r * r * r))%Q.
Proof. unfold cubic_ratio. simpl. ring. Qed.

Lemma cubic_ratio_bounds r :
  (0 <= r)%Q → (r <= 1)%Q → (0 <= cubic_ratio r)%Q ∧ (cubic_ratio r <= 1)%Q.
Proof.
  intros H0 H1. rewrite !cubic_ratio_unfold. split.
  - assert (0 <= r * r * (3 - 2 * r))%Q by (apply Qmult_le_0_compat; nra).
    nra.
  - assert (0 <= (1 - r) * (1 - r) * (1 + 2 * r))%Q by (apply Qmult_le_0_compat; nra).
    nra.
Qed.



(** *** Heights *)

(** A height eased between two heights stays between them. *)
Lemma eased_height_between h1 h2 c :
  (0 <= c)%Q → (c <= 1)%Q →
  let h := (h1 + (h2 - h1) * c)%Q in
  ((h1 <= h)%Q ∧ (h <= h2)%Q) ∨ ((h2 <= h)%Q ∧ (h <= h1)%Q).
Proof.
  intros H0 H1 h. subst h.
  destruct (Qlt_le_dec h2 h1) as [Hlt | Hle]; [right | left]; split; nra.
Qed.

Lemma segment_heights_between p1 p2 c :
  c ∈ segment p1 p2 →
  ((height p1 <= height c)%Q ∧ (height c <= height p2)%Q)
  ∨ ((height p2 <= height c)%Q ∧ (height c <= height p1)%Q).
Proof.
  unfold segment. intros [-> | Hin]%elem_of_cons.
  - destruct (Qlt_le_dec (height p2) (height p1)); [right | left]; lra.
  - apply list_elem_of_fmap in Hin as (j & -> & Hj).
    unfold interp_point. cbn [height].
    assert (Hr : (0 <= inject_Z j / 6)%Q ∧ (inject_Z j / 6 <= 1)%Q).
    { repeat (apply elem_of_cons in Hj as [-> | Hj]); [done .. |].
      by apply elem_of_nil in Hj. }
    destruct Hr as [Hr0 Hr1].
    destruct (cubic_ratio_bounds (inject_Z j / 6) Hr0 Hr1) as [Hc0 Hc1].
    by apply eased_height_between.
Qed.

Lemma segments_elem l c :
  c ∈ segments l →
  ∃ i p1 p2, l !! i = Some p1 ∧ l !! S i = Some p2 ∧ c ∈ segment p1 p2.
Proof.
  induction l as [| p1 l IH]; [intros H; by apply elem_of_nil in H |].
  destruct l as [| p2 rest]; [intros H; by apply elem_of_nil in H |].
  rewrite segments_cons. intros [Hin | Hin]%elem_of_app.
  - by exists 0%nat, p1, p2.
  - destruct (IH Hin) as (i & a & b & Ha & Hb & Hc). by exists (S i), a, b.
Qed.

(** X9: the synthesized curve never overshoots: the height of every curve
    point lies between the heights of two predictions that are consecutive in
    time order. *)
Theorem smooth_curve_heights_between (ps out : list prediction) (current_time : instant) :
  (2 ≤ length ps)%nat →
  _generate_smooth_curve ps current_time = Ok out →
  ∀ c, c ∈ out →
    ∃ i p1 p2,
      sorted_by_time ps !! i = Some p1 ∧ sorted_by_time ps !! S i = Some p2
      ∧ (((height p1 <= height c)%Q ∧ (height c <= height p2)%Q)
         ∨ ((height p2 <= height c)%Q ∧ (height c <= height p1)%Q)).
Proof.
  intros Hn E c Hc.
  destruct (smooth_curve_segments ps current_time Hn) as (final & Hl & E').
  rewrite E' in E. injection E as <-.
  apply elem_of_app in Hc as [Hc | Hc].
  - destruct (segments_elem _ _ Hc) as (i & p1 & p2 & H1 & H2 & Hin).
    exists i, p1, p2. split; [done |]. split; [done |].
    by apply segment_heights_between.
  - apply list_elem_of_singleton in Hc as ->.
    rewrite last_lookup, sorted_by_time_length in Hl.
    destruct (lookup_lt_is_Some_2 (sorted_by_time ps) (length ps - 2)) as [p1 H1];
      [rewrite sorted_by_time_length; lia |].
    exists (length ps - 2)%nat, p1, final. split; [done |].
    split; [by replace (S (length ps - 2)) with (Nat.pred (length ps)) by lia |].
    destruct (Qlt_le_dec (height final) (height p1)); [right | left]; lra.
Qed.

(** The first point of the curve of the two points of the examples. *)
Lemma smooth_curve_heights_witness :
  ∃ i p1 p2,
    sorted_by_time two_points !! i = Some p1 ∧ sorted_by_time two_points !! S i = Some p2
    ∧ (((height p1 <= 1)%Q ∧ (1 <= height p2)%Q)
       ∨ ((height p2 <= 1)%Q ∧ (1 <= height p1)%Q)).
Proof.
  refine (smooth_curve_heights_between two_points _ 0 _
            (eq_refl : _generate_smooth_curve two_points 0 = Ok _)
            (Prediction (seconds 0) 1) _).
  - unfold two_points. simpl. lia.
  - apply list_elem_of_here.
Defined.

(** *** Times *)

(** The offsets of the five eased points: ascending from 0 to the length of
    the interval. *)
Lemma offset_bounds d j j' :
  0 <= d → 0 <= j → j <= j' → j' <= 6 →
  let off k := timedelta_seconds (td_total_seconds d * (inject_Z k / 6)) in
  0 <= off j ∧ off j <= off j' ∧ off j' <= d.
Proof.
  intros Hd Hj Hjj Hj' off. subst off. cbn beta. unfold timedelta_seconds, td_total_seconds.
  assert (Hx : ∀ k, ((d # 1000000) * (inject_Z k / 6) * 1000000
                     == inject_Z d * inject_Z k / 6)%Q).
  { intros k. rewrite (Qmake_Qdiv d). field. }
  assert (HQd : (0 <= inject_Z d)%Q) by (change 0%Q with (inject_Z 0); by rewrite <- Zle_Qle).
  assert (HQj : (0 <= inject_Z j)%Q) by (change 0%Q with (inject_Z 0); by rewrite <- Zle_Qle).
  assert (HQjj : (inject_Z j <= inject_Z j')%Q) by (by rewrite <- Zle_Qle).
  assert (HQj' : (inject_Z j' <= 6)%Q) by (change 6%Q with (inject_Z 6); by rewrite <- Zle_Qle).
  split; [| split].
  - change 0 with (round_half_even 0) at 1. apply round_half_even_mono.
    rewrite Hx. apply Qle_shift_div_l; [done |]. rewrite Qmult_0_l.
    by apply Qmult_le_0_compat.
  - apply round_half_even_mono. rewrite !Hx.
    apply Qmult_le_compat_r; [| done]. nra.
  - rewrite <- (round_half_even_integer (inject_Z d) d) at 2 by reflexivity.
    apply round_half_even_mono. rewrite Hx.
    apply Qle_shift_div_r; [done |]. nra.
Qed.

Lemma closed_curve_head l final :
  l ≠ [] → last l = Some final → head (segments l ++ [final]) = head l.
Proof.
  intros Hne Hl. destruct l as [| p1 [| p2 rest]]; [done | | done].
  cbn in Hl. by injection Hl as <-.
Qed.

Lemma closed_curve_sorted l : ∀ final,
  ascending l → last l = Some final →
  Sorted Z.le (time <$> (segments l ++ [final])).
Proof.
  induction l as [| p1 l IH]; intros final Hs Hl; [done |].
  destruct l as [| p2 rest].
  - cbn. repeat constructor.
  - assert (Hs' : ascending (p2 :: rest)).
    { unfold ascending in *. cbn [fmap list_fmap] in *. by apply StronglySorted_inv in Hs as []. }
    assert (Ht : time p1 <= time p2).
    { apply (ascending_lookup (p1 :: p2 :: rest) 0 1 p1 p2 Hs); [lia | done | done]. }
    assert (Hl' : last (p2 :: rest) = Some final) by done.
    specialize (IH final Hs' Hl').
    pose proof (closed_curve_head (p2 :: rest) final ltac:(done) Hl') as Hhd.
    rewrite segments_cons, <- app_assoc.
    destruct (segments (p2 :: rest) ++ [final]) as [| x tail]; [done |].
    cbn in Hhd. injection Hhd as ->.
    unfold segment, interp_point. cbn [fmap list_fmap app time].
    set (off k := timedelta_seconds
                    (td_total_seconds (time p2 - time p1) * (inject_Z k / 6))).
    pose proof (offset_bounds (time p2 - time p1) 1 2 ltac:(lia) ltac:(lia) ltac:(lia) ltac:(lia)) as (H01 & H12 & _).
    pose proof (offset_bounds (time p2 - time p1) 2 3 ltac:(lia) ltac:(lia) ltac:(lia) ltac:(lia)) as (_ & H23 & _).
    pose proof (offset_bounds (time p2 - time p1) 3 4 ltac:(lia) ltac:(lia) ltac:(lia) ltac:(lia)) as (_ & H34 & _).
    pose proof (offset_bounds (time p2 - time p1) 4 5 ltac:(lia) ltac:(lia) ltac:(lia) ltac:(lia)) as (_ & H45 & H5d).
    cbn beta in *. fold (off 1) (off 2) (off 3) (off 4) (off 5) in *.
    repeat (apply Sorted_cons; [| apply HdRel_cons; lia]).
    exact IH.
Qed.

(** X10: the times of the synthesized curve never decrease along the curve,
    whatever the order of the predictions given. *)
Theorem smooth_curve_times_ascending (ps out : list prediction) (current_time : instant) :
  (2 ≤ length ps)%nat →
  _generate_smooth_curve ps current_time = Ok out →
  ascending out.
Proof.
  intros Hn E.
  destruct (smooth_curve_segments ps current_time Hn) as (final & Hl & E').
  rewrite E' in E. injection E as <-.
  unfold ascending. apply Sorted_StronglySorted; [intros x y z; lia |].
  apply closed_curve_sorted; [apply sorted_by_time_ascending | done].
Qed.

(** The curve of three predictions given out of order. *)
Lemma smooth_curve_times_witness :
  ∃ out, _generate_smooth_curve three_points 0 = Ok out ∧ ascending out.
Proof.
  eexists. split; [reflexivity |].
  refine (smooth_curve_times_ascending three_points _ 0 _ eq_refl).
  unfold three_points. simpl. lia.
Defined.

(** *** Order of the input *)

Lemma sorted_by_time_strongly l :
  StronglySorted (λ p q, time p <= time q) (sorted_by_time l).
Proof.
  pose proof (sorted_by_time_ascending l) as Hs. unfold ascending in Hs.
  induction (sorted_by_time l) as [| p s IH]; [constructor |].
  cbn [fmap list_fmap] in Hs. apply StronglySorted_inv in Hs as [Hs Hp].
  constructor; [by apply IH |]. by rewrite Forall_fmap in Hp.
Qed.

Lemma distinct_times_inj (l : list prediction) p q :
  NoDup (time <$> l) → p ∈ l → q ∈ l → time p = time q → p = q.
Proof.
  induction l as [| x l IH]; intros Hnd Hp Hq Ht; [by apply elem_of_nil in Hp |].
  cbn [fmap list_fmap] in Hnd. apply NoDup_cons in Hnd as [Hx Hnd].
  apply elem_of_cons in Hp as [-> | Hp]; apply elem_of_cons in Hq as [-> | Hq].
  - done.
  - destruct Hx. rewrite Ht. by apply list_elem_of_fmap_2.
  - destruct Hx. rewrite <- Ht. by apply list_elem_of_fmap_2.
  - by apply IH.
Qed.

(** X11: the synthesized curve does not depend on the order in which the
    predictions are given, as long as no two of them share a time and there
    are at least two of them. *)
Theorem smooth_curve_order_independent (ps ps' : list prediction)
    (current_time current_time' : instant) :
  (2 ≤ length ps)%nat →
  NoDup (time <$> ps) →
  ps ≡ₚ ps' →
  _generate_smooth_curve ps current_time = _generate_smooth_curve ps' current_time'.
Proof.
  intros Hn Hnd Hperm.
  assert (Hsorted : sorted_by_time ps = sorted_by_time ps').
  { apply (StronglySorted_unique_strong (λ p q, time p <= time q)).
    - intros p q Hp Hq H1 H2. apply (distinct_times_inj ps); [done | | | lia].
      + by rewrite <- (sorted_by_time_perm ps).
      + by rewrite Hperm, <- (sorted_by_time_perm ps').
    - apply sorted_by_time_strongly.
    - apply sorted_by_time_strongly.
    - by rewrite !sorted_by_time_perm. }
  unfold _generate_smooth_curve. rewrite <- (Permutation_length Hperm).
  destruct (decide (length ps < 2)%nat); [lia |].
  by rewrite Hsorted.
Qed.

(** The two points and the same two points swapped give one curve. *)
Lemma smooth_curve_order_witness :
  _generate_smooth_curve two_points 0 = _generate_smooth_curve swapped_points 0.
Proof.
  apply smooth_curve_order_independent.
  - unfold two_points. simpl. lia.
  - unfold two_points, seconds. simpl.
    apply NoDup_cons. split; [| apply NoDup_singleton].
    intros H%list_elem_of_singleton. discriminate H.
  - apply Permutation_swap.
Defined.

(** ** The extractor, continued *)

Section ExtractionEdges.

Variable strptime : string → option instant.
Variable float_of_str : string → option Q.
Variable str_of : value → string.

Local Abbreviation scan := (entries_loop strptime float_of_str str_of).
Local Abbreviation valid := (parse_value strptime float_of_str str_of).
Local Abbreviation extracting := (_extract_predictions strptime float_of_str str_of).

(** The loop past a run of well-formed entries. *)
Lemma entries_loop_prefix pre : ∀ rest acc,
  Forall (λ e, entry_ok e = true) pre →
  scan (pre ++ rest) acc = scan rest (acc ++ omap valid pre).
Proof.
  induction pre as [| e pre IH]; intros rest acc Hall.
  - cbn. by rewrite app_nil_r.
  - apply Forall_cons in Hall as [Hok Hall].
    destruct e; try discriminate Hok.
    cbn [app]. rewrite entries_loop_step by done. rewrite IH by done.
    cbn [omap list_omap parse_value].
    destruct (parse_entry strptime float_of_str str_of d); cbn [from_option];
      by rewrite <- app_assoc.
Qed.

(** X12: one entry of [prediccion] that is not a dictionary aborts the whole
    extraction with [AttributeError], whatever the entries before it yielded
    and whatever follows: the [except] of the loop catches [ValueError] and
    [TypeError] only. *)
Theorem extract_non_dict_entry_raises (tide_data daily mareas : dict)
    (pre post : list value) (entry : value) :
  (∀ points, dict_get tide_data "tide_points" = Some points → truthy points = false) →
  dict_get tide_data "daily" = Some (VDict daily) →
  dict_get daily "mareas" = Some (VDict mareas) →
  dict_get mareas "prediccion" = Some (VList (pre ++ entry :: post)) →
  Forall (λ e, entry_ok e = true) pre →
  (∀ d, entry ≠ VDict d) →
  extracting tide_data = Raise AttributeError.
Proof.
  intros Hno Hd Hm Hp Hpre Hentry.
  rewrite (extract_raw_shape _ _ _ _ _ _ _ Hno Hd Hm Hp).
  rewrite entries_loop_prefix by done. cbn [entries_loop].
  destruct entry; try reflexivity. by destruct (Hentry d).
Qed.

(** X13: an entry with a date and time that parse and an integer height too
    large for a float aborts the whole extraction with [OverflowError]. *)
Theorem extract_huge_height_raises (tide_data daily mareas d : dict)
    (pre post : list value) (fecha hora : string) (dt : instant) (n : Z) :
  (∀ points, dict_get tide_data "tide_points" = Some points → truthy points = false) →
  dict_get tide_data "daily" = Some (VDict daily) →
  dict_get daily "mareas" = Some (VDict mareas) →
  dict_get mareas "prediccion" = Some (VList (pre ++ VDict d :: post)) →
  Forall (λ e, entry_ok e = true) pre →
  dict_get d "fecha" = Some (VStr fecha) → dict_get d "hora" = Some (VStr hora) →
  fecha ≠ "" → hora ≠ "" →
  strptime (fecha +:+ " " +:+ hora) = Some dt →
  dict_get d "altura" = Some (VInt n) → float_overflow <= Z.abs n →
  extracting tide_data = Raise OverflowError.
Proof.
  intros Hno Hd Hm Hp Hpre Hf Hh Hfe Hhe Hs Ha Hn.
  rewrite (extract_raw_shape _ _ _ _ _ _ _ Hno Hd Hm Hp).
  rewrite entries_loop_prefix by done. cbn [entries_loop].
  unfold entry_try. run_python. rewrite Hf, Hh. cbn [from_option id truthy].
  apply String.eqb_neq in Hfe, Hhe. rewrite Hfe, Hhe. cbn [negb andb py_format].
  rewrite Hs. run_python. rewrite Ha. cbn [from_option id py_float].
  apply Z.ltb_ge in Hn. rewrite Hn. reflexivity.
Qed.

(** What the loop appends is a dictionary with a [datetime] and a float. *)
Lemma parse_value_typed entry v :
  valid entry = Some v → ∃ dt h, v = prediction_dict dt h.
Proof.
  destruct entry; try discriminate. cbn [parse_value]. unfold parse_entry.
  destruct (dict_get d "fecha"); [| discriminate]. cbn [mbind option_bind].
  destruct (dict_get d "hora"); [| discriminate]. cbn [mbind option_bind].
  destruct (truthy _ && truthy _); [| discriminate].
  destruct (strptime _) as [dt |]; [| discriminate]. cbn [mbind option_bind].
  destruct (py_float _ _) as [h | e]; [| discriminate].
  intros [= <-]. by exists dt, h.
Qed.

Lemma omap_length_le {A B} (f : A → option B) (l : list A) :
  (length (omap f l) ≤ length l)%nat.
Proof.
  induction l as [| x l IH]; [done |]. cbn [omap list_omap].
  destruct (f x); simpl; lia.
Qed.

Lemma as_predictions_typed entries :
  ∃ ps, as_predictions_list (omap valid entries) = Ok ps
        ∧ length ps = length (omap valid entries).
Proof.
  induction entries as [| e entries (ps & E & Hlen)]; [by exists [] |].
  cbn [omap list_omap]. destruct (valid e) as [v |] eqn:Ev; [| by exists ps].
  destruct (parse_value_typed _ _ Ev) as (dt & h & ->).
  exists (Prediction dt h :: ps). cbn. rewrite E. cbn. split; [done | by rewrite Hlen].
Qed.

(** X14: what extraction returns for a well-formed raw payload always passes
    on to the rest of the pipeline: every extracted entry carries a [datetime]
    under ['time'] and a float under ['height'], and there are at most as many
    as raw entries. *)
Theorem extract_raw_is_typed (tide_data daily mareas : dict) (entries : list value) :
  (∀ points, dict_get tide_data "tide_points" = Some points → truthy points = false) →
  dict_get tide_data "daily" = Some (VDict daily) →
  dict_get daily "mareas" = Some (VDict mareas) →
  dict_get mareas "prediccion" = Some (VList entries) →
  Forall (λ e, entry_ok e = true) entries →
  ∃ extracted ps,
    extracting tide_data = Ok extracted
    ∧ as_predictions extracted = Ok ps
    ∧ (length ps ≤ length entries)%nat.
Proof.
  intros Hno Hd Hm Hp Hall.
  rewrite (extract_raw_shape _ _ _ _ _ _ _ Hno Hd Hm Hp).
  rewrite (entries_loop_omap _ _ _ _ _ Hall). cbn [mbind result_bind mret result_ret app].
  destruct (as_predictions_typed entries) as (ps & E & Hlen).
  exists (VList (omap valid entries)), ps. split; [done |]. split; [exact E |].
  rewrite Hlen. apply omap_length_le.
Qed.

End ExtractionEdges.

(** A string between two entries. *)
Lemma extract_non_dict_witness :
  _extract_predictions fixture_strptime fixture_float fixture_str
    (raw_payload [VDict entry_valid; VStr "n/a"; VDict entry_no_height])
  = Raise AttributeError.
Proof.
  apply (extract_non_dict_entry_raises fixture_strptime fixture_float fixture_str
           _ [("mareas", VDict [("prediccion",
                 VList [VDict entry_valid; VStr "n/a"; VDict entry_no_height])])]
           [("prediccion", VList [VDict entry_valid; VStr "n/a"; VDict entry_no_height])]
           [VDict entry_valid] [VDict entry_no_height] (VStr "n/a")).
  - intros points Hp. discriminate Hp.
  - reflexivity.
  - reflexivity.
  - reflexivity.
  - repeat constructor.
  - intros d Hd. discriminate Hd.
Defined.

(** The height [10 ^ 400]. *)
Lemma extract_huge_height_witness :
  _extract_predictions fixture_strptime fixture_float fixture_str
    (raw_payload [VDict (("altura", VInt (10 ^ 400)) :: entry_no_height)])
  = Raise OverflowError.
Proof.
  apply (extract_huge_height_raises fixture_strptime fixture_float fixture_str
           _ [("mareas", VDict [("prediccion",
                 VList [VDict (("altura", VInt (10 ^ 400)) :: entry_no_height)])])]
           [("prediccion", VList [VDict (("altura", VInt (10 ^ 400)) :: entry_no_height)])]
           (("altura", VInt (10 ^ 400)) :: entry_no_height)
           [] [] "2024-01-01" "20:00:00" 1704139200000000 (10 ^ 400)).
  - intros points Hp. discriminate Hp.
  - reflexivity.
  - reflexivity.
  - reflexivity.
  - constructor.
  - reflexivity.
  - reflexivity.
  - discriminate.
  - discriminate.
  - reflexivity.
  - reflexivity.
  - vm_compute. discriminate.
Defined.

(** The mixed payload of the examples gives two typed predictions. *)
Lemma extract_raw_typed_witness :
  ∃ extracted ps,
    _extract_predictions fixture_strptime fixture_float fixture_str mixed_payload
    = Ok extracted
    ∧ as_predictions extracted = Ok ps ∧ (length ps ≤ 4)%nat.
Proof.
  apply (extract_raw_is_typed fixture_strptime fixture_float fixture_str mixed_payload
           [("mareas", VDict [("prediccion",
               VList [VDict entry_valid; VDict entry_bad_time; VDict entry_bad_height;
                      VDict entry_no_height])])]
           [("prediccion",
               VList [VDict entry_valid; VDict entry_bad_time; VDict entry_bad_height;
                      VDict entry_no_height])]
           [VDict entry_valid; VDict entry_bad_time; VDict entry_bad_height;
            VDict entry_no_height]).
  - intros points Hp. discriminate Hp.
  - reflexivity.
  - reflexivity.
  - reflexivity.
  - repeat constructor.
Defined.

(** ** The renderer, continued *)

Lemma py_div_ok a b : ¬ (b == 0)%Q → py_div a b = Ok (a / b)%Q.
Proof.
  intros Hb. unfold py_div. destruct (Qeq_bool b 0) eqn:E; [| done].
  by apply Qeq_bool_iff in E.
Qed.

Lemma py_div_zero a b : (b == 0)%Q → py_div a b = Raise ZeroDivisionError.
Proof. intros Hb. unfold py_div. apply Qeq_bool_iff in Hb. by rewrite Hb. Qed.

Lemma td_total_seconds_nonzero d : d ≠ 0 → ¬ (td_total_seconds d == 0)%Q.
Proof. intros Hd H. apply Qeq_bool_iff, td_total_seconds_zero in H. done. Qed.

(** The padded range is empty exactly when the raw range is. *)
Lemma padded_range_zero lo hi :
  (snd (padded_height_range lo hi) - fst (padded_height_range lo hi) == 0)%Q
  ↔ (lo == hi)%Q.
Proof. unfold padded_height_range. cbn [fst snd]. split; intros H; lra. Qed.

Section RenderingFacts.

Variable print_svg : list svg_part → string.

(** With mappers that do not raise, neither loop of the renderer does. *)
Lemma path_loop_total (to_x : instant → result Q) (to_y : Q → result Q) curve :
  (∀ t, ∃ x, to_x t = Ok x) → (∀ h, ∃ y, to_y h = Ok y) →
  ∀ acc, ∃ points, path_loop to_x to_y curve acc = Ok points.
Proof.
  intros Hx Hy. induction curve as [| p curve IH]; intros acc; [by eexists |].
  cbn [path_loop]. destruct (Hx (time p)) as [x ->]. destruct (Hy (height p)) as [y ->].
  cbn [mbind result_bind]. apply IH.
Qed.

Lemma extremes_markers_total self colors (to_x : instant → result Q)
    (to_y : Q → result Q) extremes :
  (∀ t, ∃ x, to_x t = Ok x) → (∀ h, ∃ y, to_y h = Ok y) →
  ∀ acc, ∃ parts, extremes_markers self colors to_x to_y extremes acc = Ok parts.
Proof.
  intros Hx Hy. induction extremes as [| e extremes IH]; intros acc; [by eexists |].
  cbn [extremes_markers]. destruct (Hx (etime e)) as [x ->].
  destruct (Hy (eheight e)) as [y ->]. cbn [mbind result_bind]. apply IH.
Qed.

(** The renderer on a curve that is not empty. *)
Lemma svg_plot_cases (self : plot_manager) (p0 : prediction)
    (ps : list prediction) (extremes : list extreme) (current_time : instant)
    (current_height : option Q) (original_predictions : list prediction) :
  let min_time := min_time_of (time p0) (time <$> ps) in
  let max_time := max_time_of (time p0) (time <$> ps) in
  let min_height := min_height_of (height p0) (height <$> ps) in
  let max_height := max_height_of (height p0) (height <$> ps) in
  let plot := _generate_svg_plot print_svg self (p0 :: ps) extremes current_time
                current_height original_predictions in
  (min_time = max_time ∨ (min_height == max_height)%Q →
   plot = Raise ZeroDivisionError)
  ∧ (min_time ≠ max_time → ¬ (min_height == max_height)%Q →
     ∃ parts, plot = Ok (print_svg parts)).
Proof.
  intros min_time max_time min_height max_height plot.
  subst plot. unfold _generate_svg_plot.
  fold min_time max_time min_height max_height.
  pose proof (padded_range_zero min_height max_height) as Hpad.
  destruct (padded_height_range min_height max_height) as [lo hi] eqn:Ep.
  cbn [fst snd] in Hpad. cbn zeta.
  set (to_x := time_to_x min_time max_time 60 (800 - 2 * 60)).
  set (to_y := height_to_y lo hi 400 60 (400 - 2 * 60)).
  assert (Hx_ok : min_time ≠ max_time → ∀ t, ∃ x, to_x t = Ok x).
  { intros Hne t. unfold to_x, time_to_x.
    assert (Hnz : ¬ (td_total_seconds (max_time - min_time) == 0)%Q)
      by (apply td_total_seconds_nonzero; lia).
    eexists. rewrite (py_div_ok _ _ Hnz). reflexivity. }
  assert (Hy_ok : ¬ (min_height == max_height)%Q → ∀ h, ∃ y, to_y h = Ok y).
  { intros Hne h. unfold to_y, height_to_y.
    assert (Hnz : ¬ (hi - lo == 0)%Q) by (by rewrite Hpad).
    eexists. rewrite (py_div_ok _ _ Hnz). reflexivity. }
  split.
  - intros Hdeg. cbn [path_loop].
    destruct (decide (min_time = max_time)) as [Heq | Hne].
    + assert (Hraise : to_x (time p0) = Raise ZeroDivisionError).
      { unfold to_x, time_to_x. replace (max_time - min_time) with 0 by lia.
        by rewrite py_div_zero. }
      by rewrite Hraise.
    + destruct Hdeg as [? | Hflat]; [done |].
      destruct (Hx_ok Hne (time p0)) as [x ->]. cbn [mbind result_bind].
      assert (Hraise : to_y (height p0) = Raise ZeroDivisionError).
      { unfold to_y, height_to_y. rewrite py_div_zero by (by apply Hpad). done. }
      by rewrite Hraise.
  - intros Hne Hnf.
    destruct (path_loop_total to_x to_y (p0 :: ps) (Hx_ok Hne) (Hy_ok Hnf) [])
      as [points ->].
    cbn [mbind result_bind].
    destruct (Hy_ok Hnf lo) as [bottom ->]. cbn [mbind result_bind].
    destruct (Hx_ok Hne max_time) as [right ->]. cbn [mbind result_bind].
    destruct (Hx_ok Hne min_time) as [left ->]. cbn [mbind result_bind].
    destruct current_height as [h |].
    + destruct (Hx_ok Hne current_time) as [cx ->]. cbn [mbind result_bind].
      destruct (Hy_ok Hnf h) as [cy ->]. cbn [mbind result_bind mret result_ret].
      match goal with
      | |- context [extremes_markers self ?c to_x to_y extremes ?acc] =>
          destruct (extremes_markers_total self c to_x to_y extremes
                      (Hx_ok Hne) (Hy_ok Hnf) acc) as [parts ->]
      end.
      cbn [mbind result_bind]. by eexists.
    + cbn [mbind result_bind mret result_ret].
      match goal with
      | |- context [extremes_markers self ?c to_x to_y extremes ?acc] =>
          destruct (extremes_markers_total self c to_x to_y extremes
                      (Hx_ok Hne) (Hy_ok Hnf) acc) as [parts ->]
      end.
      cbn [mbind result_bind]. by eexists.
Qed.

(** X15: for a curve that is not empty the renderer raises exactly when the
    curve is degenerate: it raises [ZeroDivisionError] when all its times
    coincide or all its heights coincide, and returns the printed plot
    otherwise. *)
Theorem svg_plot_fails_iff_degenerate (self : plot_manager) (p0 : prediction)
    (ps : list prediction) (extremes : list extreme) (current_time : instant)
    (current_height : option Q) (original_predictions : list prediction) :
  let min_time := min_time_of (time p0) (time <$> ps) in
  let max_time := max_time_of (time p0) (time <$> ps) in
  let min_height := min_height_of (height p0) (height <$> ps) in
  let max_height := max_height_of (height p0) (height <$> ps) in
  let plot := _generate_svg_plot print_svg self (p0 :: ps) extremes current_time
                current_height original_predictions in
  (min_time = max_time ∨ (min_height == max_height)%Q →
   plot = Raise ZeroDivisionError)
  ∧ (min_time ≠ max_time → ¬ (min_height == max_height)%Q →
     ∃ parts, plot = Ok (print_svg parts)).
Proof. apply svg_plot_cases. Qed.

End RenderingFacts.

(** Two points of one height, six seconds apart. *)
Lemma svg_plot_degenerate_witness :
  _generate_svg_plot fixture_print harbour
    [Prediction (seconds 0) 1; Prediction (seconds 6) 1] [] (seconds 0) None []
  = Raise ZeroDivisionError.
Proof.
  apply (svg_plot_fails_iff_degenerate fixture_print harbour (Prediction (seconds 0) 1)
           [Prediction (seconds 6) 1] [] (seconds 0) None []).
  right. reflexivity.
Defined.

(** X16: over a time span that is not empty, [time_to_x] maps the span onto
    the width of the plot: the earliest time to the left margin, the latest to
    the left margin plus the plot width, times in between to abscissas in
    between, later times further right. *)
Theorem time_to_x_spans_plot (min_time max_time : instant) (margin plot_width : Z)
    (t t' : instant) :
  min_time < max_time → 0 <= plot_width →
  min_time <= t → t <= t' → t' <= max_time →
  ∃ x x' x_min x_max,
    time_to_x min_time max_time margin plot_width t = Ok x
    ∧ time_to_x min_time max_time margin plot_width t' = Ok x'
    ∧ time_to_x min_time max_time margin plot_width min_time = Ok x_min
    ∧ time_to_x min_time max_time margin plot_width max_time = Ok x_max
    ∧ (x_min == inject_Z margin)%Q
    ∧ (x_max == inject_Z margin + inject_Z plot_width)%Q
    ∧ (x_min <= x)%Q ∧ (x <= x')%Q ∧ (x' <= x_max)%Q.
Proof.
  intros Hspan Hw Ht Htt Ht'.
  assert (Hnz : ¬ (td_total_seconds (max_time - min_time) == 0)%Q)
    by (apply td_total_seconds_nonzero; lia).
  assert (Hd : (0 < inject_Z (max_time - min_time))%Q).
  { change 0%Q with (inject_Z 0). rewrite <- Zlt_Qlt. lia. }
  assert (HW : (0 <= inject_Z plot_width)%Q).
  { change 0%Q with (inject_Z 0). by rewrite <- Zle_Qle. }
  assert (Hmono : ∀ a b, a <= b →
            (inject_Z margin
             + td_total_seconds (a - min_time) / td_total_seconds (max_time - min_time)
               * inject_Z plot_width
             <= inject_Z margin
                + td_total_seconds (b - min_time) / td_total_seconds (max_time - min_time)
                  * inject_Z plot_width)%Q).
  { intros a b Hab. rewrite !td_ratio by lia.
    apply Qplus_le_r. apply Qmult_le_compat_r; [| done].
    apply Qmult_le_compat_r; [rewrite <- Zle_Qle; lia |].
    apply Qlt_le_weak, Qinv_lt_0_compat, Hd. }
  unfold time_to_x. rewrite !(py_div_ok _ _ Hnz). cbn [mbind result_bind mret result_ret].
  do 4 eexists. repeat (split; [reflexivity |]).
  split; [| split; [| split; [| split]]].
  - rewrite td_ratio by lia. rewrite Z.sub_diag. field.
    intros H. rewrite H in Hd. by apply Qlt_irrefl in Hd.
  - rewrite td_ratio by lia. field.
    intros H. rewrite H in Hd. by apply Qlt_irrefl in Hd.
  - by apply Hmono.
  - by apply Hmono.
  - by apply Hmono.
Qed.

(** On the canvas of the renderer, from 08:00 to 20:00: noon and 14:00. *)
Lemma time_to_x_witness :
  ∃ x x' x_min x_max,
    time_to_x (seconds 28800) (seconds 72000) 60 680 (seconds 43200) = Ok x
    ∧ time_to_x (seconds 28800) (seconds 72000) 60 680 (seconds 50400) = Ok x'
    ∧ time_to_x (seconds 28800) (seconds 72000) 60 680 (seconds 28800) = Ok x_min
    ∧ time_to_x (seconds 28800) (seconds 72000) 60 680 (seconds 72000) = Ok x_max
    ∧ (x_min == 60)%Q ∧ (x_max == 60 + 680)%Q
    ∧ (x_min <= x)%Q ∧ (x <= x')%Q ∧ (x' <= x_max)%Q.
Proof.
  apply (time_to_x_spans_plot (seconds 28800) (seconds 72000) 60 680
           (seconds 43200) (seconds 50400)); unfold seconds; lia.
Defined.

(** X17: over a height range that is not empty, [height_to_y] maps the range
    onto the height of the plot, upside down: the lower bound to the bottom
    line, the upper bound to the top line, heights in between to ordinates in
    between, greater heights higher up. *)
Theorem height_to_y_spans_plot (min_height max_height : Q)
    (svg_height margin plot_height : Z) (h h' : Q) :
  (min_height < max_height)%Q → 0 <= plot_height →
  (min_height <= h)%Q → (h <= h')%Q → (h' <= max_height)%Q →
  let to_y := height_to_y min_height max_height svg_height margin plot_height in
  ∃ y y' y_min y_max,
    to_y h = Ok y ∧ to_y h' = Ok y'
    ∧ to_y min_height = Ok y_min ∧ to_y max_height = Ok y_max
    ∧ (y_min == inject_Z (svg_height - margin))%Q
    ∧ (y_max == inject_Z (svg_height - margin) - inject_Z plot_height)%Q
    ∧ (y_max <= y')%Q ∧ (y' <= y)%Q ∧ (y <= y_min)%Q.
Proof.
  intros Hrange Hp Hlo Hhh Hhi to_y. subst to_y. unfold height_to_y.
  assert (Hnz : ¬ (max_height - min_height == 0)%Q) by lra.
  assert (HP : (0 <= inject_Z plot_height)%Q).
  { change 0%Q with (inject_Z 0). by rewrite <- Zle_Qle. }
  rewrite !(py_div_ok _ _ Hnz). cbn [mbind result_bind mret result_ret].
  do 4 eexists. repeat (split; [reflexivity |]).
  assert (Hinv : (0 < / (max_height - min_height))%Q)
    by (apply Qinv_lt_0_compat; lra).
  assert (Hq : ∀ a b, (a <= b)%Q →
                      ((a - min_height) / (max_height - min_height)
                       <= (b - min_height) / (max_height - min_height))%Q).
  { intros a b Hab. apply Qmult_le_compat_r; [lra | by apply Qlt_le_weak]. }
  assert (H0 : ((min_height - min_height) / (max_height - min_height) == 0)%Q)
    by (field; lra).
  assert (H1 : ((max_height - min_height) / (max_height - min_height) == 1)%Q)
    by (field; lra).
  pose proof (Hq min_height h Hlo) as Ha. rewrite H0 in Ha.
  pose proof (Hq h h' Hhh) as Hb.
  pose proof (Hq h' max_height Hhi) as Hc. rewrite H1 in Hc.
  rewrite H0, H1.
  set (u := ((h - min_height) / (max_height - min_height))%Q) in *.
  set (u' := ((h' - min_height) / (max_height - min_height))%Q) in *.
  split; [ring |]. split; [ring |].
  split; [| split]; nra.
Qed.

(** Heights 1 and 2 of a range from 0 to 3 on the canvas of the renderer. *)
Lemma height_to_y_witness :
  ∃ y y' y_min y_max,
    height_to_y 0 3 400 60 280 1 = Ok y
    ∧ height_to_y 0 3 400 60 280 2 = Ok y'
    ∧ height_to_y 0 3 400 60 280 0 = Ok y_min
    ∧ height_to_y 0 3 400 60 280 3 = Ok y_max
    ∧ (y_min == 340)%Q ∧ (y_max == 340 - 280)%Q
    ∧ (y_max <= y')%Q ∧ (y' <= y)%Q ∧ (y <= y_min)%Q.
Proof.
  apply (height_to_y_spans_plot 0 3 400 60 280 1 2); [done | lia | done | done | done].
Defined.

(** The five ratios [i / 4] are doubles. *)
Lemma quarter_ratios :
  fdiv (inject_Z 0) 4 = 0%Q ∧ fdiv (inject_Z 1) 4 = (1 # 4)%Q
  ∧ fdiv (inject_Z 2) 4 = (1 # 2)%Q ∧ fdiv (inject_Z 3) 4 = (3 # 4)%Q
  ∧ fdiv (inject_Z 4) 4 = 1%Q.
Proof. repeat split; by vm_compute. Qed.

(** X18: the axis labels are twelve parts.  The five time ticks are labelled
    from the earliest time to the latest exactly, the rounding to microseconds
    notwithstanding, and never decrease; the five height ticks start at the
    lower bound of the height range, never decrease, and end at the upper
    bound up to the rounding of the three operations behind the label:
    within [2^-49] of the size of the bounds (and [2^-1073] among the
    subnormal numbers). *)
Theorem axes_labels_span_domain (margin plot_width plot_height width height : Z)
    (min_time max_time : instant) (min_height max_height M : Q) (text_color : string) :
  min_time <= max_time → (min_height <= max_height)%Q →
  is_double min_height → (Qabs min_height <= M)%Q → (Qabs max_height <= M)%Q →
  let labels := _generate_axes_labels_f64 margin plot_width plot_height width height
                  min_time max_time min_height max_height text_color in
  length labels = 12%nat
  ∧ (∃ t1 t2 t3,
       omap tick_time labels = [min_time; t1; t2; t3; max_time]
       ∧ min_time <= t1 ∧ t1 <= t2 ∧ t2 <= t3 ∧ t3 <= max_time)
  ∧ (∃ h0 h1 h2 h3 h4,
       omap tick_height labels = [h0; h1; h2; h3; h4]
       ∧ (h0 == min_height)%Q
       ∧ (h0 <= h1)%Q ∧ (h1 <= h2)%Q ∧ (h2 <= h3)%Q ∧ (h3 <= h4)%Q
       ∧ (Qabs (h4 - max_height) <= M * 2 ^ (-49) + 2 ^ (-1073))%Q).
Proof.
  intros Hspan Hrange Hdbl Hlo Hhi labels. subst labels.
  unfold _generate_axes_labels_f64.
  cbn [fmap list_fmap app length omap list_omap tick_time tick_height].
  destruct quarter_ratios as (R0 & R1 & R2 & R3 & R4). rewrite R0, R1, R2, R3, R4.
  split; [reflexivity |]. split.
  - set (d := max_time - min_time).
    assert (Hd : (0 <= inject_Z d)%Q).
    { change 0%Q with (inject_Z 0). rewrite <- Zle_Qle. subst d. lia. }
    assert (Hmono : ∀ a b, (a <= b)%Q →
              round_half_even (inject_Z d * a) <= round_half_even (inject_Z d * b)).
    { intros a b Hab. apply round_half_even_mono. nra. }
    assert (H0 : round_half_even (inject_Z d * 0) = 0).
    { apply round_half_even_integer. ring. }
    assert (H4 : round_half_even (inject_Z d * 1) = d).
    { apply round_half_even_integer. ring. }
    pose proof (Hmono 0 (1 # 4) ltac:(done))%Q. pose proof (Hmono (1 # 4) (1 # 2) ltac:(done))%Q.
    pose proof (Hmono (1 # 2) (3 # 4) ltac:(done))%Q. pose proof (Hmono (3 # 4) 1 ltac:(done))%Q.
    rewrite H0, H4 in *. do 3 eexists.
    split; [f_equal; [lia | do 4 f_equal; subst d; lia] |].
    lia.
  - do 5 eexists. split; [reflexivity |].
    set (d := fsub max_height min_height).
    assert (Hd0 : (0 <= d)%Q) by (apply round64_nonneg; lra).
    assert (Hm : ∀ a b, (a <= b)%Q →
              (fadd min_height (fmul d a) <= fadd min_height (fmul d b))%Q).
    { intros a b Hab. apply round64_mono.
      assert (fmul d a <= fmul d b)%Q by (apply round64_mono; nra). lra. }
    split.
    { unfold is_double in Hdbl. unfold fadd, fmul.
      transitivity (round64 min_height); [| exact Hdbl].
      apply round64_proper.
      assert (Ez : (round64 (d * 0) == 0)%Q) by (apply round64_zero; ring).
      rewrite Ez. ring. }
    repeat (split; [by apply Hm |]).
    by apply right_end_close.
Qed.

(** The ticks of a day from 08:00 to 20:00, heights from 0.1 to 4.1. *)
Lemma axes_labels_witness :
  ∃ t1 t2 t3,
    omap tick_time (_generate_axes_labels_f64 60 680 280 800 400 (seconds 28800)
                      (seconds 72000) (round64 (1 # 10)) (round64 (41 # 10)) "black")
    = [seconds 28800; t1; t2; t3; seconds 72000].
Proof.
  destruct (axes_labels_span_domain 60 680 280 800 400 (seconds 28800) (seconds 72000)
              (round64 (1 # 10)) (round64 (41 # 10)) 5 "black")
    as (_ & (t1 & t2 & t3 & E & _) & _).
  - unfold seconds. lia.
  - by vm_compute.
  - by vm_compute.
  - by vm_compute.
  - by vm_compute.
  - by exists t1, t2, t3.
Defined.

(** On the padded range of the heights 0.2 and 4.1 the last height tick is
    4.49, the double above the upper bound 4.489999999999999. *)
Lemma axes_labels_last_tick_rounds :
  let padded := padded_height_range_f64 (round64 (2 # 10)) (round64 (41 # 10)) in
  omap tick_height (_generate_axes_labels_f64 60 680 280 800 400 (seconds 28800)
                      (seconds 72000) (fst padded) (snd padded) "black")
    !! 4%nat
  = Some (2527645290861691 # 562949953421312)
  ∧ snd padded = (5055290581723381 # 1125899906842624).
Proof. split; by vm_compute. Qed.

(** ** The sink writer, continued *)

(** X19: the sink writer reports a failed write by [False] and stops there.
    When the path with the [.svg] extension cannot be opened nothing is
    written; when that one can and the configured path cannot, the first file
    stays on disk although the result is [False]. *)
Theorem save_failure_modes (self : plot_manager) (svg_content : string) (fs : filesystem) :
  let alt := py_replace (_filename self) ".png" ".svg" in
  (alt ∈ denied fs → _save_svg_as_png self svg_content fs = (false, fs))
  ∧ (alt ∉ denied fs → _filename self ∈ denied fs →
     _save_svg_as_png self svg_content fs
     = (false, {| files := <[alt := svg_content]> (files fs); denied := denied fs |})).
Proof.
  intros alt. subst alt. unfold _save_svg_as_png, write_file. split.
  - intros Hd. by destruct (decide (_ ∈ denied fs)).
  - intros Ha Hd. destruct (decide (_ ∈ denied fs)) as [? | _]; [done |].
    cbn [denied]. by destruct (decide (_filename self ∈ denied fs)).
Qed.

(** [tide.svg] can be written and [tide.png] cannot. *)
Lemma save_failure_witness :
  _save_svg_as_png harbour "<svg/>" {| files := ∅; denied := {["tide.png"]} |}
  = (false, {| files := {["tide.svg" := "<svg/>"]}; denied := {["tide.png"]} |}).
Proof.
  destruct (save_failure_modes harbour "<svg/>"
              {| files := ∅; denied := {["tide.png"]} |}) as [_ Hsecond].
  apply Hsecond.
  - cbn. intros H%elem_of_singleton. discriminate H.
  - cbn. by apply elem_of_singleton.
Defined.

(** A string in which [old] does not occur is left alone. *)
Lemma replace_absent old new s : occurs_in old s = false → py_replace s old new = s.
Proof.
  unfold py_replace. induction s as [| c s IH]; [done |].
  cbn [occurs_in replace_from]. intros [Hp Ho]%orb_false_iff.
  cbn [occurs_in] in Hp. rewrite Hp. f_equal. by apply IH.
Qed.

(** X20: when [.png] does not occur in the configured file name, the two
    writes go to that one path: a successful save adds or replaces that file
    and no other. *)
Theorem save_without_png_writes_one_file (self : plot_manager) (svg_content : string)
    (fs : filesystem) :
  occurs_in ".png" (_filename self) = false →
  _filename self ∉ denied fs →
  _save_svg_as_png self svg_content fs
  = (true, {| files := <[_filename self := svg_content]> (files fs);
              denied := denied fs |}).
Proof.
  intros Hno Hd. unfold _save_svg_as_png, write_file.
  rewrite (replace_absent _ _ _ Hno).
  destruct (decide (_ ∈ denied fs)) as [? | _]; [done |]. cbn [denied files].
  destruct (decide (_ ∈ denied fs)) as [? | _]; [done |].
  by rewrite insert_insert_eq.
Qed.

(** A renderer configured with [tide.svg]. *)
Lemma save_without_png_witness :
  _save_svg_as_png (PlotManager "Harbour" "tide.svg" false false) "<svg/>" empty_disk
  = (true, {| files := {["tide.svg" := "<svg/>"]}; denied := ∅ |}).
Proof.
  apply (save_without_png_writes_one_file
           (PlotManager "Harbour" "tide.svg" false false) "<svg/>" empty_disk).
  - reflexivity.
  - cbn. apply not_elem_of_empty.
Defined.

(** No occurrence of [.png] straddles the end of a stem and the extension
    appended to it. *)
Lemma prefix_cons a b s1 s2 :
  String.prefix (String a s1) (String b s2)
  = if Ascii.ascii_dec a b then String.prefix s1 s2 else false.
Proof. reflexivity. Qed.

Lemma append_cons c s t : String c s +:+ t = String c (s +:+ t).
Proof. reflexivity. Qed.

Lemma append_empty t : "" +:+ t = t.
Proof. reflexivity. Qed.

Lemma png_prefix_append c s :
  String.prefix ".png" (String c s) = false →
  String.prefix ".png" (String c s +:+ ".png") = false.
Proof.
  intros Hp.
  destruct s as [| c2 [| c3 [| c4 s]]]; rewrite ?append_cons, ?append_empty;
    rewrite ?prefix_cons in *;
    repeat match goal with
           | |- context [Ascii.ascii_dec ?a ?b] =>
               destruct (Ascii.ascii_dec a b) as [E | E];
               [try discriminate E; subst | ]; rewrite ?prefix_cons in *; try done
           end.
  destruct s; discriminate Hp.
Qed.

Lemma replace_png_suffix stem :
  occurs_in ".png" stem = false →
  py_replace (stem +:+ ".png") ".png" ".svg" = stem +:+ ".svg".
Proof.
  unfold py_replace. induction stem as [| c s IH]; [done |].
  intros Hocc. cbn [occurs_in] in Hocc. apply orb_false_iff in Hocc as [Hp Ho].
  pose proof (png_prefix_append c s Hp) as Hp'.
  rewrite !append_cons in *.
  cbn [replace_from]. rewrite Hp'. f_equal. by apply IH.
Qed.

(** X21: for a file name made of a stem without [.png] and the extension
    [.png], a save on writable paths leaves the markup under the file name and
    under the stem with the extension [.svg]. *)
Theorem save_png_name_writes_svg_sibling (name stem svg_content : string)
    (transparent dark : bool) (fs : filesystem) :
  occurs_in ".png" stem = false →
  (stem +:+ ".svg") ∉ denied fs → (stem +:+ ".png") ∉ denied fs →
  _save_svg_as_png (PlotManager name (stem +:+ ".png") transparent dark) svg_content fs
  = (true, {| files := <[stem +:+ ".png" := svg_content]>
                         (<[stem +:+ ".svg" := svg_content]> (files fs));
              denied := denied fs |}).
Proof.
  intros Hstem Hsvg Hpng. unfold _save_svg_as_png, write_file. cbn [_filename].
  rewrite (replace_png_suffix _ Hstem).
  destruct (decide (_ ∈ denied fs)) as [? | _]; [done |]. cbn [denied files].
  by destruct (decide (_ ∈ denied fs)) as [? | _].
Qed.

(** A file name with a dot in its directory. *)
Lemma save_png_name_witness :
  _save_svg_as_png (PlotManager "Harbour" "www.local/tide.png" false false) "<svg/>"
    empty_disk
  = (true, {| files := <["www.local/tide.png" := "<svg/>"]>
                         (<["www.local/tide.svg" := "<svg/>"]> ∅);
              denied := ∅ |}).
Proof.
  apply (save_png_name_writes_svg_sibling "Harbour" "www.local/tide" "<svg/>" false false
           empty_disk).
  - reflexivity.
  - cbn. apply not_elem_of_empty.
  - cbn. apply not_elem_of_empty.
Defined.

(** ** The public operation *)

(** What a save that returns [True] has written. *)
Lemma save_true_inv self svg_content fs fs' :
  _save_svg_as_png self svg_content fs = (true, fs') →
  fs' = {| files := <[_filename self := svg_content]>
                      (<[py_replace (_filename self) ".png" ".svg" := svg_content]>
                         (files fs));
           denied := denied fs |}.
Proof.
  unfold _save_svg_as_png, write_file.
  destruct (decide (_ ∈ denied fs)); [discriminate |]. cbn [denied files].
  destruct (decide (_ ∈ denied fs)); [discriminate |]. by intros [= <-].
Qed.

(** A typed view has one prediction per entry. *)
Lemma as_predictions_list_length l ps :
  as_predictions_list l = Ok ps → length ps = length l.
Proof.
  revert ps. induction l as [| v l IH]; intros ps; cbn; [by intros [= <-] |].
  destruct (as_prediction v); [| discriminate]. cbn.
  destruct (as_predictions_list l) as [ps' |]; [| discriminate]. cbn.
  intros [= <-]. cbn. f_equal. by apply IH.
Qed.

Lemma as_predictions_nonempty extracted ps :
  truthy extracted = true → as_predictions extracted = Ok ps → ps ≠ [].
Proof.
  destruct extracted; try discriminate. cbn. intros Ht E ->.
  apply as_predictions_list_length in E. destruct l; [discriminate | discriminate].
Qed.

(** The synthesizer never raises, and keeps a series that is not empty so. *)
Lemma smooth_curve_total ps t :
  ∃ curve, _generate_smooth_curve ps t = Ok curve ∧ (ps ≠ [] → curve ≠ []).
Proof.
  destruct (decide (length ps < 2)%nat) as [Hlt | Hge].
  - exists ps. split; [| done]. unfold _generate_smooth_curve.
    by destruct (decide (length ps < 2)%nat).
  - destruct (smooth_curve_segments ps t) as (final & _ & E); [lia |].
    eexists. split; [exact E |]. intros _ H. by apply app_eq_nil in H as [_ ?].
Qed.

(** Extents of heights that are all one height. *)
Lemma min_height_of_constant h h0 l :
  (h0 == h)%Q → Forall (λ x, (x == h)%Q) l → (min_height_of h0 l == h)%Q.
Proof.
  intros H0 Hall. revert h0 H0. unfold min_height_of.
  induction Hall as [| x l Hx _ IH]; intros h0 H0; [done |].
  cbn [foldl]. apply IH. unfold Qmin. by destruct (Qle_bool h0 x).
Qed.

Lemma max_height_of_constant h h0 l :
  (h0 == h)%Q → Forall (λ x, (x == h)%Q) l → (max_height_of h0 l == h)%Q.
Proof.
  intros H0 Hall. revert h0 H0. unfold max_height_of.
  induction Hall as [| x l Hx _ IH]; intros h0 H0; [done |].
  cbn [foldl]. apply IH. unfold Qmax. by destruct (Qle_bool x h0).
Qed.

(** The curve of a series of one height has that height throughout. *)
Lemma smooth_curve_constant ps t curve h :
  Forall (λ p, (height p == h)%Q) ps →
  _generate_smooth_curve ps t = Ok curve →
  Forall (λ c, (height c == h)%Q) curve.
Proof.
  intros Hall E. destruct (decide (length ps < 2)%nat) as [Hlt | Hge].
  - unfold _generate_smooth_curve in E.
    destruct (decide (length ps < 2)%nat); [| lia]. by injection E as <-.
  - destruct (smooth_curve_segments ps t) as (final & Hl & E'); [lia |].
    rewrite E' in E. injection E as <-.
    assert (Hsorted : ∀ i p, sorted_by_time ps !! i = Some p → (height p == h)%Q).
    { intros i p Hp. rewrite Forall_forall in Hall. apply Hall.
      rewrite <- (sorted_by_time_perm ps). by eapply list_elem_of_lookup_2. }
    apply Forall_app. split.
    + apply Forall_forall. intros c Hc.
      destruct (segments_elem _ _ Hc) as (i & p1 & p2 & H1 & H2 & Hin).
      pose proof (Hsorted _ _ H1). pose proof (Hsorted _ _ H2).
      destruct (segment_heights_between _ _ _ Hin); lra.
    + constructor; [| constructor]. rewrite last_lookup in Hl. by eapply Hsorted.
Qed.

Lemma interpolate_total ps q : ∃ r, _interpolate_current_height ps q = Ok r.
Proof.
  destruct (interpolate_cases ps q)
    as [(i & p1 & p2 & _ & _ & _ & _ & E) | [_ E]]; rewrite E; by eexists.
Qed.

Section GenerateFacts.

Variable strptime : string → option instant.
Variable float_of_str : string → option Q.
Variable str_of : value → string.
Variable print_svg : list svg_part → string.
Variable now : instant.

Local Abbreviation generate :=
  (generate_tide_plot strptime float_of_str str_of print_svg now).

(** What the renderer returns for a curve that is not empty is a printed
    plot. *)
Lemma svg_plot_ok_is_printed self p0 ps extremes t h original svg_content :
  _generate_svg_plot print_svg self (p0 :: ps) extremes t h original = Ok svg_content →
  ∃ parts, svg_content = print_svg parts.
Proof.
  intros E.
  destruct (svg_plot_cases print_svg self p0 ps extremes t h original) as [Hdeg Hok].
  cbn zeta in Hdeg, Hok.
  destruct (decide (min_time_of (time p0) (time <$> ps)
                    = max_time_of (time p0) (time <$> ps))) as [Heq | Hne].
  { rewrite Hdeg in E by (by left). discriminate E. }
  destruct (Qeq_dec (min_height_of (height p0) (height <$> ps))
              (max_height_of (height p0) (height <$> ps))) as [Hflat | Hnf].
  { rewrite Hdeg in E by (by right). discriminate E. }
  destruct (Hok Hne Hnf) as [parts E']. rewrite E' in E. injection E as <-.
  by exists parts.
Qed.

(** The steps of a run that reached the sink writer. *)
Lemma generate_try_sink self tide_data t fs r :
  generate_try strptime float_of_str str_of print_svg self tide_data t fs = Ok r →
  r = (false, fs)
  ∨ ∃ parts, r = _save_svg_as_png self (print_svg parts) fs.
Proof.
  unfold generate_try.
  destruct (_extract_predictions _ _ _ tide_data) as [extracted |]; [| discriminate].
  cbn [mbind result_bind].
  destruct (truthy extracted) eqn:Ht; cbn [negb]; [| intros [= <-]; by left].
  destruct (as_predictions extracted) as [ps |] eqn:Ep; [| discriminate].
  cbn [mbind result_bind].
  destruct (smooth_curve_total ps t) as (curve & -> & Hcurve).
  cbn [mbind result_bind].
  destruct (_find_extremes ps) as [extremes |]; [| discriminate]. cbn [mbind result_bind].
  destruct (_interpolate_current_height ps t) as [h |]; [| discriminate].
  cbn [mbind result_bind].
  destruct (_generate_svg_plot _ _ _ _ _ _ _) as [svg_content |] eqn:Es; [| discriminate].
  cbn [mbind result_bind mret result_ret]. intros [= <-]. right.
  destruct curve as [| c0 cs].
  { destruct Hcurve; [| done]. by apply (as_predictions_nonempty extracted). }
  destruct (svg_plot_ok_is_printed _ _ _ _ _ _ _ _ Es) as [parts ->]. by exists parts.
Qed.

(** X22: when the operation returns [True], a printed plot, never the error
    document, has been written to the configured path and to the path with
    [.png] replaced by [.svg], and nothing else has changed on disk. *)
Theorem generate_success_writes_plot (self : plot_manager) (tide_data : dict)
    (current_time : option instant) (fs fs' : filesystem) :
  generate self tide_data current_time fs = (true, fs') →
  ∃ parts,
    fs' = {| files := <[_filename self := print_svg parts]>
                        (<[py_replace (_filename self) ".png" ".svg" := print_svg parts]>
                           (files fs));
             denied := denied fs |}.
Proof.
  unfold generate_tide_plot.
  destruct (negb (truthy (VDict tide_data))); [discriminate |].
  destruct (generate_try _ _ _ _ _ _ _ _) as [r |] eqn:E; [| discriminate].
  intros ->. apply generate_try_sink in E as [E | [parts E]]; [discriminate |].
  exists parts. by apply save_true_inv.
Qed.

(** X24: a payload that yields a single prediction is never plotted: the time
    span of the curve is zero, the renderer raises, and the operation returns
    [False] without writing. *)
Theorem generate_single_prediction_fails (self : plot_manager) (tide_data : dict)
    (current_time : option instant) (fs : filesystem) (extracted : value)
    (p : prediction) :
  _extract_predictions strptime float_of_str str_of tide_data = Ok extracted →
  as_predictions extracted = Ok [p] →
  generate self tide_data current_time fs = (false, fs).
Proof.
  intros He Hp. unfold generate_tide_plot.
  destruct (negb (truthy (VDict tide_data))); [done |].
  unfold generate_try. rewrite He. cbn [mbind result_bind].
  destruct (truthy extracted); cbn [negb]; [| done].
  rewrite Hp. cbn [mbind result_bind].
  change (_generate_smooth_curve [p] _) with (Ok [p] : result (list prediction)).
  cbn [mbind result_bind].
  change (_find_extremes [p]) with (Ok [] : result (list extreme)).
  change (_interpolate_current_height [p] _) with (Ok None : result (option Q)).
  cbn [mbind result_bind].
  destruct (svg_plot_cases print_svg self p [] [] (from_option id now current_time)
              None [p]) as [Hdeg _].
  cbn zeta in Hdeg. rewrite Hdeg by (by left). reflexivity.
Qed.

(** X25: predictions that all have one height are never plotted: the height
    range of the curve is empty, the renderer raises, and the operation
    returns [False] without writing. *)
Theorem generate_constant_heights_fails (self : plot_manager) (tide_data : dict)
    (current_time : option instant) (fs : filesystem) (extracted : value)
    (ps : list prediction) (h : Q) :
  _extract_predictions strptime float_of_str str_of tide_data = Ok extracted →
  as_predictions extracted = Ok ps →
  Forall (λ p, (height p == h)%Q) ps →
  generate self tide_data current_time fs = (false, fs).
Proof.
  intros He Hp Hall. unfold generate_tide_plot.
  destruct (negb (truthy (VDict tide_data))); [done |].
  unfold generate_try. rewrite He. cbn [mbind result_bind].
  destruct (truthy extracted) eqn:Ht; cbn [negb]; [| done].
  rewrite Hp. cbn [mbind result_bind].
  destruct (smooth_curve_total ps (from_option id now current_time))
    as (curve & Ec & Hcurve).
  rewrite Ec. cbn [mbind result_bind].
  destruct (find_extremes_total ps) as (extremes & -> & _). cbn [mbind result_bind].
  destruct (interpolate_total ps (from_option id now current_time)) as [ch ->].
  cbn [mbind result_bind].
  pose proof (smooth_curve_constant _ _ _ _ Hall Ec) as Hconst.
  destruct curve as [| c0 cs].
  { destruct Hcurve; [| done]. by apply (as_predictions_nonempty extracted). }
  apply Forall_cons in Hconst as [H0 Hcs].
  destruct (svg_plot_cases print_svg self c0 cs extremes
              (from_option id now current_time) ch ps) as [Hdeg _].
  cbn zeta in Hdeg. rewrite Hdeg; [reflexivity |]. right.
  rewrite (min_height_of_constant h), (max_height_of_constant h);
    [done | done | by rewrite Forall_fmap | done | by rewrite Forall_fmap].
Qed.

End GenerateFacts.

(** Nothing is written for the payload with a single tide point. *)
Lemma generate_single_prediction_witness :
  generate_tide_plot fixture_strptime fixture_float fixture_str fixture_print
    (seconds 0) harbour single_point_payload None empty_disk = (false, empty_disk).
Proof.
  apply (generate_single_prediction_fails fixture_strptime fixture_float fixture_str
           fixture_print (seconds 0) harbour single_point_payload None empty_disk
           (VList [prediction_dict (seconds 0) 1]) (Prediction (seconds 0) 1)).
  - reflexivity.
  - reflexivity.
Defined.

(** Two tide points of different heights, ten seconds apart. *)
Lemma generate_success_witness :
  ∃ parts,
    snd (generate_tide_plot fixture_strptime fixture_float fixture_str fixture_print
           (seconds 0) harbour two_point_payload (Some (seconds 5)) empty_disk)
    = {| files := <["tide.png" := fixture_print parts]>
                    (<["tide.svg" := fixture_print parts]> ∅);
         denied := ∅ |}.
Proof.
  apply (generate_success_writes_plot fixture_strptime fixture_float fixture_str
           fixture_print (seconds 0) harbour two_point_payload (Some (seconds 5))
           empty_disk).
  reflexivity.
Defined.

(** Two tide points of one height. *)
Lemma generate_constant_heights_witness :
  generate_tide_plot fixture_strptime fixture_float fixture_str fixture_print
    (seconds 0) harbour flat_payload None empty_disk = (false, empty_disk).
Proof.
  apply (generate_constant_heights_fails fixture_strptime fixture_float fixture_str
           fixture_print (seconds 0) harbour flat_payload None empty_disk
           (VList [prediction_dict (seconds 0) 2; prediction_dict (seconds 10) 2])
           [Prediction (seconds 0) 2; Prediction (seconds 10) 2] 2).
  - reflexivity.
  - reflexivity.
  - repeat constructor.
Defined.
